(** * A shallow embedding of the resume parser's core pipeline

    The development follows [main.py]: text extraction from an upload
    ([ResumeParser.extract_text_from_pdf], [extract_text_from_docx],
    [extract_text_from_file]), prompt construction
    ([ResumeParser.create_parsing_prompt]), and the clean-up and JSON
    parsing of the model's answer ([ResumeParser.parse_resume_with_ai]),
    together with the JSON export of [create_download_section].

    Python's [str] is a sequence of Unicode code points; it is modelled as
    a list of [N].  The standard library's [json] module is embedded as
    far as the program uses it: [json.loads] with the default decoder and
    [json.dumps] with [indent=2].  The limits of the interpreter that
    [json.loads] can reach (the recursion depth, the number of digits
    of an integer conversion) are parameters of the decoder,
    [Json.Interpreter]; those of the encoder are not modelled. *)

From Stdlib Require Import Ascii String.
From Stdlib Require Import List NArith ZArith Bool Lia Arith.
From Stdlib Require DecimalFacts DecimalPos DecimalN DecimalZ.
Import ListNotations.

Set Implicit Arguments.

(* ================================================================== *)
(** * Python strings *)
(* ================================================================== *)

Module PyStr.

Abbreviation codepoint := N (only parsing).
Abbreviation str := (list N) (only parsing).

(** An ASCII literal as a Python string. *)
Definition lit (x : string) : str :=
  map N_of_ascii (list_ascii_of_string x).

(** The same, with the apostrophe standing for the double quote
    (U+0022), which the program's texts contain and which is awkward to
    write inside a literal here.  None of the program's literals
    contains an apostrophe. *)
Definition qlit (x : string) : str :=
  map (fun a => if Ascii.eqb a "'"%char then 34%N else N_of_ascii a)
      (list_ascii_of_string x).

Definition str_eq_dec : forall a b : str, {a = b} + {a <> b} :=
  list_eq_dec N.eq_dec.

Definition str_eqb (a b : str) : bool :=
  if str_eq_dec a b then true else false.

(** [str.isspace] on one code point (CPython's [_PyUnicode_IsWhitespace]). *)
Definition isspace (c : codepoint) : bool :=
  ((9 <=? c) && (c <=? 13) || (28 <=? c) && (c <=? 32)
   || (c =? 133) || (c =? 160) || (c =? 5760)
   || (8192 <=? c) && (c <=? 8202)
   || (c =? 8232) || (c =? 8233) || (c =? 8239) || (c =? 8287)
   || (c =? 12288))%N.

Fixpoint lstrip (s : str) : str :=
  match s with
  | [] => []
  | c :: t => if isspace c then lstrip t else s
  end.

Definition rstrip (s : str) : str := rev (lstrip (rev s)).

(** [s.strip()] *)
Definition strip (s : str) : str := rstrip (lstrip s).

(** [s.startswith(p)] *)
Fixpoint startswith (s p : str) {struct p} : bool :=
  match p with
  | [] => true
  | a :: p' =>
      match s with
      | [] => false
      | b :: s' => (a =? b)%N && startswith s' p'
      end
  end.

(** [s.endswith(p)] *)
Definition endswith (s p : str) : bool := startswith (rev s) (rev p).

(** [s[n:]] *)
Definition slice_from (n : nat) (s : str) : str := skipn n s.

(** [s[:-n]] for [n > 0] *)
Definition slice_drop_last (n : nat) (s : str) : str :=
  firstn (length s - n) s.

(** [str.lower] on the ASCII letters.  Case mapping outside ASCII is
    not modelled: no code point other than [A]..[Z] lowers to one of
    the characters of [.pdf], [.docx] or [.doc], the only use the
    program makes of the result. *)
Definition lower_cp (c : codepoint) : codepoint :=
  if ((65 <=? c) && (c <=? 90))%N then (c + 32)%N else c.

Definition lower (s : str) : str := map lower_cp s.

(** [str(n)] for an integer *)
Fixpoint uint_digits (d : Decimal.uint) : str :=
  match d with
  | Decimal.Nil => []
  | Decimal.D0 d => 48%N :: uint_digits d
  | Decimal.D1 d => 49%N :: uint_digits d
  | Decimal.D2 d => 50%N :: uint_digits d
  | Decimal.D3 d => 51%N :: uint_digits d
  | Decimal.D4 d => 52%N :: uint_digits d
  | Decimal.D5 d => 53%N :: uint_digits d
  | Decimal.D6 d => 54%N :: uint_digits d
  | Decimal.D7 d => 55%N :: uint_digits d
  | Decimal.D8 d => 56%N :: uint_digits d
  | Decimal.D9 d => 57%N :: uint_digits d
  end.

Definition int_str (z : Z) : str :=
  match Z.to_int z with
  | Decimal.Pos d => uint_digits d
  | Decimal.Neg d => 45%N :: uint_digits d
  end.

Definition is_digit (c : codepoint) : bool := ((48 <=? c) && (c <=? 57))%N.

(** The value of a text of ASCII digits with an optional leading
    minus sign, the only texts the JSON scanner passes to [int]. *)
Fixpoint digits_uint (s : str) : Decimal.uint :=
  match s with
  | [] => Decimal.Nil
  | c :: t =>
      let r := digits_uint t in
      if (c =? 48)%N then Decimal.D0 r
      else if (c =? 49)%N then Decimal.D1 r
      else if (c =? 50)%N then Decimal.D2 r
      else if (c =? 51)%N then Decimal.D3 r
      else if (c =? 52)%N then Decimal.D4 r
      else if (c =? 53)%N then Decimal.D5 r
      else if (c =? 54)%N then Decimal.D6 r
      else if (c =? 55)%N then Decimal.D7 r
      else if (c =? 56)%N then Decimal.D8 r
      else Decimal.D9 r
  end.

Definition int_value (s : str) : Z :=
  match s with
  | c :: t =>
      if (c =? 45)%N then Z.of_int (Decimal.Neg (digits_uint t))
      else Z.of_int (Decimal.Pos (digits_uint s))
  | [] => 0%Z
  end.

(** The digits of such a text, without the sign. *)
Definition int_digits (s : str) : str :=
  match s with
  | c :: t => if (c =? 45)%N then t else s
  | [] => s
  end.

(** Whether [int(text)] refuses the text for its length:
    [max_str_digits] is [sys.get_int_max_str_digits()], 4300 unless
    set otherwise and 0 for no limit; a text of at most 640 digits is
    never refused ([_PY_LONG_MAX_STR_DIGITS_THRESHOLD]). *)
Definition too_many_digits (max_str_digits : nat) (s : str) : bool :=
  (640 <? length (int_digits s))
  && (0 <? max_str_digits)
  && (max_str_digits <? length (int_digits s)).

(** [int(text)]; [None] is the [ValueError] of the limit. *)
Definition int_of_str (max_str_digits : nat) (s : str) : option Z :=
  if too_many_digits max_str_digits s then None else Some (int_value s).

End PyStr.

(* ================================================================== *)
(** * The [json] module *)
(* ================================================================== *)

Module Json.
Import PyStr.

(** What [json.loads] returns: [None], [bool], [int], [float], [str],
    [list] and [dict] with [str] keys.  A [dict] keeps its insertion
    order, which [json.dumps] follows, so it is an association list.
    A [float] is represented by the literal that denotes it; binary64
    rounding is not modelled. *)
#[warnings="-register-all"]
Inductive json : Type :=
| JNull
| JBool (b : bool)
| JInt (z : Z)
| JFloat (literal : str)
| JString (s : str)
| JArray (items : list json)
| JObject (members : list (str * json)).

(** The messages of [json.JSONDecodeError]. *)
Inductive JSONDecodeError : Type :=
| ExpectingValue
| ExtraData
| UnexpectedBOM
| UnterminatedString
| InvalidControlCharacter
| InvalidEscape
| InvalidUXXXXEscape
| ExpectingPropertyName
| ExpectingColonDelimiter
| ExpectingCommaDelimiter.

(** The other exceptions that [json.loads] raises on a [str]: the
    limits of the interpreter. *)
Inductive LimitError : Type :=
| RecursionLimit   (* [RecursionError]: the values are nested too deep *)
| IntDigitsLimit.  (* [ValueError]: an integer has too many digits *)

(** What the decoder depends on besides the text: how many calls of
    [_scan_once] the recursion limit leaves below the outermost one,
    the limit of [int], and the texts of the exceptions ([str(e)]). *)
Record Interpreter : Type := mkInterpreter {
  recursion_depth : nat;
  max_str_digits : nat;
  error_text : LimitError -> str
}.

(** The outcome of a decoding step: a value, a raised
    [JSONDecodeError], another exception, or the bound of a loop of
    the model used up (which does not happen, [loads_total]). *)
Inductive res (A : Type) : Type :=
| Ok (a : A)
| Raise (e : JSONDecodeError)
| Fuel
| Throw (e : LimitError).
Arguments Raise {A} e.
Arguments Fuel {A}.
Arguments Throw {A} e.

Definition bind {A B} (m : res A) (k : A -> res B) : res B :=
  match m with
  | Ok a => k a
  | Raise e => Raise e
  | Fuel => Fuel
  | Throw e => Throw e
  end.

Notation "' p <- m ;; k" := (bind m (fun p => k))
  (at level 61, p pattern, m at next level, right associativity).

(** ** Decoder ([json/decoder.py], [json/scanner.py]) *)

(** [WHITESPACE = re.compile(r'[ \t\n\r]*')] *)
Definition is_ws (c : codepoint) : bool :=
  ((c =? 32) || (c =? 9) || (c =? 10) || (c =? 13))%N.

Fixpoint skip_ws (s : str) : str :=
  match s with
  | [] => []
  | c :: t => if is_ws c then skip_ws t else s
  end.

Definition hexval (c : codepoint) : option N :=
  if ((48 <=? c) && (c <=? 57))%N then Some (c - 48)%N
  else if ((97 <=? c) && (c <=? 102))%N then Some (c - 87)%N
  else if ((65 <=? c) && (c <=? 70))%N then Some (c - 55)%N
  else None.

(** [_decode_uXXXX]: four hexadecimal digits, and nothing else, as in
    the C scanner that [json] uses by default. *)
Definition hex4 (a b c d : codepoint) : option N :=
  match hexval a, hexval b, hexval c, hexval d with
  | Some x, Some y, Some z, Some w =>
      Some (((x * 16 + y) * 16 + z) * 16 + w)%N
  | _, _, _, _ => None
  end.

Definition is_high_surrogate (u : N) : bool :=
  ((55296 <=? u) && (u <=? 56319))%N.
Definition is_low_surrogate (u : N) : bool :=
  ((56320 <=? u) && (u <=? 57343))%N.
Definition join_surrogates (u u2 : N) : N :=
  (65536 + N.lor (N.shiftl (u - 55296) 10) (u2 - 56320))%N.

(** [BACKSLASH] *)
Definition backslash (esc : codepoint) : option codepoint :=
  if (esc =? 34)%N then Some 34%N
  else if (esc =? 92)%N then Some 92%N
  else if (esc =? 47)%N then Some 47%N
  else if (esc =? 98)%N then Some 8%N
  else if (esc =? 102)%N then Some 12%N
  else if (esc =? 110)%N then Some 10%N
  else if (esc =? 114)%N then Some 13%N
  else if (esc =? 116)%N then Some 9%N
  else None.

(** [scanstring(s, end, strict=True)]: [s] is the input after the
    opening quote, [acc] the characters decoded so far.  Returns the
    decoded string and the input after the closing quote. *)
Fixpoint scanstring (s : str) (acc : str) {struct s} : res (str * str) :=
  match s with
  | [] => Raise UnterminatedString
  | c :: t =>
      if (c =? 34)%N then Ok (acc, t)
      else if (c =? 92)%N then
        match t with
        | [] => Raise UnterminatedString
        | esc :: t1 =>
            if (esc =? 117)%N then
              match t1 with
              | h1 :: h2 :: h3 :: h4 :: t2 =>
                  match hex4 h1 h2 h3 h4 with
                  | None => Raise InvalidUXXXXEscape
                  | Some uni =>
                      if is_high_surrogate uni then
                        match t2 with
                        | b :: u :: t3 =>
                            if ((b =? 92) && (u =? 117))%N then
                              match t3 with
                              | g1 :: g2 :: g3 :: g4 :: t4 =>
                                  match hex4 g1 g2 g3 g4 with
                                  | None => Raise InvalidUXXXXEscape
                                  | Some uni2 =>
                                      if is_low_surrogate uni2
                                      then scanstring t4
                                             (acc ++ [join_surrogates uni uni2])
                                      else scanstring t2 (acc ++ [uni])
                                  end
                              | _ => Raise InvalidUXXXXEscape
                              end
                            else scanstring t2 (acc ++ [uni])
                        | _ => scanstring t2 (acc ++ [uni])
                        end
                      else scanstring t2 (acc ++ [uni])
                  end
              | _ => Raise InvalidUXXXXEscape
              end
            else
              match backslash esc with
              | None => Raise InvalidEscape
              | Some ch => scanstring t1 (acc ++ [ch])
              end
        end
      else if (c <? 32)%N then Raise InvalidControlCharacter
      else scanstring t (acc ++ [c])
  end.

(** [NUMBER_RE]: an optional minus sign and either [0] or a non-zero
    digit with any number of digits (group 1), an optional dot with at
    least one digit (group 2), an optional [e] or [E] with an optional
    sign and at least one digit (group 3). *)
Fixpoint span_digits (s : str) : str * str :=
  match s with
  | [] => ([], [])
  | c :: t =>
      if is_digit c then let (ds, r) := span_digits t in (c :: ds, r)
      else ([], s)
  end.

Definition match_integer (s : str) : option (str * str) :=
  let (sign, s1) :=
    match s with
    | c :: t => if (c =? 45)%N then ([45%N], t) else ([], s)
    | [] => ([], s)
    end in
  match s1 with
  | [] => None
  | c :: t =>
      if (c =? 48)%N then Some (sign ++ [c], t)
      else if is_digit c then
        let (ds, r) := span_digits t in Some (sign ++ c :: ds, r)
      else None
  end.

Definition match_frac (s : str) : str * str :=
  match s with
  | c :: t =>
      if (c =? 46)%N then
        match span_digits t with
        | ([], _) => ([], s)
        | (ds, r) => (c :: ds, r)
        end
      else ([], s)
  | [] => ([], s)
  end.

Definition match_exp (s : str) : str * str :=
  match s with
  | c :: t =>
      if ((c =? 101) || (c =? 69))%N then
        let (sign, t1) :=
          match t with
          | d :: t' => if ((d =? 45) || (d =? 43))%N then ([d], t') else ([], t)
          | [] => ([], t)
          end in
        match span_digits t1 with
        | ([], _) => ([], s)
        | (ds, r) => (c :: sign ++ ds, r)
        end
      else ([], s)
  | [] => ([], s)
  end.

(** The three groups of a match of [NUMBER_RE] at the head of [s], and
    the input after the match. *)
Definition match_number (s : str) : option (str * str * str * str) :=
  match match_integer s with
  | None => None
  | Some (integer, r1) =>
      let (frac, r2) := match_frac r1 in
      let (exp, r3) := match_exp r2 in
      Some (integer, frac, exp, r3)
  end.

(** [dict(pairs)]: a later pair with a key already present replaces
    the value and keeps the key's position. *)
Fixpoint dict_set (d : list (str * json)) (k : str) (v : json)
  : list (str * json) :=
  match d with
  | [] => [(k, v)]
  | (k', v') :: d' =>
      if str_eqb k' k then (k', v) :: d' else (k', v') :: dict_set d' k v
  end.

Definition dict (pairs : list (str * json)) : list (str * json) :=
  fold_left (fun d kv => dict_set d (fst kv) (snd kv)) pairs [].

Section Containers.
(** [JSONArray] and [JSONObject] receive the scanner as an argument,
    as in the source. *)
Variable scan_once : str -> res (json * str).

(** The [while True] loop of [JSONArray]; [k] bounds its
    iterations. *)
Fixpoint JSONArray_loop (k : nat) (s : str) (values : list json)
  : res (json * str) :=
  match k with
  | O => Fuel
  | S k' =>
      '(value, r) <- scan_once s ;;
      let values' := values ++ [value] in
      match skip_ws r with
      | [] => Raise ExpectingCommaDelimiter
      | c :: r1 =>
          if (c =? 93)%N then Ok (JArray values', r1)
          else if (c =? 44)%N then JSONArray_loop k' (skip_ws r1) values'
          else Raise ExpectingCommaDelimiter
      end
  end.

(** [JSONArray((s, end), scan_once)]; [s] is the input after [[]. *)
Definition JSONArray (s : str) : res (json * str) :=
  match skip_ws s with
  | [] => Raise ExpectingValue
  | c :: r =>
      if (c =? 93)%N then Ok (JArray [], r)
      else JSONArray_loop (S (length s)) (skip_ws s) []
  end.

(** The [while True] loop of [JSONObject]; [s] is the input after
    the opening quote of a key. *)
Fixpoint JSONObject_loop (k : nat) (s : str) (pairs : list (str * json))
  : res (json * str) :=
  match k with
  | O => Fuel
  | S k' =>
      '(key, r) <- scanstring s [] ;;
      match skip_ws r with
      | [] => Raise ExpectingColonDelimiter
      | c :: r1 =>
          if (c =? 58)%N then
            '(value, r2) <- scan_once (skip_ws r1) ;;
            let pairs' := pairs ++ [(key, value)] in
            match skip_ws r2 with
            | [] => Raise ExpectingCommaDelimiter
            | d :: r3 =>
                if (d =? 125)%N then Ok (JObject (dict pairs'), r3)
                else if (d =? 44)%N then
                  match skip_ws r3 with
                  | [] => Raise ExpectingPropertyName
                  | q :: r4 =>
                      if (q =? 34)%N then JSONObject_loop k' r4 pairs'
                      else Raise ExpectingPropertyName
                  end
                else Raise ExpectingCommaDelimiter
            end
          else Raise ExpectingColonDelimiter
      end
  end.

(** [JSONObject((s, end), strict, scan_once, ...)]; [s] is the input
    after [{]. *)
Definition JSONObject (s : str) : res (json * str) :=
  match skip_ws s with
  | [] => Raise ExpectingPropertyName
  | c :: r =>
      if (c =? 125)%N then Ok (JObject [], r)
      else if (c =? 34)%N then JSONObject_loop (S (length s)) r []
      else Raise ExpectingPropertyName
  end.
End Containers.

(** [_scan_once(string, idx)] of [py_make_scanner]; [depth] is the
    number of calls of [_scan_once], one inside the other, that the
    recursion limit allows: with none left the call raises
    [RecursionError].  [StopIteration] is turned by every caller into
    [JSONDecodeError("Expecting value")]. *)
Fixpoint scan_once (max_digits : nat) (depth : nat) (s : str) {struct depth}
  : res (json * str) :=
  match depth with
  | O => Throw RecursionLimit
  | S n =>
      match s with
      | [] => Raise ExpectingValue
      | c :: t =>
          if (c =? 34)%N then
            '(x, r) <- scanstring t [] ;; Ok (JString x, r)
          else if (c =? 123)%N then JSONObject (scan_once max_digits n) t
          else if (c =? 91)%N then JSONArray (scan_once max_digits n) t
          else if startswith s (lit "null") then Ok (JNull, skipn 4 s)
          else if startswith s (lit "true") then Ok (JBool true, skipn 4 s)
          else if startswith s (lit "false") then Ok (JBool false, skipn 5 s)
          else
            match match_number s with
            | Some (integer, frac, exp, r) =>
                match frac, exp with
                | [], [] =>
                    match int_of_str max_digits integer with
                    | Some z => Ok (JInt z, r)
                    | None => Throw IntDigitsLimit
                    end
                | _, _ => Ok (JFloat (integer ++ frac ++ exp), r)
                end
            | None =>
                if startswith s (lit "NaN")
                then Ok (JFloat (lit "NaN"), skipn 3 s)
                else if startswith s (lit "Infinity")
                then Ok (JFloat (lit "Infinity"), skipn 8 s)
                else if startswith s (lit "-Infinity")
                then Ok (JFloat (lit "-Infinity"), skipn 9 s)
                else Raise ExpectingValue
            end
      end
  end.

(** [JSONDecoder.decode] *)
Definition decode (py : Interpreter) (s : str) : res json :=
  '(obj, r) <- scan_once (max_str_digits py) (S (recursion_depth py))
                 (skip_ws s) ;;
  match skip_ws r with
  | [] => Ok obj
  | _ :: _ => Raise ExtraData
  end.

(** [json.loads(s)] for a [str] argument *)
Definition loads (py : Interpreter) (s : str) : res json :=
  if startswith s [65279%N] then Raise UnexpectedBOM else decode py s.

(** ** Encoder ([json/encoder.py]) *)

(** One digit of [format(n, '04x')] *)
Definition hexdigit (d : N) : codepoint :=
  if (d <? 10)%N then (48 + d)%N else (87 + d)%N.

(** ['\\u{0:04x}'.format(n)] *)
Definition u_escape (n : N) : str :=
  [92%N; 117%N; hexdigit (n / 4096); hexdigit ((n / 256) mod 16);
   hexdigit ((n / 16) mod 16); hexdigit (n mod 16)].

(** [replace] of [py_encode_basestring_ascii]: [ESCAPE_ASCII] matches
    the backslash, the double quote and everything outside space..~;
    [ESCAPE_DCT] gives the short escapes. *)
Definition escape_cp (c : codepoint) : str :=
  if (c =? 34)%N then [92%N; 34%N]
  else if (c =? 92)%N then [92%N; 92%N]
  else if (c =? 10)%N then [92%N; 110%N]
  else if (c =? 13)%N then [92%N; 114%N]
  else if (c =? 9)%N then [92%N; 116%N]
  else if (c =? 8)%N then [92%N; 98%N]
  else if (c =? 12)%N then [92%N; 102%N]
  else if ((32 <=? c) && (c <=? 126))%N then [c]
  else if (c <? 65536)%N then u_escape c
  else
    let n := (c - 65536)%N in
    u_escape (N.lor 55296 (N.land (N.shiftr n 10) 1023))
    ++ u_escape (N.lor 56320 (N.land n 1023)).

(** [encode_basestring_ascii(s)] ([ensure_ascii=True] is the default) *)
Definition encode_basestring_ascii (s : str) : str :=
  34%N :: flat_map escape_cp s ++ [34%N].

(** [sep.join(l)] *)
Fixpoint join (sep : str) (l : list str) : str :=
  match l with
  | [] => []
  | x :: l' =>
      match l' with
      | [] => x
      | _ :: _ => x ++ sep ++ join sep l'
      end
  end.

Section Encoder.
(** [float.__repr__] of the float a literal denotes; not modelled. *)
Variable float_repr : str -> str.
(** [indent], when it is an integer *)
Variable indent : nat.

(** ['\n' + _indent * _current_indent_level] *)
Definition newline_indent (level : nat) : str :=
  10%N :: repeat 32%N (indent * level).

(** [_iterencode], [_iterencode_list] and [_iterencode_dict] of
    [_make_iterencode], with the chunks they yield concatenated.
    The item separator is [,] and the key separator [: ], the
    defaults when [indent] is given.  Keys are [str], as they are in
    every [dict] that [json.loads] builds. *)
Fixpoint iterencode (level : nat) (o : json) {struct o} : str :=
  match o with
  | JString s => encode_basestring_ascii s
  | JNull => lit "null"
  | JBool true => lit "true"
  | JBool false => lit "false"
  | JInt z => int_str z
  | JFloat f => float_repr f
  | JArray [] => lit "[]"
  | JArray items =>
      [91%N] ++ newline_indent (S level)
      ++ join (44%N :: newline_indent (S level))
              (map (iterencode (S level)) items)
      ++ newline_indent level ++ [93%N]
  | JObject [] => lit "{}"
  | JObject members =>
      [123%N] ++ newline_indent (S level)
      ++ join (44%N :: newline_indent (S level))
              (map (fun kv =>
                      encode_basestring_ascii (fst kv)
                      ++ [58%N; 32%N] ++ iterencode (S level) (snd kv))
                   members)
      ++ newline_indent level ++ [125%N]
  end.

(** [json.dumps(obj, indent=indent)] *)
Definition dumps (obj : json) : str := iterencode 0 obj.
End Encoder.

End Json.

(* ================================================================== *)
(** * Text extraction *)
(* ================================================================== *)

Module Extractor.
Import PyStr.

Definition bytes := list N.

(** A call either returns or raises [Exception(msg)]. *)
Inductive outcome (A : Type) : Type :=
| Returns (a : A)
| Raises (msg : str).
Arguments Raises {A} msg.

(** What the extraction does to the world around it, in order. *)
Inductive event : Type :=
| EvRead                                   (* uploaded_file.read() *)
| EvTempFile (suffix : str) (data : bytes) (* tmp_file.write, flush *)
| EvPdfReader                              (* PyPDF2.PdfReader(...) *)
| EvDocument                               (* docx.Document(...) *)
| EvUnlink.                                (* os.unlink(tmp_file.name) *)

(** A computation: the events it performed and how it ended. *)
Definition io (A : Type) : Type := (list event * outcome A)%type.

Definition ret {A} (a : A) : io A := ([], Returns a).
Definition raise {A} (msg : str) : io A := ([], Raises msg).
Definition emit (e : event) : io unit := ([e], Returns tt).
Definition lift {A} (o : outcome A) : io A := ([], o).
Definition iobind {A B} (m : io A) (k : A -> io B) : io B :=
  match m with
  | (tr, Returns a) => let (tr', o) := k a in (tr ++ tr', o)
  | (tr, Raises msg) => (tr, Raises msg)
  end.

Notation "x <- m ;; k" := (iobind m (fun x => k))
  (at level 61, m at next level, right associativity).
Notation "m ;;; k" := (iobind m (fun _ => k))
  (at level 61, right associativity).

(** [try: body except Exception as e: raise Exception(prefix + str(e))] *)
Definition reraise {A} (prefix : str) (body : io A) : io A :=
  match body with
  | (tr, Returns a) => (tr, Returns a)
  | (tr, Raises msg) => (tr, Raises (prefix ++ msg))
  end.

(** The uploaded file: a named byte stream with a read position. *)
Record UploadedFile : Type := mkUpload {
  name : str;
  data : bytes;
  position : nat
}.

(** [uploaded_file.read()]: the bytes from the position to the end;
    the position moves to the end. *)
Definition read (f : UploadedFile) : bytes * UploadedFile :=
  (skipn (position f) (data f),
   mkUpload (name f) (data f) (Nat.max (position f) (length (data f)))).

Definition UNSUPPORTED : str :=
  lit "Unsupported file format. Please upload PDF or DOCX files.".

Section Libraries.
(** PyPDF2 and python-docx are outside the program: a reader gives
    the pages of a PDF or raises, a page gives its text layer or
    raises, and a document gives the texts of its paragraphs or
    raises. *)
Variable Page : Type.
Variable PdfReader : bytes -> outcome (list Page).
Variable extract_text : Page -> outcome str.
Variable Document : bytes -> outcome (list str).

(** [f"\n--- Page {page_num} ---\n"] *)
Definition page_marker (page_num : nat) : str :=
  [10%N] ++ lit "--- Page " ++ int_str (Z.of_nat page_num)
  ++ lit " ---" ++ [10%N].

(** The loop over [enumerate(pdf_reader.pages, 1)]. *)
Fixpoint pdf_pages_loop (pages : list Page) (page_num : nat) (text : str)
  : outcome str :=
  match pages with
  | [] => Returns text
  | page :: pages' =>
      match extract_text page with
      | Raises msg => Raises msg
      | Returns page_text =>
          match page_text with
          | [] => pdf_pages_loop pages' (S page_num) text
          | _ :: _ =>
              pdf_pages_loop pages' (S page_num)
                (text ++ page_marker page_num ++ page_text ++ [10%N])
          end
      end
  end.

Definition extract_text_from_pdf (file_content : bytes) : io str :=
  reraise (lit "Error extracting PDF text: ")
    (emit (EvTempFile (lit ".pdf") file_content) ;;;
     emit EvPdfReader ;;;
     pages <- lift (PdfReader file_content) ;;
     text <- lift (pdf_pages_loop pages 1 []) ;;
     emit EvUnlink ;;;
     ret (strip text)).

(** The loop over [doc.paragraphs]. *)
Fixpoint docx_paragraphs_loop (paragraphs : list str) (text : str) : str :=
  match paragraphs with
  | [] => text
  | paragraph :: paragraphs' =>
      match strip paragraph with
      | [] => docx_paragraphs_loop paragraphs' text
      | _ :: _ =>
          docx_paragraphs_loop paragraphs' (text ++ paragraph ++ [10%N])
      end
  end.

Definition extract_text_from_docx (file_content : bytes) : io str :=
  reraise (lit "Error extracting DOCX text: ")
    (emit (EvTempFile (lit ".docx") file_content) ;;;
     emit EvDocument ;;;
     paragraphs <- lift (Document file_content) ;;
     let text := docx_paragraphs_loop paragraphs [] in
     emit EvUnlink ;;;
     ret (strip text)).

Definition extract_text_from_file (uploaded_file : UploadedFile)
  : UploadedFile * io str :=
  let (file_content, uploaded_file') := read uploaded_file in
  let filename := lower (name uploaded_file) in
  (uploaded_file',
   emit EvRead ;;;
   if endswith filename (lit ".pdf") then
     extract_text_from_pdf file_content
   else if endswith filename (lit ".docx")
           || endswith filename (lit ".doc") then
     extract_text_from_docx file_content
   else raise UNSUPPORTED).
End Libraries.

End Extractor.

(* ================================================================== *)
(** * Prompt construction and parsing of the model's answer *)
(* ================================================================== *)

Module Parser.
Import PyStr Json Extractor.

(** [self]: the key and the configured model.  [generate] stands for
    [self.model.generate_content(prompt)] followed by [response.text]:
    the answer's text, or the exception the call raised. *)
Record ResumeParser : Type := mkParser {
  api_key : str;
  generate : str -> outcome str
}.

(** An f-string after lexing: literal text (with the doubled braces
    already single) and replacement fields naming a local variable. *)
Inductive fpart : Type :=
| FText (s : str)
| FField (variable : str).

Definition locals := list (str * str).

Fixpoint lookup (env : locals) (x : str) : option str :=
  match env with
  | [] => None
  | (y, v) :: env' => if str_eqb y x then Some v else lookup env' x
  end.

(** Evaluation of an f-string; an unbound name raises [NameError]. *)
Fixpoint fstring (env : locals) (parts : list fpart) : outcome str :=
  match parts with
  | [] => Returns []
  | FText s :: parts' =>
      match fstring env parts' with
      | Returns r => Returns (s ++ r)
      | Raises msg => Raises msg
      end
  | FField x :: parts' =>
      match lookup env x with
      | None => Raises (lit "name '" ++ x ++ lit "' is not defined")
      | Some v =>
          match fstring env parts' with
          | Returns r => Returns (v ++ r)
          | Raises msg => Raises msg
          end
      end
  end.

(** The lines of a text, joined by newlines. *)
Definition unlines (ls : list string) : str :=
  join [10%N] (map qlit ls).

Definition PROMPT_HEAD : list string :=
  [
    "";
    "You are an expert resume parser and HR analyst. Analyze the following resume text and extract comprehensive information. Be thorough and accurate in your extraction.";
    "";
    "Resume Text:";
    ""
  ]%string.

Definition PROMPT_TAIL : list string :=
  [
    "";
    "";
    "Extract and structure the following information as a JSON object:";
    "";
    "1. **Personal Information:**";
    "   - Full name";
    "   - Email address  ";
    "   - Phone number";
    "   - Physical address";
    "   - LinkedIn profile URL";
    "   - GitHub/Portfolio URLs";
    "   - Professional websites";
    "";
    "2. **Professional Summary:** Brief career overview/objective";
    "";
    "3. **Work Experience:** List all jobs with:";
    "   - Company name";
    "   - Job title/position";
    "   - Employment duration (start-end dates)";
    "   - Location";
    "   - Key responsibilities and achievements";
    "   - Technologies/tools used";
    "";
    "4. **Education:** All educational qualifications with:";
    "   - Degree/certification name";
    "   - Institution name";
    "   - Graduation year";
    "   - GPA/grades (if mentioned)";
    "   - Relevant coursework";
    "";
    "5. **Skills:** Categorize into:";
    "   - Technical skills";
    "   - Programming languages";
    "   - Tools and technologies";
    "   - Soft skills";
    "   - Languages spoken";
    "";
    "6. **Certifications:** All professional certifications with issuing organizations";
    "";
    "7. **Projects:** Personal/professional projects with:";
    "   - Project name";
    "   - Description";
    "   - Technologies used";
    "   - Duration";
    "   - Key achievements";
    "";
    "8. **Additional Information:**";
    "   - Awards and achievements";
    "   - Publications";
    "   - Volunteer work";
    "   - Hobbies/interests";
    "";
    "Return ONLY a valid JSON object with this exact structure:";
    "{";
    "    'personal_info': {";
    "        'name': 'Full Name',";
    "        'email': 'email@example.com',";
    "        'phone': 'phone number',";
    "        'address': 'full address',";
    "        'linkedin': 'linkedin URL',";
    "        'github': 'github URL',";
    "        'portfolio': 'portfolio URL'";
    "    },";
    "    'summary': 'Professional summary text',";
    "    'experience': [";
    "        {";
    "            'company': 'Company Name',";
    "            'position': 'Job Title',";
    "            'duration': 'Start Date - End Date',";
    "            'location': 'City, State',";
    "            'description': 'Job description and achievements',";
    "            'technologies': ['tech1', 'tech2']";
    "        }";
    "    ],";
    "    'education': [";
    "        {";
    "            'degree': 'Degree Name',";
    "            'institution': 'Institution Name',";
    "            'year': 'Graduation Year',";
    "            'gpa': 'GPA if mentioned',";
    "            'coursework': ['course1', 'course2']";
    "        }";
    "    ],";
    "    'skills': {";
    "        'technical': ['skill1', 'skill2'],";
    "        'programming': ['lang1', 'lang2'],";
    "        'tools': ['tool1', 'tool2'],";
    "        'soft_skills': ['skill1', 'skill2'],";
    "        'languages': ['English', 'Spanish']";
    "    },";
    "    'certifications': [";
    "        {";
    "            'name': 'Certification Name',";
    "            'issuer': 'Issuing Organization',";
    "            'date': 'Issue Date'";
    "        }";
    "    ],";
    "    'projects': [";
    "        {";
    "            'name': 'Project Name',";
    "            'description': 'Project description',";
    "            'technologies': ['tech1', 'tech2'],";
    "            'duration': 'Project duration',";
    "            'achievements': 'Key achievements'";
    "        }";
    "    ],";
    "    'additional': {";
    "        'awards': ['award1', 'award2'],";
    "        'publications': ['pub1', 'pub2'],";
    "        'volunteer': ['volunteer work'],";
    "        'interests': ['interest1', 'interest2']";
    "    }";
    "}";
    "";
    "If any field is not found, use null or empty array []. Ensure all text is properly extracted and formatted.";
    ""
  ]%string.

(** The f-string of [create_parsing_prompt]. *)
Definition PROMPT : list fpart :=
  [FText (unlines PROMPT_HEAD); FField (lit "resume_text");
   FText (unlines PROMPT_TAIL)].

Definition create_parsing_prompt (self : ResumeParser) (resume_text : str)
  : outcome str :=
  fstring [(lit "resume_text", resume_text)] PROMPT.

(** Lines 294-301: [strip], the two fence tests, [strip]. *)
Definition clean_response (text : str) : str :=
  let response_text := strip text in
  let response_text :=
    if startswith response_text (lit "```json")
    then slice_from 7 response_text else response_text in
  let response_text :=
    if endswith response_text (lit "```")
    then slice_drop_last 3 response_text else response_text in
  strip response_text.

(** [{"error": "JSON parsing failed", "raw_response": response_text}] *)
Definition failure_record (response_text : str) : json :=
  JObject [(lit "error", JString (lit "JSON parsing failed"));
           (lit "raw_response", JString response_text)].

(** [{"error": str(e)}] *)
Definition error_record (msg : str) : json :=
  JObject [(lit "error", JString msg)].

(** Lines 294-314: what [parse_resume_with_ai] makes of the answer's
    text.  A [JSONDecodeError] is handled at line 307; any other
    exception of [json.loads] (the recursion limit, the limit of
    [int]) reaches the handler of line 312, and the cleaned text is
    not kept.  The calls that only draw on the page ([st.error],
    [st.text_area]) are left out.  The bound of the decoder's loops is
    never reached ([loads_total]). *)
Definition normalize (py : Interpreter) (text : str) : json :=
  let response_text := clean_response text in
  match loads py response_text with
  | Ok parsed_data => parsed_data
  | Raise _ => failure_record response_text
  | Throw e => error_record (error_text py e)
  | Fuel => failure_record response_text
  end.

Definition parse_resume_with_ai (py : Interpreter) (self : ResumeParser)
  (resume_text : str) : json :=
  match create_parsing_prompt self resume_text with
  | Raises msg => error_record msg
  | Returns prompt =>
      match generate self prompt with
      | Raises msg => error_record msg
      | Returns text => normalize py text
      end
  end.

(** [json_data = json.dumps(parsed_data, indent=2)] of
    [create_download_section]. *)
Definition download_json (float_repr : str -> str) (parsed_data : json)
  : str :=
  dumps float_repr 2 parsed_data.

End Parser.

(* ================================================================== *)
(** * Notions used to state the properties *)
(* ================================================================== *)

Module Props.
Import PyStr Json Extractor Parser.

(** The program's test for a failed parse, ["error" in parsed_data]
    (lines 555, 697 and 725), on a [dict]. *)
Definition has_key (k : str) (v : json) : bool :=
  match v with
  | JObject members => existsb (fun kv => str_eqb (fst kv) k) members
  | _ => false
  end.

(** The top-level keys of the schema the prompt asks for. *)
Definition schema_keys : list str :=
  map lit ["personal_info"; "summary"; "experience"; "education";
           "skills"; "certifications"; "projects"; "additional"]%string.

(** A mapping whose keys all belong to the schema (any of them may be
    absent). *)
Definition ParsedResume_shape (v : json) : bool :=
  match v with
  | JObject members =>
      forallb (fun kv => existsb (str_eqb (fst kv)) schema_keys) members
  | _ => false
  end.

(** A record holding only an error indicator and a raw text. *)
Definition ParseFailure_shape (v : json) : bool :=
  match v with
  | JObject [(k1, JString _); (k2, JString _)] =>
      str_eqb k1 (lit "error") && str_eqb k2 (lit "raw_response")
  | _ => false
  end.

(** A record holding only an error indicator: what the handler of
    line 312 returns. *)
Definition ParseError_shape (v : json) : bool :=
  match v with
  | JObject [(k1, JString _)] => str_eqb k1 (lit "error")
  | _ => false
  end.

(** An interpreter with the limits that CPython has by default, for
    the examples: a recursion limit of 1000, of which the callers of
    the scanner are taken to leave 990, and 4300 digits for [int].
    The texts are CPython's messages up to the part that depends on
    the answer (the kind of value being decoded, the number of
    digits). *)
Definition cpython : Interpreter :=
  mkInterpreter 990 4300
    (fun e =>
       match e with
       | RecursionLimit => lit "maximum recursion depth exceeded"
       | IntDigitsLimit =>
           lit "Exceeds the limit (4300 digits) for integer string conversion"
       end).

(** An answer wrapped in a Markdown fence tagged [json], and in a bare
    fence. *)
Definition fenced (j : str) : str :=
  lit "```json" ++ [10%N] ++ j ++ [10%N] ++ lit "```".

Definition bare_fenced (j : str) : str :=
  lit "```" ++ [10%N] ++ j ++ [10%N] ++ lit "```".

(** The code points of a [str] are below [0x110000]. *)
Definition valid_str (s : str) : bool :=
  forallb (fun c => (c <? 1114112)%N) s.

Fixpoint distinct (keys : list str) : bool :=
  match keys with
  | [] => true
  | k :: keys' => negb (existsb (str_eqb k) keys') && distinct keys'
  end.

(** The calls of [_scan_once], one inside the other, that reading a
    value takes. *)
Fixpoint height (v : json) : nat :=
  match v with
  | JArray items =>
      S (fold_right (fun x h => Nat.max (height x) h) 0 items)
  | JObject members =>
      S (fold_right (fun kv h => Nat.max (height (snd kv)) h) 0 members)
  | _ => 1
  end.

(** What holds of every value that [json.loads] returns, with the
    limit [max_digits] of [int], for a text that is a [str]: integers
    within the limit, strings that are [str], and mappings with
    pairwise distinct keys, as in any [dict]. *)
Fixpoint decoded (max_digits : nat) (v : json) : bool :=
  match v with
  | JNull | JBool _ | JFloat _ => true
  | JInt z => negb (too_many_digits max_digits (int_str z))
  | JString s => valid_str s
  | JArray items => forallb (decoded max_digits) items
  | JObject members =>
      distinct (map fst members)
      && forallb (fun kv => valid_str (fst kv) && decoded max_digits (snd kv))
                 members
  end.

(** Such a value, that [n] calls of the scanner, one inside the
    other, read; and a member with such a value. *)
Definition good (m n : nat) (v : json) : Prop :=
  decoded m v = true /\ height v <= n.

Definition good_member (m n : nat) (kv : str * json) : Prop :=
  valid_str (fst kv) = true /\ good m n (snd kv).

(** A high surrogate directly followed by a low surrogate, as two
    characters of a string: [json.dumps] writes them as two escapes,
    which [json.loads] reads as one character. *)
Fixpoint split_pair_free (s : str) : bool :=
  match s with
  | [] => true
  | c :: t =>
      negb (is_high_surrogate c
            && match t with
               | d :: _ => is_low_surrogate d
               | [] => false
               end)
      && split_pair_free t
  end.

(** The texts that [float.__repr__] and the [floatstr] of the encoder
    give: a number with a fraction or an exponent, [NaN], [Infinity]
    and [-Infinity]. *)
Definition float_literal (t : str) : bool :=
  match match_number t with
  | Some (integer, frac, exp, []) =>
      match frac, exp with
      | [], [] => false
      | _, _ => true
      end
  | Some _ => false
  | None =>
      str_eqb t (lit "NaN") || str_eqb t (lit "Infinity")
      || str_eqb t (lit "-Infinity")
  end.

(** What the export round trip needs of a value besides: no string
    (keys included) with a split surrogate pair, and floats whose
    [repr] is such a text, as it is in CPython. *)
Fixpoint exportable (float_repr : str -> str) (v : json) : bool :=
  match v with
  | JNull | JBool _ | JInt _ => true
  | JFloat f => float_literal (float_repr f)
  | JString s => split_pair_free s
  | JArray items => forallb (exportable float_repr) items
  | JObject members =>
      forallb (fun kv => split_pair_free (fst kv)
                         && exportable float_repr (snd kv))
              members
  end.

(** The value with every float replaced by the float that its [repr]
    denotes, which in CPython is the same float; the model, in which a
    float is the text that denotes it, does not know that. *)
Fixpoint reread (float_repr : str -> str) (v : json) : json :=
  match v with
  | JFloat f => JFloat (float_repr f)
  | JArray items => JArray (map (reread float_repr) items)
  | JObject members =>
      JObject (map (fun kv => (fst kv, reread float_repr (snd kv))) members)
  | _ => v
  end.

(** The floats of the value are written as their [repr], as [3.8]
    is and [3.80] is not. *)
Fixpoint repr_stable (float_repr : str -> str) (v : json) : bool :=
  match v with
  | JFloat f => str_eqb (float_repr f) f
  | JArray items => forallb (repr_stable float_repr) items
  | JObject members =>
      forallb (fun kv => repr_stable float_repr (snd kv)) members
  | _ => true
  end.

(** The accepted extensions of [extract_text_from_file]. *)
Definition accepted_extension (filename : str) : bool :=
  endswith (lower filename) (lit ".pdf")
  || endswith (lower filename) (lit ".docx")
  || endswith (lower filename) (lit ".doc").

(** The pages of a PDF that have a text layer, with their 1-based
    page numbers. *)
Fixpoint text_pages (texts : list str) (page_num : nat)
  : list (nat * str) :=
  match texts with
  | [] => []
  | t :: texts' =>
      match t with
      | [] => text_pages texts' (S page_num)
      | _ :: _ => (page_num, t) :: text_pages texts' (S page_num)
      end
  end.

(** A page-boundary marker followed by the page's text, closed by a
    newline. *)
Definition page_block (numbered : nat * str) : str :=
  page_marker (fst numbered) ++ snd numbered ++ [10%N].

(** A paragraph on a line of its own. *)
Definition paragraph_line (paragraph : str) : str := paragraph ++ [10%N].

(** A paragraph that is blank after trimming. *)
Definition blank (paragraph : str) : bool :=
  match strip paragraph with
  | [] => true
  | _ :: _ => false
  end.

(** [r] is what is left of [s] once a prefix has been consumed; the
    consumed prefix ends with the character [b]. *)
Definition suffix (s r : str) : Prop := exists c, s = c ++ r.
Definition closes (s r : str) (b : codepoint) : Prop :=
  exists c, s = c ++ b :: r.

(** What may follow an encoded value in the output of [json.dumps]:
    the end of the text, a comma or a newline. *)
Definition follows_value (r : str) : Prop :=
  match r with
  | [] => True
  | c :: _ => c = 44%N \/ c = 10%N
  end.

(** A character that is neither whitespace for [str.strip] nor a
    backtick. *)
Definition edge (c : codepoint) : Prop := isspace c = false /\ c <> 96%N.

End Props.

(* ================================================================== *)
(** * Notions used to state further properties *)
(* ================================================================== *)

Module Notions.
Import PyStr Json Extractor Parser.

(** [x] occurs in [s] as a contiguous part. *)
Definition infix (x s : str) : Prop := exists a b, s = a ++ x ++ b.

(** The visible part of the marker of a page: [--- Page k ---]. *)
Definition page_label (page_num : nat) : str :=
  lit "--- Page " ++ int_str (Z.of_nat page_num) ++ lit " ---".

Definition is_unlink (e : event) : bool :=
  match e with
  | EvUnlink => true
  | _ => false
  end.

(** A page without a text layer. *)
Definition textless (page_text : str) : bool :=
  match page_text with
  | [] => true
  | _ :: _ => false
  end.

End Notions.

(* ================================================================== *)
(** * The page and the application *)
(* ================================================================== *)

Module View.
Import PyStr Json Extractor Parser.

(** ** Literals *)

(** The program's source is UTF-8; a literal outside ASCII is written
    here as it is in the source and decoded to its code points. *)
Fixpoint utf8 (b : list N) : str :=
  match b with
  | [] => []
  | b0 :: r0 =>
      if (b0 <? 128)%N then b0 :: utf8 r0
      else
        match r0 with
        | [] => []
        | b1 :: r1 =>
            if (b0 <? 224)%N
            then ((b0 - 192) * 64 + (b1 - 128))%N :: utf8 r1
            else
              match r1 with
              | [] => []
              | b2 :: r2 =>
                  if (b0 <? 240)%N
                  then ((b0 - 224) * 4096 + (b1 - 128) * 64
                        + (b2 - 128))%N :: utf8 r2
                  else
                    match r2 with
                    | [] => []
                    | b3 :: r3 =>
                        ((b0 - 240) * 262144 + (b1 - 128) * 4096
                         + (b2 - 128) * 64 + (b3 - 128))%N :: utf8 r3
                    end
              end
        end
  end.

Definition ulit (x : string) : str := utf8 (lit x).

(** The same with the apostrophe standing for the double quote; no
    literal written with it contains an apostrophe. *)
Definition uqlit (x : string) : str := utf8 (qlit x).

(** ** Python values

    The values that the page receives are the values that [json.loads]
    returns, and [None]; they are the values of type [json]
    ([JNull] is [None]). *)

(** The exceptions that the page's code meets. *)
Inductive exn : Type :=
| Exception (msg : str)                       (* raised with a message *)
| ValueError (msg : str)
| AttributeError (obj : json) (attr : string) (* obj.attr *)
| TypeError (operation : string) (obj : json) (* in, iter, subscript *)
| KeyError (key : str).                       (* obj[key] *)

Inductive result (A : Type) : Type :=
| Done (a : A)
| Raised (e : exn).
Arguments Raised {A} e.

Definition nonempty {A} (l : list A) : bool :=
  match l with
  | [] => false
  | _ :: _ => true
  end.

Fixpoint assoc (members : list (str * json)) (key : str) : option json :=
  match members with
  | [] => None
  | (k, v) :: members' => if str_eqb k key then Some v else assoc members' key
  end.

(** [key in s] for two strings *)
Fixpoint substring (key s : str) : bool :=
  startswith s key
  || match s with
     | [] => false
     | _ :: s' => substring key s'
     end.

(** [x == JString key] for a value [x] *)
Definition is_str (key : str) (x : json) : bool :=
  match x with
  | JString s => str_eqb s key
  | _ => false
  end.

(** [key in obj] for a string [key] *)
Definition contains (key : str) (obj : json) : result bool :=
  match obj with
  | JObject members =>
      Done (existsb (fun kv => str_eqb (fst kv) key) members)
  | JArray items => Done (existsb (is_str key) items)
  | JString s => Done (substring key s)
  | _ => Raised (TypeError "in" obj)
  end.

(** [obj.get(key, default)] *)
Definition get (obj : json) (key : str) (default : json) : result json :=
  match obj with
  | JObject members =>
      Done match assoc members key with
           | Some v => v
           | None => default
           end
  | _ => Raised (AttributeError obj "get")
  end.

(** [obj[key]] for a string [key] *)
Definition subscript (obj : json) (key : str) : result json :=
  match obj with
  | JObject members =>
      match assoc members key with
      | Some v => Done v
      | None => Raised (KeyError key)
      end
  | _ => Raised (TypeError "subscript" obj)
  end.

(** [iter(obj)]: the elements of a list, the characters of a string,
    the keys of a dict *)
Definition iter (obj : json) : result (list json) :=
  match obj with
  | JArray items => Done items
  | JString s => Done (map (fun c => JString [c]) s)
  | JObject members => Done (map (fun kv => JString (fst kv)) members)
  | _ => Raised (TypeError "iter" obj)
  end.

(** [obj.strip()] *)
Definition strip_method (obj : json) : result json :=
  match obj with
  | JString s => Done (JString (strip s))
  | _ => Raised (AttributeError obj "strip")
  end.

(** ** Calls of the page library

    A call of [streamlit] is recorded with its arguments; what it draws
    is outside the program.  The values it returns to the program (a
    pressed button, the columns) are inputs of the functions below. *)

Inductive arg : Type :=
| Pos (value : json)
| Kw (name : string) (value : json).

Inductive block : Type :=
| Call (fn : string) (args : list arg) (* with st.fn(args): *)
| Column (index : nat)                 (* with col: of the last st.columns *)
| Tab (index : nat).                   (* with tab: of st.tabs *)

Inductive act : Type :=
| St (fn : string) (args : list arg)      (* st.fn(args) *)
| Sidebar (fn : string) (args : list arg) (* st.sidebar.fn(args) *)
| Enter (b : block)
| Exit
| World (e : event)                       (* what the extraction does *)
| Genai (fn : string) (args : list arg)   (* genai.fn(args) *)
| Generate (prompt : str).                (* model.generate_content(prompt) *)

Definition ui (A : Type) : Type := (list act * result A)%type.

Definition ret {A} (a : A) : ui A := ([], Done a).
Definition throw {A} (e : exn) : ui A := ([], Raised e).
Definition eval {A} (r : result A) : ui A := ([], r).

(** Whether a computation returns, rather than raises. *)
Definition returns {A} (m : ui A) : bool :=
  match snd m with
  | Done _ => true
  | Raised _ => false
  end.
Definition st (fn : string) (args : list arg) : ui unit :=
  ([St fn args], Done tt).
Definition uibind {A B} (m : ui A) (k : A -> ui B) : ui B :=
  match m with
  | (tr, Done a) => let (tr', r) := k a in (tr ++ tr', r)
  | (tr, Raised e) => (tr, Raised e)
  end.

Declare Scope view_scope.
Delimit Scope view_scope with view.
Notation "x <- m ;; k" := (uibind m (fun x => k))
  (at level 61, m at next level, right associativity) : view_scope.
Notation "m ;;; k" := (uibind m (fun _ => k))
  (at level 61, right associativity) : view_scope.
Local Open Scope view_scope.

(** The calls that only draw: text and layout.  The others create a
    widget, call the model or a library, or touch a file. *)
Definition draws (a : act) : bool :=
  match a with
  | St fn _ =>
      existsb (String.eqb fn) ["markdown"; "columns"; "error"; "text"]%string
  | Enter (Call fn _) => String.eqb fn "expander"
  | Enter (Column _) => true
  | Exit => true
  | _ => false
  end.

(** [with b: body]; the block is left also when the body raises. *)
Definition within {A} (b : block) (body : ui A) : ui A :=
  let (tr, r) := body in (Enter b :: tr ++ [Exit], r).

(** [try: body except Exception as e: handler] *)
Definition try_except {A} (body : ui A) (handler : exn -> ui A) : ui A :=
  match body with
  | (tr, Done a) => (tr, Done a)
  | (tr, Raised e) => let (tr', r) := handler e in (tr ++ tr', r)
  end.

(** A call of a library that returns or raises [Exception(msg)]. *)
Definition call {A} (o : outcome A) : ui A :=
  match o with
  | Returns a => ret a
  | Raises msg => throw (Exception msg)
  end.

(** [for x in l: body] *)
Fixpoint for_each {A} (l : list A) (body : A -> ui unit) : ui unit :=
  match l with
  | [] => ret tt
  | x :: l' => body x ;;; for_each l' body
  end.

(** [enumerate(l)] *)
Definition enumerate {A} (l : list A) : list (nat * A) :=
  combine (seq 0 (length l)) l.

Definition markdown (body : str) : ui unit :=
  st "markdown" [Pos (JString body)].

Definition markdown_html (body : str) : ui unit :=
  st "markdown" [Pos (JString body); Kw "unsafe_allow_html" (JBool true)].

Section Display.
(** Whether a float literal denotes zero, and the texts that [repr]
    gives for floats, lists and dicts, are not modelled. *)
Variable float_is_zero : str -> bool.
Variable repr : json -> str.

(** [bool(v)] *)
Definition truthy (v : json) : bool :=
  match v with
  | JNull => false
  | JBool b => b
  | JInt z => negb (z =? 0)%Z
  | JFloat literal => negb (float_is_zero literal)
  | JString s => nonempty s
  | JArray items => nonempty items
  | JObject members => nonempty members
  end.

(** [str(v)], which is what a replacement field of an f-string gives *)
Definition py_str (v : json) : str :=
  match v with
  | JNull => lit "None"
  | JBool true => lit "True"
  | JBool false => lit "False"
  | JInt z => int_str z
  | JString s => s
  | _ => repr v
  end.

(** [if obj.get(key): st.markdown(f"{before}{obj[key]}{after}")] *)
Definition field (obj : json) (key : string) (before after : str)
  : ui unit :=
  v <- eval (get obj (lit key) JNull) ;;
  if truthy v then
    x <- eval (subscript obj (lit key)) ;;
    markdown (before ++ py_str x ++ after)
  else ret tt.

(** [tags = ""; for x in obj: tags += f'<span class="skill-tag">{x}</span>'] *)
Definition skill_tags (obj : json) : ui str :=
  items <- eval (iter obj) ;;
  ret (fold_left
         (fun tags x =>
            tags ++ uqlit "<span class='skill-tag'>" ++ py_str x
                 ++ lit "</span>")
         items []).

(** [if obj.get(key): st.markdown(title); tags = ...;
     st.markdown(tags, unsafe_allow_html=True)] *)
Definition tag_field (obj : json) (key : string) (title : str) : ui unit :=
  v <- eval (get obj (lit key) JNull) ;;
  if truthy v then
    markdown title ;;;
    x <- eval (subscript obj (lit key)) ;;
    tags <- skill_tags x ;;
    markdown_html tags
  else ret tt.

(** [if obj.get(key): st.markdown(title);
     for x in obj[key]: st.markdown(f"• {x}")] *)
Definition bullet_field (obj : json) (key : string) (title : str)
  : ui unit :=
  v <- eval (get obj (lit key) JNull) ;;
  if truthy v then
    markdown title ;;;
    x <- eval (subscript obj (lit key)) ;;
    items <- eval (iter x) ;;
    for_each items (fun item => markdown (ulit "• " ++ py_str item))
  else ret tt.

Definition display_personal_info (personal_info : json) : ui unit :=
  if negb (truthy personal_info) then ret tt
  else
    markdown_html
      (uqlit "<div class='section-header'>👤 Personal Information</div>") ;;;
    st "columns" [Pos (JInt 3)] ;;;
    within (Column 0)
      (field personal_info "name" (ulit "**👨‍💼 Name:** ") [] ;;;
       field personal_info "email" (ulit "**📧 Email:** ") []) ;;;
    within (Column 1)
      (field personal_info "phone" (ulit "**📱 Phone:** ") [] ;;;
       field personal_info "address" (ulit "**🏠 Address:** ") []) ;;;
    within (Column 2)
      (field personal_info "linkedin"
         (ulit "**💼 LinkedIn:** [Profile](") (lit ")") ;;;
       field personal_info "github"
         (ulit "**💻 GitHub:** [Profile](") (lit ")") ;;;
       field personal_info "portfolio"
         (ulit "**🌐 Portfolio:** [Website](") (lit ")")).

Definition display_summary (summary : json) : ui unit :=
  stripped <- (if truthy summary then eval (strip_method summary)
               else ret summary) ;;
  if truthy stripped then
    markdown_html
      (uqlit "<div class='section-header'>📝 Professional Summary</div>") ;;;
    markdown_html
      (uqlit "<div class='info-box'>" ++ py_str summary ++ lit "</div>")
  else ret tt.

Definition display_experience (experience_list : json) : ui unit :=
  if negb (truthy experience_list) then ret tt
  else
    markdown_html
      (uqlit "<div class='section-header'>💼 Work Experience</div>") ;;;
    items <- eval (iter experience_list) ;;
    for_each (enumerate items)
      (fun '(i, exp) =>
         company <- eval (get exp (lit "company")
                            (JString (lit "Unknown Company"))) ;;
         position <- eval (get exp (lit "position")
                             (JString (lit "Unknown Position"))) ;;
         within
           (Call "expander"
              [Pos (JString (ulit "🏢 " ++ py_str company ++ lit " - "
                             ++ py_str position));
               Kw "expanded" (JBool (i =? 0))])
           (st "columns" [Pos (JArray [JInt 2; JInt 1])] ;;;
            within (Column 0)
              (field exp "position" (lit "**Position:** ") [] ;;;
               field exp "description" (lit "**Description:** ") []) ;;;
            within (Column 1)
              (field exp "duration" (lit "**Duration:** ") [] ;;;
               field exp "location" (lit "**Location:** ") []) ;;;
            tag_field exp "technologies" (lit "**Technologies Used:**"))).

Definition display_education (education_list : json) : ui unit :=
  if negb (truthy education_list) then ret tt
  else
    markdown_html
      (uqlit "<div class='section-header'>🎓 Education</div>") ;;;
    items <- eval (iter education_list) ;;
    for_each items
      (fun edu =>
         institution <- eval (get edu (lit "institution")
                                (JString (lit "Unknown Institution"))) ;;
         within
           (Call "expander"
              [Pos (JString (ulit "🏫 " ++ py_str institution))])
           (st "columns" [Pos (JInt 2)] ;;;
            within (Column 0)
              (field edu "degree" (lit "**Degree:** ") [] ;;;
               field edu "year" (lit "**Graduation Year:** ") []) ;;;
            within (Column 1)
              (field edu "gpa" (lit "**GPA:** ") [] ;;;
               bullet_field edu "coursework"
                 (lit "**Relevant Coursework:**")))).

Definition display_skills (skills : json) : ui unit :=
  if negb (truthy skills) then ret tt
  else
    markdown_html
      (uqlit "<div class='section-header'>🔧 Skills</div>") ;;;
    st "columns" [Pos (JInt 2)] ;;;
    within (Column 0)
      (tag_field skills "technical" (lit "**Technical Skills:**") ;;;
       tag_field skills "programming" (lit "**Programming Languages:**")) ;;;
    within (Column 1)
      (tag_field skills "tools" (lit "**Tools & Technologies:**") ;;;
       tag_field skills "soft_skills" (lit "**Soft Skills:**")).

Definition display_projects (projects_list : json) : ui unit :=
  if negb (truthy projects_list) then ret tt
  else
    markdown_html
      (uqlit "<div class='section-header'>🚀 Projects</div>") ;;;
    items <- eval (iter projects_list) ;;
    for_each items
      (fun project =>
         name <- eval (get project (lit "name")
                         (JString (lit "Unknown Project"))) ;;
         within
           (Call "expander" [Pos (JString (ulit "⚡ " ++ py_str name))])
           (field project "description" (lit "**Description:** ") [] ;;;
            field project "duration" (lit "**Duration:** ") [] ;;;
            field project "achievements" (lit "**Achievements:** ") [] ;;;
            tag_field project "technologies" (lit "**Technologies:**"))).

Definition display_certifications (certifications_list : json) : ui unit :=
  if negb (truthy certifications_list) then ret tt
  else
    markdown_html
      (uqlit "<div class='section-header'>🏆 Certifications</div>") ;;;
    items <- eval (iter certifications_list) ;;
    for_each items
      (fun cert =>
         match cert with
         | JObject _ =>
             name <- eval (get cert (lit "name") (JString (lit "Unknown"))) ;;
             issuer <- eval (get cert (lit "issuer")
                               (JString (lit "Unknown Issuer"))) ;;
             date <- eval (get cert (lit "date")
                             (JString (lit "Date not specified"))) ;;
             markdown (ulit "• **" ++ py_str name ++ lit "** - "
                       ++ py_str issuer ++ lit " (" ++ py_str date
                       ++ lit ")")
         | _ => markdown (ulit "• " ++ py_str cert)
         end).

Definition display_additional_info (additional : json) : ui unit :=
  if negb (truthy additional) then ret tt
  else
    markdown_html
      (uqlit "<div class='section-header'>🌟 Additional Information</div>") ;;;
    st "columns" [Pos (JInt 2)] ;;;
    within (Column 0)
      (bullet_field additional "awards"
         (ulit "**🏆 Awards & Achievements:**") ;;;
       bullet_field additional "publications"
         (ulit "**📚 Publications:**")) ;;;
    within (Column 1)
      (bullet_field additional "volunteer" (ulit "**🤝 Volunteer Work:**") ;;;
       tag_field additional "interests" (ulit "**🎯 Interests:**")).

Definition display_parsed_results (parsed_data : json) : ui unit :=
  failed <- (if negb (truthy parsed_data) then ret true
             else eval (contains (lit "error") parsed_data)) ;;
  if failed then
    st "error" [Pos (JString (ulit "❌ Failed to parse resume data"))] ;;;
    raw <- eval (contains (lit "raw_response") parsed_data) ;;
    if raw then
      within (Call "expander" [Pos (JString (lit "Show AI Response"))])
        (x <- eval (subscript parsed_data (lit "raw_response")) ;;
         st "text" [Pos x])
    else ret tt
  else
    personal_info <- eval (get parsed_data (lit "personal_info") JNull) ;;
    display_personal_info personal_info ;;;
    summary <- eval (get parsed_data (lit "summary") JNull) ;;
    display_summary summary ;;;
    experience <- eval (get parsed_data (lit "experience") JNull) ;;
    display_experience experience ;;;
    education <- eval (get parsed_data (lit "education") JNull) ;;
    display_education education ;;;
    skills <- eval (get parsed_data (lit "skills") JNull) ;;
    display_skills skills ;;;
    projects <- eval (get parsed_data (lit "projects") JNull) ;;
    display_projects projects ;;;
    certifications <- eval (get parsed_data (lit "certifications") JNull) ;;
    display_certifications certifications ;;;
    additional <- eval (get parsed_data (lit "additional") JNull) ;;
    display_additional_info additional.


(** ** The values that the page can display *)

(** The value under a key of a dict; [None] when there is none. *)
Definition member (obj : json) (key : string) : json :=
  match obj with
  | JObject members =>
      match assoc members (lit key) with
      | Some v => v
      | None => JNull
      end
  | _ => JNull
  end.

Definition is_dict (v : json) : bool :=
  match v with
  | JObject _ => true
  | _ => false
  end.

Definition is_text (v : json) : bool :=
  match v with
  | JString _ => true
  | _ => false
  end.

Definition iterable (v : json) : bool :=
  match v with
  | JArray _ | JString _ | JObject _ => true
  | _ => false
  end.

(** Absent, [None], empty or zero; or of the given shape. *)
Definition optional (shape : json -> bool) (v : json) : bool :=
  negb (truthy v) || shape v.

(** A dict in which the values under the given keys can be iterated
    over, where they are present and not empty. *)
Definition dict_with (keys : list string) (v : json) : bool :=
  is_dict v && forallb (fun key => optional iterable (member v key)) keys.

Definition list_of (shape : json -> bool) (v : json) : bool :=
  match v with
  | JArray items => forallb shape items
  | _ => false
  end.

Definition displayable_sections (parsed_data : json) : bool :=
  optional is_dict (member parsed_data "personal_info")
  && optional is_text (member parsed_data "summary")
  && optional (list_of (dict_with ["technologies"%string]))
       (member parsed_data "experience")
  && optional (list_of (dict_with ["coursework"%string]))
       (member parsed_data "education")
  && optional (dict_with ["technical"; "programming"; "tools";
                          "soft_skills"]%string)
       (member parsed_data "skills")
  && optional (list_of (dict_with ["technologies"%string]))
       (member parsed_data "projects")
  && optional iterable (member parsed_data "certifications")
  && optional (dict_with ["awards"; "publications"; "volunteer";
                          "interests"]%string)
       (member parsed_data "additional").

(** What the page shows for a failure: the message, and the raw
    response behind an expander when there is one. *)
Definition failure_view (raw_response : option json) : list act :=
  St "error" [Pos (JString (ulit "❌ Failed to parse resume data"))]
  :: match raw_response with
     | Some x =>
         [Enter (Call "expander" [Pos (JString (lit "Show AI Response"))]);
          St "text" [Pos x]; Exit]
     | None => []
     end.

(** The keys under which the page looks for a section. *)
Definition section_keys : list string :=
  ["personal_info"; "summary"; "experience"; "education"; "skills";
   "projects"; "certifications"; "additional"]%string.

Definition displayable (parsed_data : json) : bool :=
  match parsed_data with
  | JObject members =>
      negb (nonempty members)
      || existsb (fun kv => str_eqb (fst kv) (lit "error")) members
      || displayable_sections parsed_data
  | JArray items =>
      (negb (nonempty items) || existsb (is_str (lit "error")) items)
      && negb (existsb (is_str (lit "raw_response")) items)
  | JString s =>
      (negb (nonempty s) || substring (lit "error") s)
      && negb (substring (lit "raw_response") s)
  | _ => false
  end.

End Display.

End View.

(* ================================================================== *)
(** * The application: the parser object, the buttons, the results *)
(* ================================================================== *)

Module App.
Import PyStr Json Extractor Parser View.
Local Open Scope view_scope.

(** [st.session_state], after [initialize_session_state]. *)
Record SessionState : Type := mkSession {
  parsed_data : json;            (* [None] until a resume was parsed *)
  extracted_text : option str;
  parser : option ResumeParser
}.

(** Whether an action is a call of the model, and of [st.error]. *)
Definition is_generate (a : act) : bool :=
  match a with
  | Generate _ => true
  | _ => false
  end.

Definition is_error_message (a : act) : bool :=
  match a with
  | St fn _ => String.eqb fn "error"
  | _ => false
  end.

Definition is_button (a : act) : bool :=
  match a with
  | St fn _ => String.eqb fn "button"
  | _ => false
  end.

Section Application.
(** The libraries, as in [Extractor]; the model, which [genai] gives;
    and the texts of exceptions that the program only passes on. *)
Variable Page : Type.
Variable PdfReader : bytes -> outcome (list Page).
Variable extract_text : Page -> outcome str.
Variable Document : bytes -> outcome (list str).
Variable configure : str -> outcome unit.
Variable GenerativeModel : str -> outcome (str -> outcome str).
Variable float_is_zero : str -> bool.
Variable repr : json -> str.
Variable float_repr : str -> str.
(** [str(e)] for an exception that the interpreter raised, and for the
    [JSONDecodeError] that [json.loads] raises on a text. *)
Variable builtin_message : exn -> str.
Variable decode_error : str -> str.
(** The limits of the interpreter, as in [Json]. *)
Variable py : Interpreter.

(** [str(e)] *)
Definition exn_str (e : exn) : str :=
  match e with
  | Exception msg => msg
  | ValueError msg => msg
  | _ => builtin_message e
  end.

(** [ResumeParser(api_key)], lines 99-109 *)
Definition init (api_key : str) : ui ResumeParser :=
  if negb (nonempty api_key) then
    throw (ValueError (lit "API key is required"))
  else
    try_except
      (([Genai "configure" [Kw "api_key" (JString api_key)]], Done tt) ;;;
       call (configure api_key) ;;;
       ([Genai "GenerativeModel" [Pos (JString (lit "gemini-1.5-flash"))]],
        Done tt) ;;;
       model <- call (GenerativeModel (lit "gemini-1.5-flash")) ;;
       ret (mkParser api_key model))
      (fun e =>
         throw (ValueError (lit "Failed to initialize Gemini AI: "
                            ++ exn_str e))).

(** [parse_resume_with_ai], lines 284-314, with the calls that draw on
    the page.  An exception of [json.loads] that is no
    [JSONDecodeError] leaves the inner [try] and is handled by the
    outer one, like an exception of the model. *)
Definition parse_resume_with_ai_st (self : ResumeParser) (resume_text : str)
  : ui json :=
  try_except
    (prompt <- call (create_parsing_prompt self resume_text) ;;
     response <-
       within
         (Call "spinner"
            [Pos (JString (ulit "🤖 AI is analyzing your resume..."))])
         (([Generate prompt], Done tt) ;;; call (generate self prompt)) ;;
     let response_text := clean_response response in
     match loads py response_text with
     | Ok parsed_data => ret parsed_data
     | Throw e => throw (Exception (error_text py e))
     | _ =>
         st "error"
           [Pos (JString (lit "Failed to parse AI response as JSON: "
                          ++ decode_error response_text))] ;;;
         st "text_area"
           [Pos (JString (lit "Raw AI Response:"));
            Pos (JString response_text); Kw "height" (JInt 200)] ;;;
         ret (failure_record response_text)
     end)
    (fun e =>
       st "error"
         [Pos (JString (lit "Error during AI parsing: " ++ exn_str e))] ;;;
       ret (error_record (exn_str e))).

(** [create_download_section], lines 572-602; [pressed] tells which
    buttons return [True]. *)
Definition create_download_section (pressed : str -> bool)
  (parsed_data : json) (extracted_text : str) : ui unit :=
  markdown (lit "---") ;;;
  markdown (ulit "### 📥 Download Results") ;;;
  st "columns" [Pos (JInt 3)] ;;;
  within (Column 0)
    (st "button" [Pos (JString (ulit "💾 Download JSON"));
                  Kw "use_container_width" (JBool true)] ;;;
     if pressed (ulit "💾 Download JSON") then
       let json_data := download_json float_repr parsed_data in
       st "download_button"
         [Kw "label" (JString (ulit "📄 Download Parsed Data"));
          Kw "data" (JString json_data);
          Kw "file_name" (JString (lit "parsed_resume.json"));
          Kw "mime" (JString (lit "application/json"));
          Kw "use_container_width" (JBool true)]
     else ret tt) ;;;
  within (Column 1)
    (st "button" [Pos (JString (ulit "📋 Download Text"));
                  Kw "use_container_width" (JBool true)] ;;;
     if pressed (ulit "📋 Download Text") then
       st "download_button"
         [Kw "label" (JString (ulit "📝 Download Extracted Text"));
          Kw "data" (JString extracted_text);
          Kw "file_name" (JString (lit "extracted_text.txt"));
          Kw "mime" (JString (lit "text/plain"));
          Kw "use_container_width" (JBool true)]
     else ret tt) ;;;
  within (Column 2)
    (st "button" [Pos (JString (ulit "🔍 Show Raw JSON"));
                  Kw "use_container_width" (JBool true)] ;;;
     if pressed (ulit "🔍 Show Raw JSON") then
       st "json" [Pos parsed_data]
     else ret tt).

(** The results tab of [main], lines 737-746. *)
Definition results_tab (pressed : str -> bool) (state : SessionState)
  : ui unit :=
  within (Tab 1)
    (if truthy float_is_zero (parsed_data state) then
       markdown (ulit "### 📊 Parsed Resume Data") ;;;
       display_parsed_results float_is_zero repr (parsed_data state) ;;;
       match extracted_text state with
       | Some (c :: text) =>
           create_download_section pressed (parsed_data state) (c :: text)
       | _ => ret tt
       end
     else
       st "info"
         [Pos (JString (ulit "🔄 No data to display yet. Please upload and parse a resume first."))]).

(** ** Computations that also change the session state *)

Definition app (A : Type) : Type :=
  SessionState -> list act * (SessionState * result A).

Definition appret {A} (a : A) : app A := fun state => ([], (state, Done a)).

Definition appbind {A B} (m : app A) (k : A -> app B) : app B :=
  fun state =>
    match m state with
    | (tr, (state', Done a)) =>
        let (tr', r) := k a state' in (tr ++ tr', r)
    | (tr, (state', Raised e)) => (tr, (state', Raised e))
    end.

(** A computation that leaves the state as it is. *)
Definition run {A} (m : ui A) : app A :=
  fun state => (fst m, (state, snd m)).

Definition app_within {A} (b : block) (body : app A) : app A :=
  fun state => let (tr, r) := body state in (Enter b :: tr ++ [Exit], r).

Definition app_try {A} (body : app A) (handler : exn -> app A) : app A :=
  fun state =>
    match body state with
    | (tr, (state', Done a)) => (tr, (state', Done a))
    | (tr, (state', Raised e)) =>
        let (tr', r) := handler e state' in (tr ++ tr', r)
    end.

(** [st.session_state.parser.method]: the attribute of [None] raises. *)
Definition the_parser (method : string) : app ResumeParser :=
  fun state =>
    match parser state with
    | Some p => ([], (state, Done p))
    | None => ([], (state, Raised (AttributeError JNull method)))
    end.

Definition set_extracted_text (text : str) : app unit :=
  fun state =>
    ([], (mkSession (parsed_data state) (Some text) (parser state), Done tt)).

Definition set_parsed_data (v : json) : app unit :=
  fun state =>
    ([], (mkSession v (extracted_text state) (parser state), Done tt)).

(** The extraction as a computation of the page: its events, and
    [Exception(msg)] when it raises. *)
Definition extraction (uploaded_file : UploadedFile) : ui str :=
  let (tr, o) :=
    snd (extract_text_from_file PdfReader extract_text Document
           uploaded_file) in
  (map World tr,
   match o with
   | Returns text => Done text
   | Raises msg => Raised (Exception msg)
   end).

(** [extracted_text[:1000] + "..." if len(extracted_text) > 1000
     else extracted_text] *)
Definition preview (extracted_text : str) : str :=
  if 1000 <? length extracted_text
  then firstn 1000 extracted_text ++ lit "..."
  else extracted_text.

Declare Scope app_scope.
Delimit Scope app_scope with app.
Notation "x <- m ;; k" := (appbind m (fun x => k))
  (at level 61, m at next level, right associativity) : app_scope.
Notation "m ;;; k" := (appbind m (fun _ => k))
  (at level 61, right associativity) : app_scope.
Local Open Scope app_scope.

(** What follows the parsing, lines 696-700 and 725-729. *)
Definition report (parsed_data : json) : app unit :=
  failed <- run (eval (contains (lit "error") parsed_data)) ;;
  if negb failed then
    run (st "success"
           [Pos (JString (ulit "🎉 Resume parsed successfully!"))]) ;;;
    run (st "balloons" [])
  else
    run (st "error" [Pos (JString (ulit "❌ Failed to parse resume"))]).

(** What the handlers show when the parser has returned: the success
    message; the failure message when the value has the key [error]
    (or is a list or a text that contains it); and the message of the
    [TypeError] when the value is neither a dict, a list nor a text. *)
Definition verdict (prefix : str) (parsed : json) : list act :=
  match contains (lit "error") parsed with
  | Done false =>
      [St "success" [Pos (JString (ulit "🎉 Resume parsed successfully!"))];
       St "balloons" []]
  | Done true =>
      [St "error" [Pos (JString (ulit "❌ Failed to parse resume"))]]
  | Raised e => [St "error" [Pos (JString (prefix ++ builtin_message e))]]
  end.

(** The button [Parse Resume] of [main] was pressed, lines 674-704. *)
Definition parse_resume_pressed (uploaded_file : UploadedFile) : app unit :=
  app_try
    (extracted_text <-
       app_within
         (Call "spinner"
            [Pos (JString (ulit "📄 Extracting text from file..."))])
         (self <- the_parser "extract_text_from_file" ;;
          extracted_text <- run (extraction uploaded_file) ;;
          set_extracted_text extracted_text ;;;
          appret extracted_text) ;;
     run (st "success"
            [Pos (JString (ulit "✅ Text extracted successfully!"))]) ;;;
     run (within
            (Call "expander"
               [Pos (JString (ulit "📄 Preview Extracted Text"))])
            (st "text_area"
               [Pos (JString (lit "Extracted Content"));
                Pos (JString (preview extracted_text));
                Kw "height" (JInt 200); Kw "disabled" (JBool true)])) ;;;
     parsed_data <-
       app_within
         (Call "spinner"
            [Pos (JString (ulit "🤖 Parsing resume with AI..."))])
         (self <- the_parser "parse_resume_with_ai" ;;
          parsed_data <- run (parse_resume_with_ai_st self extracted_text) ;;
          set_parsed_data parsed_data ;;;
          appret parsed_data) ;;
     report parsed_data)
    (fun e =>
       run (st "error"
              [Pos (JString (ulit "💥 Error processing file: "
                             ++ exn_str e))])).

(** The button [Parse Text] of [main] was pressed and the text is not
    blank, lines 716-732. *)
Definition parse_text_pressed (resume_text : str) : app unit :=
  app_try
    (set_extracted_text resume_text ;;;
     parsed_data <-
       app_within
         (Call "spinner"
            [Pos (JString (ulit "🤖 Parsing resume with AI..."))])
         (self <- the_parser "parse_resume_with_ai" ;;
          parsed_data <- run (parse_resume_with_ai_st self resume_text) ;;
          set_parsed_data parsed_data ;;;
          appret parsed_data) ;;
     report parsed_data)
    (fun e =>
       run (st "error"
              [Pos (JString (ulit "💥 Error parsing text: "
                             ++ exn_str e))])).

(** The text input of [main], lines 706-735.  [pressed] is what the
    first call of [st.button] returns.  The second call, of line 734,
    has the arguments of the first and no key: [pressed_again] is what
    it does, which is to raise where the library refuses a second
    element with the identity of another one. *)
Definition text_input (resume_text : str) (pressed : bool)
  (pressed_again : result bool) : app unit :=
  run (markdown (ulit "### ✏️ Enter Resume Text")) ;;;
  run (st "text_area"
         [Pos (JString (lit "Paste your resume text here:"));
          Kw "height" (JInt 300);
          Kw "placeholder"
            (JString (lit "Copy and paste your complete resume text here..."));
          Kw "help"
            (JString (lit "Paste the full content of your resume for best results"))]) ;;;
  run (st "button" [Pos (JString (ulit "🚀 Parse Text"));
                    Kw "type" (JString (lit "primary"));
                    Kw "use_container_width" (JBool true)]) ;;;
  if pressed && nonempty (strip resume_text) then
    parse_text_pressed resume_text
  else
    run (st "button" [Pos (JString (ulit "🚀 Parse Text"));
                      Kw "type" (JString (lit "primary"));
                      Kw "use_container_width" (JBool true)]) ;;;
    again <- run (eval pressed_again) ;;
    if again then
      run (st "warning"
             [Pos (JString (ulit "⚠️ Please enter some resume text first!"))])
    else appret tt.

(** The trace of the handler of [Parse Resume] up to the verdict. *)
Definition upload_shown (uploaded_file : UploadedFile)
  (self : ResumeParser) (text : str) : list act :=
  (Enter (Call "spinner"
            [Pos (JString (ulit "📄 Extracting text from file..."))])
   :: map World
        (fst (snd (extract_text_from_file PdfReader extract_text Document
                     uploaded_file)))
   ++ [Exit])
  ++ [St "success"
        [Pos (JString (ulit "✅ Text extracted successfully!"))];
      Enter (Call "expander"
               [Pos (JString (ulit "📄 Preview Extracted Text"))]);
      St "text_area"
        [Pos (JString (lit "Extracted Content"));
         Pos (JString (preview text));
         Kw "height" (JInt 200); Kw "disabled" (JBool true)];
      Exit]
  ++ Enter (Call "spinner"
              [Pos (JString (ulit "🤖 Parsing resume with AI..."))])
     :: fst (parse_resume_with_ai_st self text)
     ++ [Exit].

(** The trace of the handler of [Parse Text] up to the verdict. *)
Definition text_shown (self : ResumeParser) (text : str) : list act :=
  Enter (Call "spinner"
           [Pos (JString (ulit "🤖 Parsing resume with AI..."))])
  :: fst (parse_resume_with_ai_st self text)
  ++ [Exit].

End Application.

End App.

Import PyStr Json Extractor Parser Props.

(* ================================================================== *)
(** * Facts about strings *)
(* ================================================================== *)

Ltac nbool :=
  repeat rewrite ?andb_true_iff, ?orb_true_iff, ?andb_false_iff,
    ?orb_false_iff, ?negb_true_iff, ?negb_false_iff,
    ?N.eqb_eq, ?N.eqb_neq, ?N.leb_le, ?N.leb_gt, ?N.ltb_lt, ?N.ltb_ge in *.

Module PyStrFacts.

Lemma lstrip_spaces (w s : str) :
  forallb isspace w = true -> lstrip (w ++ s) = lstrip s.
Proof.
  induction w as [|c w IH]; simpl; intros H; [reflexivity|].
  apply andb_true_iff in H as [Hc Hw]. rewrite Hc. auto.
Qed.

Lemma lstrip_solid (a : codepoint) (t : str) :
  isspace a = false -> lstrip (a :: t) = a :: t.
Proof. intros H; simpl; now rewrite H. Qed.

Lemma forallb_rev {A} (f : A -> bool) (l : list A) :
  forallb f (rev l) = forallb f l.
Proof.
  induction l as [|x l IH]; simpl; [reflexivity|].
  rewrite forallb_app, IH; simpl. rewrite andb_true_r. apply andb_comm.
Qed.

Lemma rstrip_spaces (w s : str) :
  forallb isspace w = true -> rstrip (s ++ w) = rstrip s.
Proof.
  intros H. unfold rstrip. rewrite rev_app_distr, lstrip_spaces; [reflexivity|].
  now rewrite forallb_rev.
Qed.

Lemma rstrip_solid (b : codepoint) (t : str) :
  isspace b = false -> rstrip (t ++ [b]) = t ++ [b].
Proof.
  intros H. unfold rstrip. rewrite rev_app_distr; simpl.
  rewrite H. simpl. now rewrite rev_involutive.
Qed.

(** Trimming removes exactly the surrounding whitespace of a text
    whose first and last characters are not whitespace. *)
Lemma strip_core (w1 w2 t t' : str) (a b : codepoint) :
  forallb isspace w1 = true -> forallb isspace w2 = true ->
  isspace a = false -> isspace b = false ->
  a :: t = t' ++ [b] ->
  strip (w1 ++ (a :: t) ++ w2) = a :: t.
Proof.
  intros H1 H2 Ha Hb E. unfold strip.
  rewrite lstrip_spaces by assumption.
  change ((a :: t) ++ w2) with (a :: t ++ w2).
  rewrite lstrip_solid by assumption.
  change (a :: t ++ w2) with ((a :: t) ++ w2).
  rewrite rstrip_spaces by assumption.
  rewrite E. now apply rstrip_solid.
Qed.

Lemma startswith_app (p s : str) : startswith (p ++ s) p = true.
Proof.
  induction p as [|a p IH]; simpl; [reflexivity|].
  now rewrite N.eqb_refl.
Qed.

Lemma startswith_cons (a b : codepoint) (s p : str) :
  startswith (a :: s) (b :: p) = true -> a = b.
Proof.
  simpl. intros H. apply andb_true_iff in H as [H _].
  apply N.eqb_eq in H. congruence.
Qed.

Lemma startswith_skipn (s p : str) :
  startswith s p = true -> s = p ++ skipn (length p) s.
Proof.
  revert s; induction p as [|a p IH]; intros s; simpl; [reflexivity|].
  destruct s as [|b s]; [discriminate|].
  intros H. apply andb_true_iff in H as [H1 H2].
  apply N.eqb_eq in H1. subst. f_equal. auto.
Qed.

Lemma endswith_app (s p : str) : endswith (s ++ p) p = true.
Proof. unfold endswith. rewrite rev_app_distr. apply startswith_app. Qed.

Lemma endswith_last (t p : str) (b c : codepoint) :
  endswith (t ++ [b]) (p ++ [c]) = true -> b = c.
Proof.
  unfold endswith. rewrite !rev_app_distr. simpl.
  intros H. apply andb_true_iff in H as [H _].
  apply N.eqb_eq in H. congruence.
Qed.

Lemma slice_drop_last_app (s p : str) :
  slice_drop_last (length p) (s ++ p) = s.
Proof.
  unfold slice_drop_last. rewrite length_app.
  replace (length s + length p - length p) with (length s + 0) by lia.
  rewrite firstn_app_2. simpl. apply app_nil_r.
Qed.

Lemma lower_app (a b : str) : lower (a ++ b) = lower a ++ lower b.
Proof. apply map_app. Qed.

End PyStrFacts.

(* ================================================================== *)
(** * Facts about the decoder *)
(* ================================================================== *)

Ltac norm_lits :=
  repeat match goal with
         | |- context [lit ?s] =>
             let x := eval vm_compute in (lit s) in change (lit s) with x
         | H : context [lit ?s] |- _ =>
             let x := eval vm_compute in (lit s) in change (lit s) with x in H
         end.

Module DecoderFacts.

Lemma suffix_refl (s : str) : suffix s s.
Proof. now exists []. Qed.

Lemma suffix_cons (a : codepoint) (s r : str) : suffix s r -> suffix (a :: s) r.
Proof. intros [c ->]. now exists (a :: c). Qed.

Lemma suffix_trans (s r t : str) : suffix s r -> suffix r t -> suffix s t.
Proof. intros [c ->] [d ->]. exists (c ++ d). now rewrite <- app_assoc. Qed.

Lemma suffix_length (s r : str) : suffix s r -> length r <= length s.
Proof. intros [c ->]. rewrite length_app. lia. Qed.

Lemma closes_suffix (s r : str) (b : codepoint) : closes s r b -> suffix s r.
Proof. intros [c ->]. exists (c ++ [b]). now rewrite <- app_assoc. Qed.

Lemma closes_length (s r : str) (b : codepoint) :
  closes s r b -> length r < length s.
Proof. intros [c ->]. rewrite length_app. simpl. lia. Qed.

Lemma closes_here (b : codepoint) (r : str) : closes (b :: r) r b.
Proof. now exists []. Qed.

Lemma closes_cons (a b : codepoint) (s r : str) :
  closes s r b -> closes (a :: s) r b.
Proof. intros [c ->]. now exists (a :: c). Qed.

Lemma closes_after (s s' r : str) (b : codepoint) :
  suffix s s' -> closes s' r b -> closes s r b.
Proof. intros [c ->] [d ->]. exists (c ++ d). now rewrite <- app_assoc. Qed.

Lemma skip_ws_split (s : str) :
  exists w, s = w ++ skip_ws s /\ forallb is_ws w = true.
Proof.
  induction s as [|c s [w [E Hw]]]; [now exists []|].
  simpl. destruct (is_ws c) eqn:Hc.
  - exists (c :: w). simpl. rewrite Hc, Hw. split; [congruence|reflexivity].
  - now exists [].
Qed.

Lemma suffix_skip_ws (s : str) : suffix s (skip_ws s).
Proof. destruct (skip_ws_split s) as [w [E _]]. now exists w. Qed.

Lemma skip_ws_length (s : str) : length (skip_ws s) <= length s.
Proof. apply suffix_length, suffix_skip_ws. Qed.

Lemma is_ws_isspace (c : codepoint) : is_ws c = true -> isspace c = true.
Proof.
  intros H.
  assert (E : (c = 32 \/ c = 9 \/ c = 10 \/ c = 13)%N)
    by (unfold is_ws in H; nbool; tauto).
  destruct E as [->|[->|[->| ->]]]; reflexivity.
Qed.

Lemma ws_spaces (w : str) : forallb is_ws w = true -> forallb isspace w = true.
Proof.
  induction w as [|c w IH]; simpl; [reflexivity|].
  intros H. apply andb_true_iff in H as [Hc Hw].
  now rewrite (is_ws_isspace _ Hc), IH.
Qed.

Lemma is_digit_edge (c : codepoint) : is_digit c = true -> edge c.
Proof.
  unfold is_digit, edge, isspace. intros H. nbool. split; [|lia].
  repeat (apply orb_false_iff; split); nbool; lia.
Qed.

Lemma startswith_closes (s p : str) (b : codepoint) :
  startswith s (p ++ [b]) = true ->
  closes s (skipn (length (p ++ [b])) s) b.
Proof.
  intros H. apply PyStrFacts.startswith_skipn in H.
  exists p. rewrite <- app_assoc in H. exact H.
Qed.

(** ** Strings *)

Ltac crunch H :=
  repeat match type of H with
         | context [if ?b then _ else _] => destruct b eqn:?
         | context [match ?x with _ => _ end] => destruct x eqn:?
         end; try discriminate H.

Lemma scanstring_closes_aux (n : nat) :
  forall s acc x r,
    length s <= n -> scanstring s acc = Ok (x, r) -> closes s r 34%N.
Proof.
  induction n as [|n IH]; intros s acc x r Hlen H.
  - destruct s; [discriminate H|simpl in Hlen; lia].
  - destruct s as [|c t]; [discriminate H|].
    simpl in H. crunch H; subst; simpl in Hlen;
      try (injection H as <- <-; nbool; subst; apply closes_here);
      (apply IH in H; [|simpl; lia]);
      repeat (first [exact H | apply closes_cons]).
Qed.

Lemma scanstring_closes (s acc x r : str) :
  scanstring s acc = Ok (x, r) -> closes s r 34%N.
Proof. now apply scanstring_closes_aux with (n := length s). Qed.

Lemma scanstring_fuel_aux (n : nat) :
  forall s acc, length s <= n -> scanstring s acc <> Fuel.
Proof.
  induction n as [|n IH]; intros s acc Hlen H.
  - destruct s; [discriminate H|simpl in Hlen; lia].
  - destruct s as [|c t]; [discriminate H|].
    simpl in H. crunch H; subst; simpl in Hlen;
      (eapply IH; [|eassumption]; simpl; lia).
Qed.

Lemma scanstring_fuel (s acc : str) : scanstring s acc <> Fuel.
Proof. now apply scanstring_fuel_aux with (n := length s). Qed.

(** ** Numbers *)

Lemma span_digits_spec (s ds r : str) :
  span_digits s = (ds, r) -> s = ds ++ r /\ forallb is_digit ds = true.
Proof.
  revert ds r; induction s as [|c s IH]; simpl; intros ds r H.
  - injection H as <- <-. now split.
  - destruct (is_digit c) eqn:Hc.
    + destruct (span_digits s) as [ds' r'] eqn:E.
      injection H as <- <-. destruct (IH _ _ eq_refl) as [-> Hd].
      simpl. now rewrite Hc, Hd.
    + injection H as <- <-. now split.
Qed.

Lemma digits_close (ds r : str) (c : codepoint) :
  forallb is_digit (c :: ds) = true ->
  exists b, closes ((c :: ds) ++ r) r b /\ is_digit b = true.
Proof.
  intros H.
  destruct (@exists_last _ (c :: ds)) as [l [b E]]; [discriminate|].
  rewrite E in *. exists b. split.
  - exists l. now rewrite <- app_assoc.
  - rewrite forallb_app in H. simpl in H. nbool. tauto.
Qed.

Lemma match_integer_closes (s i r : str) :
  match_integer s = Some (i, r) ->
  exists b, closes s r b /\ is_digit b = true.
Proof.
  unfold match_integer. intros H.
  assert (G : forall s1, 
    match s1 with
    | [] => None
    | c :: t =>
        if (c =? 48)%N then Some (@nil codepoint, t)
        else if is_digit c then
          let (ds, r) := span_digits t in Some (@nil codepoint, r)
        else None
    end = Some ([], r) ->
    exists b, closes s1 r b /\ is_digit b = true).
  { intros [|c t] G; [discriminate|].
    destruct (N.eqb_spec c 48).
    - injection G as <-. subst. exists 48%N. split; [apply closes_here|reflexivity].
    - destruct (is_digit c) eqn:Hc; [|discriminate].
      destruct (span_digits t) as [ds r'] eqn:E. injection G as <-.
      destruct (span_digits_spec _ E) as [-> Hd].
      apply (@digits_close ds r' c). simpl. now rewrite Hc. }
  destruct s as [|c t]; [discriminate|].
  destruct (N.eqb_spec c 45).
  - destruct (G t) as [b [Hb Hd]].
    + destruct t as [|c' t']; [discriminate|].
      destruct (c' =? 48)%N; [now inversion H|].
      destruct (is_digit c'); [|discriminate].
      destruct (span_digits t'). now inversion H.
    + exists b. split; [now apply closes_cons|assumption].
  - apply G.
    destruct (c =? 48)%N; [now inversion H|].
    destruct (is_digit c); [|discriminate].
    destruct (span_digits t). now inversion H.
Qed.

Lemma match_frac_closes (s f r : str) :
  match_frac s = (f, r) ->
  (f = [] /\ r = s) \/ (exists b, closes s r b /\ is_digit b = true).
Proof.
  unfold match_frac. intros H.
  destruct s as [|c t]; [injection H as <- <-; now left|].
  destruct (c =? 46)%N; [|injection H as <- <-; now left].
  destruct (span_digits t) as [ds r'] eqn:E.
  destruct ds as [|d ds]; [injection H as <- <-; now left|].
  injection H as <- <-. right.
  destruct (span_digits_spec _ E) as [-> Hd].
  destruct (@digits_close ds r' d Hd) as [b [Hb Hb']].
  exists b. split; [now apply closes_cons|assumption].
Qed.

Lemma match_exp_closes (s e r : str) :
  match_exp s = (e, r) ->
  (e = [] /\ r = s) \/ (exists b, closes s r b /\ is_digit b = true).
Proof.
  unfold match_exp. intros H.
  destruct s as [|c t]; [injection H as <- <-; now left|].
  destruct ((c =? 101) || (c =? 69))%N; [|injection H as <- <-; now left].
  destruct (match t with
            | [] => ([], t)
            | d :: t' =>
                if ((d =? 45) || (d =? 43))%N then ([d], t') else ([], t)
            end) as [sign t1] eqn:Es.
  assert (Hs : suffix t t1).
  { destruct t as [|d t']; [injection Es as <- <-; apply suffix_refl|].
    destruct ((d =? 45) || (d =? 43))%N; injection Es as <- <-;
      [apply suffix_cons|]; apply suffix_refl. }
  destruct (span_digits t1) as [ds r'] eqn:E.
  destruct ds as [|d ds]; [injection H as <- <-; now left|].
  injection H as <- <-. right.
  destruct (span_digits_spec _ E) as [-> Hd].
  destruct (@digits_close ds r' d Hd) as [b [Hb Hb']].
  exists b. split; [|assumption].
  apply closes_cons. eapply closes_after; eassumption.
Qed.

Lemma match_number_closes (s i f e r : str) :
  match_number s = Some (i, f, e, r) ->
  exists b, closes s r b /\ is_digit b = true.
Proof.
  unfold match_number. intros H.
  destruct (match_integer s) as [[i' r1]|] eqn:Ei; [|discriminate].
  destruct (match_frac r1) as [f' r2] eqn:Ef.
  destruct (match_exp r2) as [e' r3] eqn:Ee.
  injection H as <- <- <- <-.
  destruct (match_integer_closes _ Ei) as [b1 [C1 D1]].
  destruct (match_frac_closes _ Ef) as [[_ ->]|[b2 [C2 D2]]];
    destruct (match_exp_closes _ Ee) as [[_ ->]|[b3 [C3 D3]]].
  - now exists b1.
  - exists b3. split; [|assumption].
    eapply closes_after; [eapply closes_suffix|]; eassumption.
  - exists b2. split; [|assumption].
    eapply closes_after; [eapply closes_suffix|]; eassumption.
  - exists b3. split; [|assumption].
    eapply closes_after; [|eassumption].
    eapply suffix_trans; eapply closes_suffix; eassumption.
Qed.

(** ** Arrays and objects *)

Lemma suffix_after_ws (s r0 r1 : str) (c : codepoint) :
  suffix s r0 -> skip_ws r0 = c :: r1 -> suffix s (c :: r1) /\ suffix s r1.
Proof.
  intros Hs E. pose proof (suffix_skip_ws r0) as Hw. rewrite E in Hw.
  assert (suffix s (c :: r1)) by (eapply suffix_trans; eassumption).
  split; [assumption|].
  eapply suffix_trans; [eassumption|]. apply suffix_cons, suffix_refl.
Qed.

Lemma skip_ws_step_length (r0 r1 : str) (c : codepoint) :
  skip_ws r0 = c :: r1 -> length r1 < length r0.
Proof.
  intros E. pose proof (skip_ws_length r0) as H. rewrite E in H.
  simpl in H. lia.
Qed.

Section Loops.
Variable scan : str -> res (json * str).
Hypothesis scan_progress :
  forall s v r, scan s = Ok (v, r) -> exists b, closes s r b.

Lemma JSONArray_loop_closes (k : nat) :
  forall s vals v r,
    JSONArray_loop scan k s vals = Ok (v, r) -> closes s r 93%N.
Proof.
  induction k as [|k IH]; intros s vals v r H; [discriminate|].
  simpl in H.
  destruct (scan s) as [[value r0]| | |] eqn:Es; simpl in H; try discriminate.
  destruct (scan_progress Es) as [b Hb]. apply closes_suffix in Hb.
  destruct (skip_ws r0) as [|c r1] eqn:Ew; [discriminate|].
  destruct (suffix_after_ws Hb Ew) as [S1 S2].
  destruct (N.eqb_spec c 93).
  - injection H as <- <-. subst c.
    eapply closes_after; [exact S1|apply closes_here].
  - destruct (c =? 44)%N; [|discriminate].
    apply IH in H. eapply closes_after; [|exact H].
    eapply suffix_trans; [exact S2|apply suffix_skip_ws].
Qed.

Lemma JSONArray_closes (s : str) (v : json) (r : str) :
  JSONArray scan s = Ok (v, r) -> closes s r 93%N.
Proof.
  unfold JSONArray. intros H.
  destruct (skip_ws s) as [|c r1] eqn:Ew; [discriminate|].
  destruct (suffix_after_ws (suffix_refl s) Ew) as [S1 S2].
  destruct (N.eqb_spec c 93).
  - injection H as <- <-. subst c.
    eapply closes_after; [exact S1|apply closes_here].
  - apply JSONArray_loop_closes in H.
    eapply closes_after; [exact S1|exact H].
Qed.

Lemma JSONObject_loop_closes (k : nat) :
  forall s pairs v r,
    JSONObject_loop scan k s pairs = Ok (v, r) -> closes s r 125%N.
Proof.
  induction k as [|k IH]; intros s pairs v r H; [discriminate|].
  simpl in H.
  destruct (scanstring s []) as [[key r0]| | |] eqn:Ek; simpl in H;
    try discriminate.
  apply scanstring_closes, closes_suffix in Ek.
  destruct (skip_ws r0) as [|c r1] eqn:Ew; [discriminate|].
  destruct (suffix_after_ws Ek Ew) as [_ S1].
  destruct (c =? 58)%N; [|discriminate].
  destruct (scan (skip_ws r1)) as [[value r2]| | |] eqn:Es; simpl in H;
    try discriminate.
  destruct (scan_progress Es) as [b Hb]. apply closes_suffix in Hb.
  assert (S2 : suffix s r2).
  { eapply suffix_trans; [exact S1|].
    eapply suffix_trans; [apply suffix_skip_ws|exact Hb]. }
  destruct (skip_ws r2) as [|d r3] eqn:Ew2; [discriminate|].
  destruct (suffix_after_ws S2 Ew2) as [S3 S4].
  destruct (N.eqb_spec d 125).
  - injection H as <- <-. subst d.
    eapply closes_after; [exact S3|apply closes_here].
  - destruct (d =? 44)%N; [|discriminate].
    destruct (skip_ws r3) as [|q r4] eqn:Ew3; [discriminate|].
    destruct (suffix_after_ws S4 Ew3) as [_ S5].
    destruct (q =? 34)%N; [|discriminate].
    apply IH in H. eapply closes_after; [exact S5|exact H].
Qed.

Lemma JSONObject_closes (s : str) (v : json) (r : str) :
  JSONObject scan s = Ok (v, r) -> closes s r 125%N.
Proof.
  unfold JSONObject. intros H.
  destruct (skip_ws s) as [|c r1] eqn:Ew; [discriminate|].
  destruct (suffix_after_ws (suffix_refl s) Ew) as [S1 S2].
  destruct (N.eqb_spec c 125).
  - injection H as <- <-. subst c.
    eapply closes_after; [exact S1|apply closes_here].
  - destruct (c =? 34)%N; [|discriminate].
    apply JSONObject_loop_closes in H.
    eapply closes_after; [exact S2|exact H].
Qed.

Variable bound : nat.
Hypothesis scan_fuel : forall s, length s < bound -> scan s <> Fuel.

Lemma JSONArray_loop_fuel (k : nat) :
  forall s vals,
    length s < k -> length s < bound ->
    JSONArray_loop scan k s vals <> Fuel.
Proof.
  induction k as [|k IH]; intros s vals Hk Hb; [lia|].
  simpl.
  destruct (scan s) as [[value r0]| | |] eqn:Es; simpl;
    [|discriminate|now apply scan_fuel in Es|discriminate].
  destruct (scan_progress Es) as [b Hc]. apply closes_length in Hc.
  destruct (skip_ws r0) as [|c r1] eqn:Ew; [discriminate|].
  apply skip_ws_step_length in Ew.
  destruct (c =? 93)%N; [discriminate|].
  destruct (c =? 44)%N; [|discriminate].
  pose proof (skip_ws_length r1).
  apply IH; lia.
Qed.

Lemma JSONArray_fuel (s : str) :
  length s < bound -> JSONArray scan s <> Fuel.
Proof.
  intros Hb. unfold JSONArray.
  destruct (skip_ws s) as [|c r1] eqn:Ew; [discriminate|].
  destruct (c =? 93)%N; [discriminate|].
  rewrite <- Ew. pose proof (skip_ws_length s).
  apply JSONArray_loop_fuel; lia.
Qed.

Lemma JSONObject_loop_fuel (k : nat) :
  forall s pairs,
    length s < k -> length s < bound ->
    JSONObject_loop scan k s pairs <> Fuel.
Proof.
  induction k as [|k IH]; intros s pairs Hk Hb; [lia|].
  simpl.
  destruct (scanstring s []) as [[key r0]| | |] eqn:Ek; simpl;
    [|discriminate|now apply scanstring_fuel in Ek|discriminate].
  apply scanstring_closes, closes_length in Ek.
  destruct (skip_ws r0) as [|c r1] eqn:Ew; [discriminate|].
  apply skip_ws_step_length in Ew.
  destruct (c =? 58)%N; [|discriminate].
  pose proof (skip_ws_length r1).
  destruct (scan (skip_ws r1)) as [[value r2]| | |] eqn:Es; simpl;
    [|discriminate|apply scan_fuel in Es; [destruct Es|lia]|discriminate].
  destruct (scan_progress Es) as [b Hc]. apply closes_length in Hc.
  destruct (skip_ws r2) as [|d r3] eqn:Ew2; [discriminate|].
  apply skip_ws_step_length in Ew2.
  destruct (d =? 125)%N; [discriminate|].
  destruct (d =? 44)%N; [|discriminate].
  destruct (skip_ws r3) as [|q r4] eqn:Ew3; [discriminate|].
  apply skip_ws_step_length in Ew3.
  destruct (q =? 34)%N; [|discriminate].
  apply IH; lia.
Qed.

Lemma JSONObject_fuel (s : str) :
  length s < bound -> JSONObject scan s <> Fuel.
Proof.
  intros Hb. unfold JSONObject.
  destruct (skip_ws s) as [|c r1] eqn:Ew; [discriminate|].
  apply skip_ws_step_length in Ew.
  destruct (c =? 125)%N; [discriminate|].
  destruct (c =? 34)%N; [|discriminate].
  apply JSONObject_loop_fuel; lia.
Qed.
End Loops.

(** ** The scanner *)

Lemma edge_const (c : codepoint) :
  isspace c = false -> (c =? 96)%N = false -> edge c.
Proof. intros H1 H2. split; [assumption|now apply N.eqb_neq]. Qed.

(** A value that was scanned ends with a character that is neither
    whitespace nor a backtick, and something was consumed. *)
Ltac top_if H E :=
  match type of H with
  | (if ?b then _ else _) = _ => destruct b eqn:E
  end.

Lemma scan_once_closes (m n : nat) :
  forall s v r,
    scan_once m n s = Ok (v, r) -> exists b, closes s r b /\ edge b.
Proof.
  induction n as [|n IH]; intros s v r H; [discriminate|].
  assert (P : forall s v r, scan_once m n s = Ok (v, r) ->
                            exists b, closes s r b).
  { intros s0 v0 r0 H0. destruct (IH _ _ _ H0) as [b [Hb _]]. now exists b. }
  destruct s as [|c t]; [discriminate|].
  cbn [scan_once] in H. norm_lits.
  destruct (N.eqb_spec c 34).
  { destruct (scanstring t []) as [[x r0]| | |] eqn:Es; simpl in H;
      try discriminate.
    injection H as <- <-. exists 34%N. split; [|now apply edge_const].
    apply closes_cons. eapply scanstring_closes; eassumption. }
  cbv iota in H.
  destruct (N.eqb_spec c 123).
  { apply (@JSONObject_closes _ P) in H.
    exists 125%N. split; [now apply closes_cons|now apply edge_const]. }
  cbv iota in H.
  destruct (N.eqb_spec c 91).
  { apply (@JSONArray_closes _ P) in H.
    exists 93%N. split; [now apply closes_cons|now apply edge_const]. }
  cbv iota in H.
  top_if H E1.
  { injection H as <- <-. exists 108%N. split; [|now apply edge_const].
    apply (startswith_closes (c :: t) [110; 117; 108]%N 108%N E1). }
  top_if H E2.
  { injection H as <- <-. exists 101%N. split; [|now apply edge_const].
    apply (startswith_closes (c :: t) [116; 114; 117]%N 101%N E2). }
  top_if H E3.
  { injection H as <- <-. exists 101%N. split; [|now apply edge_const].
    apply (startswith_closes (c :: t) [102; 97; 108; 115]%N 101%N E3). }
  destruct (match_number (c :: t)) as [[[[i f] e] r']|] eqn:En.
  { destruct (match_number_closes _ En) as [b [Hb Hd]].
    exists b. split; [|now apply is_digit_edge].
    destruct f, e; [destruct (int_of_str m i); [|discriminate]|..];
      injection H as <- <-; exact Hb. }
  top_if H E4.
  { injection H as <- <-. exists 78%N. split; [|now apply edge_const].
    apply (startswith_closes (c :: t) [78; 97]%N 78%N E4). }
  top_if H E5.
  { injection H as <- <-. exists 121%N. split; [|now apply edge_const].
    apply (startswith_closes (c :: t)
             [73; 110; 102; 105; 110; 105; 116]%N 121%N E5). }
  top_if H E6;
    [|discriminate].
  injection H as <- <-. exists 121%N. split; [|now apply edge_const].
  apply (startswith_closes (c :: t)
           [45; 73; 110; 102; 105; 110; 105; 116]%N 121%N E6).
Qed.

Lemma match_integer_head (a : codepoint) (t i r : str) :
  match_integer (a :: t) = Some (i, r) -> a = 45%N \/ is_digit a = true.
Proof.
  unfold match_integer. intros H.
  destruct (N.eqb_spec a 45); [now left|]. right.
  destruct (N.eqb_spec a 48); [now subst|].
  destruct (is_digit a); [reflexivity|discriminate].
Qed.

(** A value that was scanned starts with such a character too. *)
Lemma scan_once_head (m n : nat) (a : codepoint) (t : str) (v : json)
  (r : str) :
  scan_once m n (a :: t) = Ok (v, r) -> edge a.
Proof.
  destruct n as [|n]; [discriminate|]. intros H.
  cbn [scan_once] in H. norm_lits.
  destruct (N.eqb_spec a 34); [subst; now apply edge_const|].
  cbv iota in H.
  destruct (N.eqb_spec a 123); [subst; now apply edge_const|].
  cbv iota in H.
  destruct (N.eqb_spec a 91); [subst; now apply edge_const|].
  cbv iota in H.
  top_if H E1;
    [apply PyStrFacts.startswith_cons in E1; subst; now apply edge_const|].
  top_if H E2;
    [apply PyStrFacts.startswith_cons in E2; subst; now apply edge_const|].
  top_if H E3;
    [apply PyStrFacts.startswith_cons in E3; subst; now apply edge_const|].
  destruct (match_number (a :: t)) as [[[[i f] e] r']|] eqn:En.
  { unfold match_number in En.
    destruct (match_integer (a :: t)) as [[i' r1]|] eqn:Ei; [|discriminate].
    destruct (match_integer_head _ _ Ei) as [->|Hd];
      [now apply edge_const|now apply is_digit_edge]. }
  top_if H E4;
    [apply PyStrFacts.startswith_cons in E4; subst; now apply edge_const|].
  top_if H E5;
    [apply PyStrFacts.startswith_cons in E5; subst; now apply edge_const|].
  top_if H E6;
    [apply PyStrFacts.startswith_cons in E6; subst; now apply edge_const
    |discriminate].
Qed.

(** The bound of the loops of the model is never reached. *)
Lemma scan_once_fuel (m n : nat) :
  forall s, scan_once m n s <> Fuel.
Proof.
  induction n as [|n IH]; intros s; [discriminate|].
  assert (P : forall s v r, scan_once m n s = Ok (v, r) ->
                            exists b, closes s r b).
  { intros s0 v0 r0 H0.
    apply scan_once_closes in H0. destruct H0 as [b [Hb _]]. now exists b. }
  destruct s as [|c t]; [discriminate|].
  cbn [scan_once]. norm_lits.
  destruct (c =? 34)%N.
  { destruct (scanstring t []) as [[x r0]| | |] eqn:Es; simpl;
      [discriminate|discriminate|now apply scanstring_fuel in Es
      |discriminate]. }
  cbv iota.
  destruct (c =? 123)%N.
  { apply (@JSONObject_fuel _ P (S (length t)) (fun s0 _ => IH s0)). lia. }
  cbv iota.
  destruct (c =? 91)%N.
  { apply (@JSONArray_fuel _ P (S (length t)) (fun s0 _ => IH s0)). lia. }
  cbv iota.
  repeat match goal with
         | |- (if ?b then _ else _) <> _ => destruct b; [discriminate|]
         end.
  destruct (match_number (c :: t)) as [[[[i f] e] r']|].
  { destruct f, e; try destruct (int_of_str m i); discriminate. }
  repeat match goal with
         | |- (if ?b then _ else _) <> _ => destruct b; [discriminate|]
         end.
  discriminate.
Qed.

(** [json.loads] always returns or raises. *)
Lemma loads_total (py : Interpreter) (s : str) : loads py s <> Fuel.
Proof.
  unfold loads, decode.
  destruct (startswith s [65279%N]); [discriminate|].
  destruct (scan_once (max_str_digits py) (S (recursion_depth py))
              (skip_ws s)) as [[obj r]| | |] eqn:E; simpl.
  - destruct (skip_ws r); discriminate.
  - discriminate.
  - now apply scan_once_fuel in E.
  - discriminate.
Qed.

(** A text that [json.loads] accepts is a core that starts and ends
    with characters that are neither whitespace nor backticks, between
    two runs of JSON whitespace. *)
Lemma loads_shape (py : Interpreter) (s : str) (v : json) :
  loads py s = Ok v ->
  exists w1 w2 a t t' b,
    s = w1 ++ (a :: t) ++ w2 /\ a :: t = t' ++ [b] /\
    forallb is_ws w1 = true /\ forallb is_ws w2 = true /\
    edge a /\ edge b.
Proof.
  unfold loads, decode. intros H.
  destruct (startswith s [65279%N]) eqn:Eb; [discriminate|].
  destruct (scan_once (max_str_digits py) (S (recursion_depth py))
              (skip_ws s)) as [[obj r]| | |] eqn:E;
    simpl in H; try discriminate.
  destruct (skip_ws r) eqn:Er; [|discriminate]. injection H as ->.
  destruct (skip_ws_split s) as [w1 [E1 H1]].
  destruct (skip_ws_split r) as [w2 [E2 H2]]. rewrite Er in E2.
  rewrite List.app_nil_r in E2. subst w2.
  pose proof E as Hcl. apply scan_once_closes in Hcl.
  destruct Hcl as [b [[c Hc] Hb]].
  destruct (skip_ws s) as [|a t0] eqn:Es;
    [destruct c; discriminate Hc|].
  pose proof E as Ha. apply scan_once_head in Ha.
  assert (Hcore : exists t, a :: t = c ++ [b] /\ a :: t0 = (a :: t) ++ r).
  { destruct c as [|a' c'].
    - injection Hc as -> ->. exists []. split; reflexivity.
    - injection Hc as <- ->. exists (c' ++ [b]). split; [reflexivity|].
      simpl. now rewrite <- app_assoc. }
  destruct Hcore as [t [Ht Hs]].
  exists w1, r, a, t, c, b. repeat split; try assumption.
  - rewrite E1 at 1. now rewrite Hs.
  - apply Ha.
  - apply Ha.
  - apply Hb.
  - apply Hb.
Qed.

End DecoderFacts.

(* ================================================================== *)
(** * Facts about the clean-up of the model's answer *)
(* ================================================================== *)

Module NormalizerFacts.
Import PyStrFacts DecoderFacts.

Lemma startswith_head_neq (a b : codepoint) (t p : str) :
  a <> b -> startswith (a :: t) (b :: p) = false.
Proof.
  intros H. simpl. apply andb_false_iff. left.
  apply N.eqb_neq. congruence.
Qed.

Lemma endswith_last_neq (t p : str) (b c : codepoint) :
  b <> c -> endswith (t ++ [b]) (p ++ [c]) = false.
Proof.
  intros H. destruct (endswith (t ++ [b]) (p ++ [c])) eqn:E; [|reflexivity].
  apply endswith_last in E. contradiction.
Qed.

Lemma strip_solid (t t' : str) (a b : codepoint) :
  isspace a = false -> isspace b = false -> a :: t = t' ++ [b] ->
  strip (a :: t) = a :: t.
Proof.
  intros Ha Hb E.
  pose proof (@strip_core [] [] t t' a b eq_refl eq_refl Ha Hb E) as H.
  simpl in H. rewrite List.app_nil_r in H. exact H.
Qed.

(** The clean-up of a text made of a core between whitespace, when
    the core neither starts nor ends with whitespace or a backtick, is
    the core. *)
Lemma clean_core (w1 w2 t t' : str) (a b : codepoint) :
  forallb isspace w1 = true -> forallb isspace w2 = true ->
  edge a -> edge b -> a :: t = t' ++ [b] ->
  clean_response (w1 ++ (a :: t) ++ w2) = a :: t.
Proof.
  intros H1 H2 [Ha Ha'] [Hb Hb'] E. unfold clean_response.
  rewrite (@strip_core w1 w2 t t' a b H1 H2 Ha Hb E). norm_lits.
  repeat match goal with
         | |- context [startswith ?x ?p] =>
             replace (startswith x p) with false
               by (symmetry; apply startswith_head_neq; exact Ha')
         end.
  cbv iota. rewrite E at 1 2.
  repeat match goal with
         | |- context [endswith ?x ?p] =>
             replace (endswith x p) with false
               by (symmetry; apply (@endswith_last_neq t' [96; 96]%N b 96%N);
                   exact Hb')
         end.
  cbv iota. rewrite <- E.
  apply (@strip_solid t t' a b Ha Hb E).
Qed.

(** The same text inside a fence tagged [json] cleans up to the same
    core. *)
Lemma clean_fenced_core (w1 w2 t t' : str) (a b : codepoint) :
  forallb isspace w1 = true -> forallb isspace w2 = true ->
  edge a -> edge b -> a :: t = t' ++ [b] ->
  clean_response (fenced (w1 ++ (a :: t) ++ w2)) = a :: t.
Proof.
  intros H1 H2 [Ha Ha'] [Hb Hb'] E. unfold clean_response, fenced.
  norm_lits.
  set (x := w1 ++ (a :: t) ++ w2).
  set (body := [10%N] ++ x ++ [10%N]).
  assert (S1 : strip ([96; 96; 96; 106; 115; 111; 110]%N ++ [10%N] ++ x
                      ++ [10%N] ++ [96; 96; 96]%N)
               = [96; 96; 96; 106; 115; 111; 110]%N ++ body ++ [96; 96; 96]%N).
  { unfold body. rewrite <- !app_assoc.
    apply (@strip_solid
             ([96; 96; 106; 115; 111; 110]%N ++ [10%N] ++ x
              ++ [10%N] ++ [96; 96; 96]%N)
             ([96; 96; 96; 106; 115; 111; 110]%N ++ [10%N] ++ x
              ++ [10%N] ++ [96; 96]%N)
             96%N 96%N eq_refl eq_refl).
    simpl. rewrite <- !app_assoc. reflexivity. }
  rewrite S1. rewrite startswith_app.
  unfold slice_from.
  change (skipn 7 ([96; 96; 96; 106; 115; 111; 110]%N ++ body
                   ++ [96; 96; 96]%N)) with (body ++ [96; 96; 96]%N).
  rewrite endswith_app.
  change 3 with (length [96; 96; 96]%N).
  rewrite (slice_drop_last_app body [96; 96; 96]%N).
  unfold body, x.
  replace ([10%N] ++ (w1 ++ (a :: t) ++ w2) ++ [10%N])
    with ((10%N :: w1) ++ (a :: t) ++ (w2 ++ [10%N]))
    by (simpl; rewrite <- !app_assoc; simpl; rewrite <- ?app_assoc;
        reflexivity).
  apply strip_core with (t' := t') (b := b); try assumption.
  rewrite forallb_app, H2. reflexivity.
Qed.

Lemma lstrip_keeps (x u : str) (c : codepoint) :
  isspace c = false -> exists x', lstrip (x ++ c :: u) = x' ++ c :: u.
Proof.
  intros Hc. induction x as [|d x [x' IH]]; simpl.
  - rewrite Hc. now exists [].
  - destruct (isspace d); [now exists x'|now exists (d :: x)].
Qed.

Lemma rstrip_keeps (p y : str) (c : codepoint) :
  isspace c = false -> exists z, rstrip ((p ++ [c]) ++ y) = (p ++ [c]) ++ z.
Proof.
  intros Hc. unfold rstrip. rewrite !rev_app_distr. simpl.
  destruct (@lstrip_keeps (rev y) (rev p) c Hc) as [x' E].
  rewrite E.
  exists (rev x'). rewrite rev_app_distr. simpl.
  now rewrite rev_involutive.
Qed.

(** What the clean-up leaves of an answer in a bare fence: the opening
    fence stays. *)
Lemma clean_bare_fenced (j : str) :
  exists z, clean_response (bare_fenced j) = [96; 96; 96]%N ++ z.
Proof.
  unfold clean_response, bare_fenced. norm_lits.
  set (body := [96; 96; 96]%N ++ [10%N] ++ j ++ [10%N]).
  assert (S1 : strip ([96; 96; 96]%N ++ [10%N] ++ j ++ [10%N]
                      ++ [96; 96; 96]%N) = body ++ [96; 96; 96]%N).
  { unfold body. rewrite <- !app_assoc.
    apply (@strip_solid
             ([96; 96]%N ++ [10%N] ++ j ++ [10%N] ++ [96; 96; 96]%N)
             ([96; 96; 96]%N ++ [10%N] ++ j ++ [10%N] ++ [96; 96]%N)
             96%N 96%N eq_refl eq_refl).
    simpl. rewrite <- !app_assoc. reflexivity. }
  rewrite S1.
  change (startswith (body ++ [96; 96; 96]%N)
            [96; 96; 96; 106; 115; 111; 110]%N) with false.
  cbv iota. rewrite endswith_app.
  change 3 with (length [96; 96; 96]%N).
  rewrite (slice_drop_last_app body [96; 96; 96]%N).
  unfold strip, body.
  change (lstrip ([96; 96; 96]%N ++ [10%N] ++ j ++ [10%N]))
    with ([96; 96; 96]%N ++ [10%N] ++ j ++ [10%N]).
  apply (@rstrip_keeps [96; 96]%N ([10%N] ++ j ++ [10%N]) 96%N).
  reflexivity.
Qed.

End NormalizerFacts.

(* ================================================================== *)
(** * The answer of the model: clean-up and parsing *)
(* ================================================================== *)

Lemma str_eqb_eq (a b : str) : str_eqb a b = true <-> a = b.
Proof.
  unfold str_eqb. destruct (str_eq_dec a b); split; congruence.
Qed.

Lemma loads_cases (py : Interpreter) (s : str) :
  (exists v, loads py s = Ok v) \/ (exists e, loads py s = Raise e)
  \/ (exists e, loads py s = Throw e).
Proof.
  destruct (loads py s) as [v|e| |e] eqn:E.
  - left. now exists v.
  - right. left. now exists e.
  - now apply DecoderFacts.loads_total in E.
  - right. right. now exists e.
Qed.

Lemma schema_has_no_error_key (members : list (str * json)) :
  forallb (fun kv => existsb (str_eqb (fst kv)) schema_keys) members = true ->
  existsb (fun kv => str_eqb (fst kv) (lit "error")) members = false.
Proof.
  induction members as [|[k v] ms IH]; simpl; [reflexivity|].
  intros H. apply andb_true_iff in H as [Hk Hms].
  rewrite (IH Hms), orb_false_r.
  destruct (str_eqb k (lit "error")) eqn:E; [|reflexivity].
  apply str_eqb_eq in E. subst k. vm_compute in Hk. discriminate.
Qed.

(** A value of the schema's shape carries no ["error"] key and is not a
    failure record. *)
Lemma shapes_disjoint (v : json) :
  ParsedResume_shape v = true ->
  ParseFailure_shape v = false /\ has_key (lit "error") v = false.
Proof.
  destruct v as [| | | | |items|members]; try discriminate.
  intros H. simpl in H. pose proof (schema_has_no_error_key _ H) as K.
  split; [|exact K].
  destruct members as [|[k1 v1] [|[k2 v2] [|m ms]]]; try reflexivity;
    destruct v1; try reflexivity; destruct v2; try reflexivity.
  cbn [existsb fst] in K. apply orb_false_iff in K as [K _].
  unfold ParseFailure_shape. now rewrite K.
Qed.

(** C1, as the code has it: for every answer, [normalize] returns
    the value that parsing the cleaned text yields, unchanged and
    whatever its shape; or, when [json.loads] raises [JSONDecodeError],
    the record of exactly the error indicator and the cleaned text;
    or, when [json.loads] raises another exception (the recursion
    limit, the limit of [int]), the record of that exception's text
    alone.  A returned value without the key [error], which is what
    the callers test, is the value that was parsed; a returned value
    of the schema's shape has no such key and is no failure record. *)
Theorem normalize_outcomes (py : Interpreter) (s : str) :
  match loads py (clean_response s) with
  | Ok v => normalize py s = v
  | Raise _ =>
      normalize py s
      = JObject [(lit "error", JString (lit "JSON parsing failed"));
                 (lit "raw_response", JString (clean_response s))]
  | Throw e =>
      normalize py s = JObject [(lit "error", JString (error_text py e))]
  | Fuel => False
  end
  /\ (has_key (lit "error") (normalize py s) = false ->
      loads py (clean_response s) = Ok (normalize py s))
  /\ (ParsedResume_shape (normalize py s) = true ->
      has_key (lit "error") (normalize py s) = false
      /\ ParseFailure_shape (normalize py s) = false).
Proof.
  unfold normalize.
  destruct (loads py (clean_response s)) as [v|e| |e] eqn:E.
  - split; [reflexivity|]. split; [reflexivity|].
    intros H. apply shapes_disjoint in H. tauto.
  - split; [reflexivity|].
    split; intros H; vm_compute in H; discriminate.
  - now apply DecoderFacts.loads_total in E.
  - split; [reflexivity|].
    split; intros H; vm_compute in H; discriminate.
Qed.

Lemma normalize_outcomes_witness :
  has_key (lit "error") (normalize cpython (fenced (qlit "{'summary': 'x'}")))
  = false
  /\ loads cpython (clean_response (fenced (qlit "{'summary': 'x'}")))
     = Ok (normalize cpython (fenced (qlit "{'summary': 'x'}")))
  /\ ParseFailure_shape (normalize cpython (fenced (qlit "{'summary': 'x'}")))
     = false.
Proof.
  split; [reflexivity|]. split.
  - apply (proj1 (proj2 (normalize_outcomes cpython
                           (fenced (qlit "{'summary': 'x'}"))))).
    reflexivity.
  - apply (proj2 (proj2 (normalize_outcomes cpython
                           (fenced (qlit "{'summary': 'x'}"))))).
    reflexivity.
Defined.

(** C1 as stated fails: the answer [[]] parses, and what is returned is
    neither of the schema's shape nor a failure record; an answer that
    spells a failure record parses, so that a successful parse returns
    a record of the failure shape; and an answer nested deeper than
    the recursion limit allows gives a record without any raw text. *)
Lemma normalize_not_tagged :
  loads cpython (clean_response (lit "[]")) = Ok (JArray [])
  /\ normalize cpython (lit "[]") = JArray []
  /\ ParsedResume_shape (normalize cpython (lit "[]")) = false
  /\ ParseFailure_shape (normalize cpython (lit "[]")) = false
  /\ loads cpython
       (clean_response
          (qlit "{'error': 'JSON parsing failed', 'raw_response': '?'}"))
     = Ok (JObject [(lit "error", JString (lit "JSON parsing failed"));
                    (lit "raw_response", JString (lit "?"))])
  /\ ParseFailure_shape
       (normalize cpython
          (qlit "{'error': 'JSON parsing failed', 'raw_response': '?'}"))
     = true
  /\ normalize cpython (repeat 91%N 1000)
     = JObject [(lit "error",
                 JString (lit "maximum recursion depth exceeded"))]
  /\ ParseFailure_shape (normalize cpython (repeat 91%N 1000)) = false
  /\ ParsedResume_shape (normalize cpython (repeat 91%N 1000)) = false.
Proof. vm_compute. repeat split. Qed.

(** C2, as the code has it: when [json.loads] raises [JSONDecodeError]
    on the cleaned text, [normalize] returns the record of the error
    indicator and of exactly that text; for the answer [not json] the
    raw text is [not json], whatever the limits of the interpreter. *)
Theorem normalize_failure_keeps_text :
  (forall (py : Interpreter) (s : str) (e : JSONDecodeError),
      loads py (clean_response s) = Raise e ->
      normalize py s
      = JObject [(lit "error", JString (lit "JSON parsing failed"));
                 (lit "raw_response", JString (clean_response s))])
  /\ (forall py : Interpreter,
         normalize py (lit "not json")
         = JObject [(lit "error", JString (lit "JSON parsing failed"));
                    (lit "raw_response", JString (lit "not json"))]).
Proof.
  split; [|reflexivity].
  intros py s e H. unfold normalize. now rewrite H.
Qed.

Lemma normalize_failure_keeps_text_witness :
  loads cpython (clean_response (qlit "{'summary': ")) = Raise ExpectingValue
  /\ normalize cpython (qlit "{'summary': ")
     = JObject [(lit "error", JString (lit "JSON parsing failed"));
                (lit "raw_response", JString (qlit "{'summary':"))].
Proof.
  split; [reflexivity|].
  apply (proj1 normalize_failure_keeps_text cpython (qlit "{'summary': ")
               ExpectingValue).
  reflexivity.
Defined.

(** C2 as stated fails: 1000 opening brackets are no JSON text, as
    [json.loads] finds where the recursion limit is out of reach; with
    the default limit it raises [RecursionError] before it gets there,
    and the record that [normalize] returns holds the text of that
    exception and no raw text. *)
Lemma normalize_drops_text_at_limit :
  loads (mkInterpreter 2000 4300 (error_text cpython))
    (clean_response (repeat 91%N 1000))
  = Raise ExpectingValue
  /\ loads cpython (clean_response (repeat 91%N 1000)) = Throw RecursionLimit
  /\ normalize cpython (repeat 91%N 1000)
     = JObject [(lit "error",
                 JString (lit "maximum recursion depth exceeded"))]
  /\ has_key (lit "raw_response") (normalize cpython (repeat 91%N 1000))
     = false.
Proof. vm_compute. repeat split. Qed.

(** C4: for every JSON text [j], [normalize] gives the same result on
    [j] inside a fence tagged [json] as on [j] alone; the fenced
    [{"summary": "x"}] yields the record with the single field
    [summary], in every interpreter that can enter one value inside
    another. *)
Theorem normalize_fence_invariant :
  (forall (py : Interpreter) (j : str) (v : json),
      loads py j = Ok v -> normalize py (fenced j) = normalize py j)
  /\ (forall (depth digits : nat) (text : LimitError -> str),
         normalize (mkInterpreter (S depth) digits text)
           (fenced (qlit "{'summary': 'x'}"))
         = JObject [(lit "summary", JString (lit "x"))]).
Proof.
  split; [|reflexivity].
  intros py j v H.
  destruct (@DecoderFacts.loads_shape py j v H)
    as (w1 & w2 & a & t & t' & b & -> & E & H1 & H2 & Ha & Hb).
  apply DecoderFacts.ws_spaces in H1, H2.
  unfold normalize.
  rewrite (@NormalizerFacts.clean_fenced_core w1 w2 t t' a b H1 H2 Ha Hb E).
  rewrite (@NormalizerFacts.clean_core w1 w2 t t' a b H1 H2 Ha Hb E).
  reflexivity.
Qed.

Lemma normalize_fence_invariant_witness :
  loads cpython (qlit " [1, {'a': null}] ")
  = Ok (JArray [JInt 1; JObject [(lit "a", JNull)]])
  /\ normalize cpython (fenced (qlit " [1, {'a': null}] "))
     = normalize cpython (qlit " [1, {'a': null}] ").
Proof.
  split; [reflexivity|].
  apply (proj1 normalize_fence_invariant cpython (qlit " [1, {'a': null}] ")
               (JArray [JInt 1; JObject [(lit "a", JNull)]])).
  reflexivity.
Defined.

(** C10: the leading fence is removed only when the trimmed answer
    starts with the fence tagged [json]; an answer in a bare fence keeps
    its opening fence through the clean-up, [json.loads] raises
    [JSONDecodeError] on it whatever the limits of the interpreter,
    and what is returned is the failure record, with the key [error]
    and the cleaned text, whatever is inside the fence, well-formed
    JSON included. *)
Theorem normalize_bare_fence_fails :
  (forall s : str,
      startswith (strip s) (lit "```json") = false ->
      clean_response s
      = strip (if endswith (strip s) (lit "```")
               then slice_drop_last 3 (strip s) else strip s))
  /\ (forall (py : Interpreter) (j : str),
         exists z,
           clean_response (bare_fenced j) = lit "```" ++ z
           /\ loads py (clean_response (bare_fenced j)) = Raise ExpectingValue
           /\ normalize py (bare_fenced j)
              = JObject [(lit "error", JString (lit "JSON parsing failed"));
                         (lit "raw_response", JString (lit "```" ++ z))]
           /\ ParseFailure_shape (normalize py (bare_fenced j)) = true
           /\ has_key (lit "error") (normalize py (bare_fenced j)) = true)
  /\ (forall py : Interpreter,
         normalize py (bare_fenced (qlit "{'summary': 'x'}"))
         = JObject [(lit "error", JString (lit "JSON parsing failed"));
                    (lit "raw_response",
                     JString (lit "```" ++ [10%N]
                              ++ qlit "{'summary': 'x'}"))]).
Proof.
  split; [|split; [|reflexivity]].
  - intros s H. unfold clean_response. rewrite H. reflexivity.
  - intros py j. destruct (NormalizerFacts.clean_bare_fenced j) as [z E].
    exists z. split; [exact E|].
    unfold normalize. rewrite E. repeat split.
Qed.

Lemma normalize_bare_fence_fails_witness :
  startswith (strip (bare_fenced (lit "{}"))) (lit "```json") = false
  /\ clean_response (bare_fenced (lit "{}"))
     = strip (if endswith (strip (bare_fenced (lit "{}"))) (lit "```")
              then slice_drop_last 3 (strip (bare_fenced (lit "{}")))
              else strip (bare_fenced (lit "{}"))).
Proof.
  split; [reflexivity|].
  apply (proj1 normalize_bare_fence_fails (bare_fenced (lit "{}"))).
  reflexivity.
Defined.

(* ================================================================== *)
(** * Text extraction *)
(* ================================================================== *)

Section ExtractionFacts.
Variable Page : Type.
Variable PdfReader : bytes -> outcome (list Page).
Variable extract_text : Page -> outcome str.
Variable Document : bytes -> outcome (list str).

Lemma pdf_pages_loop_spec (pages : list Page) (texts : list str) :
  Forall2 (fun p t => extract_text p = Returns t) pages texts ->
  forall (page_num : nat) (text : str),
    pdf_pages_loop extract_text pages page_num text
    = Returns (text ++ concat (map page_block (text_pages texts page_num))).
Proof.
  induction 1 as [|p t pages texts Hp _ IH]; intros page_num text.
  - simpl. now rewrite List.app_nil_r.
  - cbn [pdf_pages_loop]. rewrite Hp. destruct t as [|c t].
    + cbn [text_pages]. apply IH.
    + cbn [text_pages map concat]. rewrite IH.
      change (page_block (page_num, c :: t))
        with (page_marker page_num ++ (c :: t) ++ [10%N]).
      rewrite <- !app_assoc. reflexivity.
Qed.

Lemma docx_paragraphs_loop_spec (paragraphs : list str) :
  forall text : str,
    docx_paragraphs_loop paragraphs text
    = text ++ concat (map paragraph_line
                          (filter (fun p => negb (blank p)) paragraphs)).
Proof.
  induction paragraphs as [|p ps IH]; intros text.
  - simpl. now rewrite List.app_nil_r.
  - cbn [docx_paragraphs_loop filter]. unfold blank at 1.
    destruct (strip p); cbn [negb map concat]; rewrite IH; [reflexivity|].
    change (paragraph_line p) with (p ++ [10%N]).
    now rewrite <- !app_assoc.
Qed.

Lemma text_pages_all (texts : list str) :
  Forall (fun t => t <> []) texts ->
  forall n, text_pages texts n = combine (seq n (length texts)) texts.
Proof.
  induction 1 as [|t texts Ht _ IH]; intros n; simpl; [reflexivity|].
  destruct t; [contradiction|]. now rewrite IH.
Qed.

Lemma text_pages_none (texts : list str) :
  Forall (fun t => t = []) texts -> forall n, text_pages texts n = [].
Proof.
  induction 1 as [|t texts Ht _ IH]; intros n; simpl; [reflexivity|].
  subst t. apply IH.
Qed.

End ExtractionFacts.

(** C5: for a valid PDF, the extraction succeeds with the trimmed
    concatenation, in page order and over exactly the pages with a
    non-empty text layer, of the page's marker, its text and a newline;
    when every page has text, these are the pages 1..N in order; when no
    page has text (no page at all included) the result is the empty
    string, returned and not raised. *)
Theorem pdf_extraction
  (Page : Type) (PdfReader : bytes -> outcome (list Page))
  (extract_text : Page -> outcome str)
  (file_content : bytes) (pages : list Page) (texts : list str) :
  PdfReader file_content = Returns pages ->
  Forall2 (fun p t => extract_text p = Returns t) pages texts ->
  extract_text_from_pdf PdfReader extract_text file_content
  = ([EvTempFile (lit ".pdf") file_content; EvPdfReader; EvUnlink],
     Returns (strip (concat (map page_block (text_pages texts 1)))))
  /\ (Forall (fun t => t <> []) texts ->
      text_pages texts 1 = combine (seq 1 (length texts)) texts)
  /\ (Forall (fun t => t = []) texts ->
      snd (extract_text_from_pdf PdfReader extract_text file_content)
      = Returns []).
Proof.
  intros Hr Hp.
  assert (E : extract_text_from_pdf PdfReader extract_text file_content
              = ([EvTempFile (lit ".pdf") file_content; EvPdfReader; EvUnlink],
                 Returns (strip (concat (map page_block
                                             (text_pages texts 1)))))).
  { unfold extract_text_from_pdf. simpl. rewrite Hr. simpl.
    rewrite (@pdf_pages_loop_spec Page extract_text pages texts Hp).
    reflexivity. }
  split; [exact E|split].
  - intros H. now apply text_pages_all.
  - intros H. rewrite E. simpl. now rewrite (@text_pages_none texts H).
Qed.

Lemma pdf_extraction_witness :
  extract_text_from_pdf
    (fun _ => Returns [lit "Ada"; []; lit "Lovelace "])
    (fun page : str => Returns page) [37%N; 80%N]
  = ([EvTempFile (lit ".pdf") [37%N; 80%N]; EvPdfReader; EvUnlink],
     Returns (lit "--- Page 1 ---" ++ [10%N] ++ lit "Ada" ++ [10%N; 10%N]
              ++ lit "--- Page 3 ---" ++ [10%N] ++ lit "Lovelace")).
Proof.
  apply (proj1 (@pdf_extraction str
                  (fun _ => Returns [lit "Ada"; []; lit "Lovelace "])
                  (fun page : str => Returns page) [37%N; 80%N]
                  [lit "Ada"; []; lit "Lovelace "]
                  [lit "Ada"; []; lit "Lovelace "]
                  eq_refl
                  (Forall2_cons _ _ eq_refl
                     (Forall2_cons _ _ eq_refl
                        (Forall2_cons _ _ eq_refl (Forall2_nil _)))))).
Defined.

(** C6: for a valid DOCX, the extraction succeeds with the trimmed
    concatenation, in document order, of the paragraphs that are not
    blank after trimming, each followed by a newline. *)
Theorem docx_extraction
  (Document : bytes -> outcome (list str))
  (file_content : bytes) (paragraphs : list str) :
  Document file_content = Returns paragraphs ->
  extract_text_from_docx Document file_content
  = ([EvTempFile (lit ".docx") file_content; EvDocument; EvUnlink],
     Returns (strip (concat (map paragraph_line
                                 (filter (fun p => negb (blank p))
                                         paragraphs))))).
Proof.
  intros Hd. unfold extract_text_from_docx. simpl. rewrite Hd. simpl.
  rewrite docx_paragraphs_loop_spec. reflexivity.
Qed.

Lemma docx_extraction_witness :
  extract_text_from_docx
    (fun _ => Returns [lit " Ada"; lit "  "; []; lit "Lovelace "])
    [80%N; 75%N]
  = ([EvTempFile (lit ".docx") [80%N; 75%N]; EvDocument; EvUnlink],
     Returns (lit "Ada" ++ [10%N] ++ lit "Lovelace")).
Proof.
  apply (@docx_extraction
           (fun _ => Returns [lit " Ada"; lit "  "; []; lit "Lovelace "])
           [80%N; 75%N] [lit " Ada"; lit "  "; []; lit "Lovelace "] eq_refl).
Defined.

(** C3, as the code has it: for a file whose name does not end,
    whatever the case, in an accepted extension, the extraction raises
    the unsupported-format exception after the upload has been read and
    before anything else: no temporary file, no decoder. *)
Theorem unsupported_format_after_read
  (Page : Type) (PdfReader : bytes -> outcome (list Page))
  (extract_text : Page -> outcome str)
  (Document : bytes -> outcome (list str)) (uploaded_file : UploadedFile) :
  accepted_extension (name uploaded_file) = false ->
  extract_text_from_file PdfReader extract_text Document uploaded_file
  = (snd (read uploaded_file), ([EvRead], Raises UNSUPPORTED)).
Proof.
  unfold accepted_extension. intros H.
  apply orb_false_iff in H as [H H3]. apply orb_false_iff in H as [H1 H2].
  unfold extract_text_from_file. simpl.
  rewrite H1, H2, H3. reflexivity.
Qed.

Lemma unsupported_format_after_read_witness :
  extract_text_from_file
    (fun _ => Returns [lit "page"]) (fun page : str => Returns page)
    (fun _ => Returns [lit "paragraph"])
    (mkUpload (lit "resume.txt") [104%N; 105%N] 0)
  = (mkUpload (lit "resume.txt") [104%N; 105%N] 2,
     ([EvRead], Raises UNSUPPORTED)).
Proof.
  apply (@unsupported_format_after_read str
           (fun _ => Returns [lit "page"]) (fun page : str => Returns page)
           (fun _ => Returns [lit "paragraph"])
           (mkUpload (lit "resume.txt") [104%N; 105%N] 0)).
  reflexivity.
Defined.

(** C3 as stated fails: for [resume.txt] the bytes of the upload are
    read (the read is the first event, and the read position has moved
    to the end) before the extension is looked at. *)
Lemma unsupported_format_reads_first :
  accepted_extension (lit "resume.txt") = false
  /\ extract_text_from_file
       (fun _ => Returns [lit "page"]) (fun page : str => Returns page)
       (fun _ => Returns [lit "paragraph"])
       (mkUpload (lit "resume.txt") [104%N; 105%N] 0)
     = (mkUpload (lit "resume.txt") [104%N; 105%N] 2,
        ([EvRead], Raises UNSUPPORTED))
  /\ fst (read (mkUpload (lit "resume.txt") [104%N; 105%N] 0))
     = [104%N; 105%N].
Proof. repeat split. Qed.

(** C9: the dispatch looks at the lowered file name only, so it is
    insensitive to case, and a name ending in [.doc] goes to the DOCX
    extractor exactly as one ending in [.docx]. *)
Theorem dispatch_doc_as_docx
  (Page : Type) (PdfReader : bytes -> outcome (list Page))
  (extract_text : Page -> outcome str)
  (Document : bytes -> outcome (list str)) :
  (forall f g : UploadedFile,
      lower (name f) = lower (name g) ->
      data f = data g -> position f = position g ->
      snd (extract_text_from_file PdfReader extract_text Document f)
      = snd (extract_text_from_file PdfReader extract_text Document g))
  /\ (forall (f : UploadedFile) (base ext : str),
         name f = base ++ ext ->
         lower ext = lit ".doc" \/ lower ext = lit ".docx" ->
         snd (extract_text_from_file PdfReader extract_text Document f)
         = (emit EvRead ;;;
            extract_text_from_docx Document (fst (read f)))).
Proof.
  split.
  - intros f g Hn Hd Hp. unfold extract_text_from_file, read. simpl.
    now rewrite Hn, Hd, Hp.
  - intros f base ext Hn He. unfold extract_text_from_file. simpl.
    rewrite Hn, PyStrFacts.lower_app. unfold endswith.
    rewrite rev_app_distr.
    destruct He as [-> | ->]; reflexivity.
Qed.

Lemma dispatch_doc_as_docx_witness :
  snd (extract_text_from_file
         (fun _ => Returns [lit "page"]) (fun page : str => Returns page)
         (fun _ => Returns [lit "paragraph"])
         (mkUpload (lit "Resume.DOC") [104%N; 105%N] 0))
  = ([EvRead; EvTempFile (lit ".docx") [104%N; 105%N]; EvDocument; EvUnlink],
     Returns (lit "paragraph")).
Proof.
  apply (proj2 (@dispatch_doc_as_docx str
                  (fun _ => Returns [lit "page"])
                  (fun page : str => Returns page)
                  (fun _ => Returns [lit "paragraph"]))
               (mkUpload (lit "Resume.DOC") [104%N; 105%N] 0)
               (lit "Resume") (lit ".DOC") eq_refl (or_introl eq_refl)).
Defined.

(* ================================================================== *)
(** * The prompt *)
(* ================================================================== *)

(** C7: building the prompt always succeeds, on the empty text too; the
    result is the fixed head, the text and the fixed tail, so it depends
    on nothing but the text: not on the parser object, nor on anything
    else. *)
Theorem create_parsing_prompt_total
  (self other : ResumeParser) (resume_text : str) :
  create_parsing_prompt self resume_text
  = Returns (unlines PROMPT_HEAD ++ resume_text ++ unlines PROMPT_TAIL)
  /\ create_parsing_prompt other resume_text
     = create_parsing_prompt self resume_text
  /\ create_parsing_prompt self []
     = Returns (unlines PROMPT_HEAD ++ unlines PROMPT_TAIL).
Proof.
  assert (E : forall t, create_parsing_prompt self t
                        = Returns (unlines PROMPT_HEAD ++ t
                                   ++ unlines PROMPT_TAIL)).
  { intros t. unfold create_parsing_prompt, PROMPT.
    cbn [fstring]. 
    change (lookup [(lit "resume_text", t)] (lit "resume_text")) with (Some t).
    cbv iota. now rewrite List.app_nil_r. }
  split; [apply E|split; [reflexivity|apply E]].
Qed.

(* ================================================================== *)
(** * The export round trip *)
(* ================================================================== *)

Module RoundTrip.
Import DecoderFacts.

Lemma hexval_hexdigit (d : N) : (d < 16)%N -> hexval (hexdigit d) = Some d.
Proof.
  intros H. unfold hexdigit, hexval.
  destruct (N.ltb_spec d 10).
  - replace ((48 <=? 48 + d) && (48 + d <=? 57))%N with true
      by (symmetry; nbool; lia).
    f_equal. lia.
  - replace ((48 <=? 87 + d) && (87 + d <=? 57))%N with false
      by (symmetry; nbool; lia).
    replace ((97 <=? 87 + d) && (87 + d <=? 102))%N with true
      by (symmetry; nbool; lia).
    f_equal. lia.
Qed.

Lemma hex_digits_value (n : N) :
  (n < 65536)%N ->
  ((((n / 4096) * 16 + (n / 256) mod 16) * 16 + (n / 16) mod 16) * 16
   + n mod 16 = n)%N.
Proof.
  intros H.
  assert (D1 : (n / 16 / 16 = n / 256)%N)
    by (rewrite N.Div0.div_div; reflexivity).
  assert (D2 : (n / 256 / 16 = n / 4096)%N)
    by (rewrite N.Div0.div_div; reflexivity).
  pose proof (N.div_mod n 16 ltac:(discriminate)) as E0.
  pose proof (N.div_mod (n / 16) 16 ltac:(discriminate)) as E1.
  pose proof (N.div_mod (n / 256) 16 ltac:(discriminate)) as E2.
  rewrite D1 in E1. rewrite D2 in E2.
  set (a := (n / 4096)%N) in *. set (b := ((n / 256) mod 16)%N) in *.
  set (c := ((n / 16) mod 16)%N) in *. set (d := (n mod 16)%N) in *.
  set (q1 := (n / 16)%N) in *. set (q2 := (n / 256)%N) in *.
  lia.
Qed.

Lemma hex4_u_escape (n : N) (rest : str) :
  (n < 65536)%N ->
  exists h1 h2 h3 h4,
    u_escape n ++ rest = 92%N :: 117%N :: h1 :: h2 :: h3 :: h4 :: rest
    /\ hex4 h1 h2 h3 h4 = Some n.
Proof.
  intros H. unfold u_escape.
  exists (hexdigit (n / 4096)), (hexdigit ((n / 256) mod 16)),
    (hexdigit ((n / 16) mod 16)), (hexdigit (n mod 16)).
  split; [reflexivity|]. unfold hex4.
  rewrite !hexval_hexdigit.
  - f_equal. now apply hex_digits_value.
  - apply N.mod_lt. discriminate.
  - apply N.mod_lt. discriminate.
  - apply N.mod_lt. discriminate.
  - apply N.Div0.div_lt_upper_bound. simpl. lia.
Qed.

Lemma lor_low (hi lo : N) :
  (lo < 1024)%N -> N.lor (hi * 2 ^ 10) lo = (hi * 2 ^ 10 + lo)%N.
Proof.
  intros H. rewrite N.add_nocarry_lxor, N.lxor_lor; try reflexivity.
  all: apply N.bits_inj; intros i; rewrite N.land_spec, N.bits_0.
  all: destruct (N.lt_ge_cases i 10) as [Hi|Hi].
  all: try (rewrite N.mul_pow2_bits_low by assumption; reflexivity).
  all: destruct (N.eq_dec lo 0) as [->|Hz];
    [rewrite N.bits_0; apply andb_false_r|].
  all: rewrite (N.bits_above_log2 lo i), andb_false_r; [reflexivity|].
  all: apply N.lt_le_trans with (m := 10%N); [|assumption].
  all: apply N.log2_lt_pow2; [lia|exact H].
Qed.

(** The surrogate pair that the encoder writes for a code point beyond
    the basic plane joins back to it. *)
Lemma surrogates_join (c : N) :
  (65536 <= c)%N -> (c < 1114112)%N ->
  let n := (c - 65536)%N in
  let s1 := N.lor 55296 (N.land (N.shiftr n 10) 1023) in
  let s2 := N.lor 56320 (N.land n 1023) in
  (s1 < 65536)%N /\ (s2 < 65536)%N
  /\ is_high_surrogate s1 = true /\ is_low_surrogate s2 = true
  /\ join_surrogates s1 s2 = c.
Proof.
  intros H1 H2 n s1 s2.
  assert (Hn : (n < 1048576)%N) by (unfold n; lia).
  assert (Hx : (N.land (N.shiftr n 10) 1023 = n / 1024)%N).
  { change 1023%N with (N.ones 10). rewrite N.land_ones, N.shiftr_div_pow2.
    change (2 ^ 10)%N with 1024%N. apply N.mod_small.
    apply N.Div0.div_lt_upper_bound. simpl. lia. }
  assert (Hy : (N.land n 1023 = n mod 1024)%N).
  { change 1023%N with (N.ones 10). now rewrite N.land_ones. }
  assert (Hq : (n / 1024 < 1024)%N)
    by (apply N.Div0.div_lt_upper_bound; simpl; lia).
  assert (Hr : (n mod 1024 < 1024)%N) by (apply N.mod_lt; discriminate).
  assert (E1 : s1 = (55296 + n / 1024)%N).
  { unfold s1. rewrite Hx. change 55296%N with (54 * 2 ^ 10)%N.
    now apply lor_low. }
  assert (E2 : s2 = (56320 + n mod 1024)%N).
  { unfold s2. rewrite Hy. change 56320%N with (55 * 2 ^ 10)%N.
    now apply lor_low. }
  unfold is_high_surrogate, is_low_surrogate, join_surrogates.
  rewrite E1, E2. repeat split; try lia; try (nbool; lia).
  replace (55296 + n / 1024 - 55296)%N with (n / 1024)%N by lia.
  replace (56320 + n mod 1024 - 56320)%N with (n mod 1024)%N by lia.
  rewrite N.shiftl_mul_pow2, lor_low by assumption.
  change (2 ^ 10)%N with 1024%N.
  pose proof (N.div_mod n 1024 ltac:(discriminate)). unfold n in *. lia.
Qed.

(** Scanning the escape of one code point that is no high surrogate
    appends the code point. *)
Lemma scanstring_escape_cp (c : N) (rest acc : str) :
  (c <? 1114112)%N = true -> is_high_surrogate c = false ->
  scanstring (escape_cp c ++ rest) acc = scanstring rest (acc ++ [c]).
Proof.
  intros Hc Hh. unfold escape_cp.
  destruct (N.eqb_spec c 34); [subst; reflexivity|].
  destruct (N.eqb_spec c 92); [subst; reflexivity|].
  destruct (N.eqb_spec c 10); [subst; reflexivity|].
  destruct (N.eqb_spec c 13); [subst; reflexivity|].
  destruct (N.eqb_spec c 9); [subst; reflexivity|].
  destruct (N.eqb_spec c 8); [subst; reflexivity|].
  destruct (N.eqb_spec c 12); [subst; reflexivity|].
  destruct ((32 <=? c) && (c <=? 126))%N eqn:Hp.
  { cbn [app scanstring].
    replace (c =? 34)%N with false by (symmetry; nbool; lia).
    replace (c =? 92)%N with false by (symmetry; nbool; lia).
    replace (c <? 32)%N with false by (symmetry; nbool; lia).
    reflexivity. }
  destruct (N.ltb_spec c 65536) as [Hlt|Hge].
  - destruct (@hex4_u_escape c rest Hlt) as (h1 & h2 & h3 & h4 & E & Hx).
    rewrite E. cbn [scanstring]. rewrite Hx, Hh. reflexivity.
  - assert (Hc' : (c < 1114112)%N) by (nbool; lia).
    destruct (@surrogates_join c Hge Hc') as (L1 & L2 & S1 & S2 & J).
    cbv zeta. rewrite <- app_assoc.
    destruct (@hex4_u_escape _ (u_escape
                (N.lor 56320 (N.land (c - 65536) 1023)) ++ rest) L1)
      as (h1 & h2 & h3 & h4 & E & Hx).
    rewrite E. clear E.
    destruct (@hex4_u_escape _ rest L2) as (g1 & g2 & g3 & g4 & E & Hg).
    rewrite E. clear E.
    cbn [scanstring]. rewrite Hx, S1. cbn [N.eqb Pos.eqb andb].
    rewrite Hg, S2, J. reflexivity.
Qed.

(** What the escape of a code point starts with: a character that is
    no backslash; a backslash and a character that is no [u]; or the
    escape of a number that is the code point itself or a high
    surrogate. *)
Lemma escape_cp_head (d : N) (rest : str) :
  (d <? 1114112)%N = true ->
  (exists b t, escape_cp d ++ rest = b :: t /\ b <> 92%N)
  \/ (exists u t, escape_cp d ++ rest = 92%N :: u :: t /\ u <> 117%N)
  \/ (exists g1 g2 g3 g4 t uni,
         escape_cp d ++ rest = 92%N :: 117%N :: g1 :: g2 :: g3 :: g4 :: t
         /\ hex4 g1 g2 g3 g4 = Some uni
         /\ (uni = d \/ is_high_surrogate uni = true)).
Proof.
  intros Hd. unfold escape_cp.
  destruct (N.eqb_spec d 34);
    [right; left; exists 34%N, rest; split; [reflexivity|discriminate]|].
  destruct (N.eqb_spec d 92);
    [right; left; exists 92%N, rest; split; [reflexivity|discriminate]|].
  destruct (N.eqb_spec d 10);
    [right; left; exists 110%N, rest; split; [reflexivity|discriminate]|].
  destruct (N.eqb_spec d 13);
    [right; left; exists 114%N, rest; split; [reflexivity|discriminate]|].
  destruct (N.eqb_spec d 9);
    [right; left; exists 116%N, rest; split; [reflexivity|discriminate]|].
  destruct (N.eqb_spec d 8);
    [right; left; exists 98%N, rest; split; [reflexivity|discriminate]|].
  destruct (N.eqb_spec d 12);
    [right; left; exists 102%N, rest; split; [reflexivity|discriminate]|].
  destruct ((32 <=? d) && (d <=? 126))%N eqn:Hp.
  { left. exists d, rest. split; [reflexivity|assumption]. }
  right. right.
  destruct (N.ltb_spec d 65536) as [Hlt|Hge].
  - destruct (@hex4_u_escape d rest Hlt) as (h1 & h2 & h3 & h4 & E & Hx).
    exists h1, h2, h3, h4, rest, d. repeat split; try assumption. now left.
  - assert (Hd' : (d < 1114112)%N) by (nbool; lia).
    destruct (@surrogates_join d Hge Hd') as (L1 & L2 & S1 & S2 & J).
    cbv zeta. rewrite <- app_assoc.
    destruct (@hex4_u_escape _ (u_escape
                (N.lor 56320 (N.land (d - 65536) 1023)) ++ rest) L1)
      as (h1 & h2 & h3 & h4 & E & Hx).
    exists h1, h2, h3, h4,
      (u_escape (N.lor 56320 (N.land (d - 65536) 1023)) ++ rest),
      (N.lor 55296 (N.land (N.shiftr (d - 65536) 10) 1023)).
    repeat split; try assumption. now right.
Qed.

Lemma high_not_low (u : N) :
  is_high_surrogate u = true -> is_low_surrogate u = false.
Proof.
  unfold is_high_surrogate, is_low_surrogate. intros H.
  nbool. lia.
Qed.

(** Scanning the escape of a high surrogate that is followed by the
    escapes of a string in which no low surrogate comes first. *)
Lemma scanstring_high (c : N) (s rest acc : str) :
  is_high_surrogate c = true ->
  valid_str s = true ->
  match s with
  | d :: _ => is_low_surrogate d
  | [] => false
  end = false ->
  scanstring (escape_cp c ++ flat_map escape_cp s ++ 34%N :: rest) acc
  = scanstring (flat_map escape_cp s ++ 34%N :: rest) (acc ++ [c]).
Proof.
  intros Hh Hs Hl.
  assert (Hr : (55296 <= c <= 56319)%N)
    by (unfold is_high_surrogate in Hh; nbool; lia).
  assert (Ee : escape_cp c = u_escape c).
  { unfold escape_cp.
    replace (c =? 34)%N with false by (symmetry; nbool; lia).
    replace (c =? 92)%N with false by (symmetry; nbool; lia).
    replace (c =? 10)%N with false by (symmetry; nbool; lia).
    replace (c =? 13)%N with false by (symmetry; nbool; lia).
    replace (c =? 9)%N with false by (symmetry; nbool; lia).
    replace (c =? 8)%N with false by (symmetry; nbool; lia).
    replace (c =? 12)%N with false by (symmetry; nbool; lia).
    replace ((32 <=? c) && (c <=? 126))%N with false
      by (symmetry; nbool; lia).
    replace (c <? 65536)%N with true by (symmetry; nbool; lia).
    reflexivity. }
  rewrite Ee.
  destruct (@hex4_u_escape c (flat_map escape_cp s ++ 34%N :: rest)
              ltac:(lia)) as (h1 & h2 & h3 & h4 & E & Hx).
  rewrite E. cbn [scanstring]. rewrite Hx, Hh.
  destruct s as [|d s].
  - cbn [flat_map app]. destruct rest as [|u rest]; reflexivity.
  - cbn [flat_map valid_str forallb] in *.
    apply andb_true_iff in Hs as [Hd Hs]. rewrite <- app_assoc.
    destruct (@escape_cp_head d (flat_map escape_cp s ++ 34%N :: rest) Hd)
      as [(b & t & -> & Hb)|[(u & t & -> & Hu)
         |(g1 & g2 & g3 & g4 & t & uni & -> & Hg & Hu)]].
    + destruct t as [|u t]; [reflexivity|].
      replace (b =? 92)%N with false by (symmetry; now apply N.eqb_neq).
      reflexivity.
    + replace (u =? 117)%N with false by (symmetry; now apply N.eqb_neq).
      cbn [N.eqb Pos.eqb andb]. reflexivity.
    + cbn [N.eqb Pos.eqb andb]. rewrite Hg.
      replace (is_low_surrogate uni) with false; [reflexivity|].
      symmetry. destruct Hu as [->|Hu]; [exact Hl|now apply high_not_low].
Qed.

(** Scanning an encoded string gives the string back. *)
Lemma scanstring_encoded (s : str) :
  valid_str s = true -> split_pair_free s = true ->
  forall rest acc,
    scanstring (flat_map escape_cp s ++ 34%N :: rest) acc
    = Ok (acc ++ s, rest).
Proof.
  induction s as [|c s IH]; intros Hv Hs rest acc.
  - simpl. now rewrite List.app_nil_r.
  - pose proof Hv as Hv'. cbn [valid_str forallb] in Hv.
    apply andb_true_iff in Hv as [Hc Hv].
    cbn [split_pair_free] in Hs. apply andb_true_iff in Hs as [Hp Hs].
    cbn [flat_map]. rewrite <- app_assoc.
    destruct (is_high_surrogate c) eqn:Hh.
    + cbn [andb negb] in Hp. apply negb_true_iff in Hp.
      rewrite (@scanstring_high c s rest acc Hh Hv Hp).
      rewrite IH by assumption. now rewrite <- app_assoc.
    + rewrite scanstring_escape_cp by assumption.
      rewrite IH by assumption. now rewrite <- app_assoc.
Qed.

(** ** Integers *)

Lemma uint_digits_are_digits (d : Decimal.uint) :
  forallb is_digit (uint_digits d) = true.
Proof. induction d; simpl; auto. Qed.

Lemma digits_uint_digits (d : Decimal.uint) : digits_uint (uint_digits d) = d.
Proof. induction d; simpl; congruence. Qed.

Lemma span_digits_all (ds r : str) :
  forallb is_digit ds = true ->
  match r with [] => True | c :: _ => is_digit c = false end ->
  span_digits (ds ++ r) = (ds, r).
Proof.
  intros Hd Hr. induction ds as [|c ds IH]; simpl.
  - destruct r as [|c r]; [reflexivity|]. simpl. now rewrite Hr.
  - simpl in Hd. apply andb_true_iff in Hd as [Hc Hd].
    now rewrite Hc, IH.
Qed.

(** The decimal digits of a positive number: at least one, the first
    not zero. *)
Lemma pos_digits_head (p : positive) :
  exists c t,
    uint_digits (Pos.to_uint p) = c :: t
    /\ is_digit c = true /\ c <> 48%N.
Proof.
  pose proof (DecimalPos.Unsigned.to_uint_nonzero p) as Hz.
  pose proof (DecimalPos.Unsigned.to_uint_nonnil p) as Hn.
  assert (Hu : Decimal.unorm (Pos.to_uint p) = Pos.to_uint p).
  { rewrite <- (DecimalPos.Unsigned.to_of (Pos.to_uint p)).
    now rewrite DecimalPos.Unsigned.of_to. }
  destruct (Pos.to_uint p) as [|d|d|d|d|d|d|d|d|d|d] eqn:E;
    try (eexists; eexists; split; [reflexivity|split; [reflexivity|discriminate]]).
  - contradiction.
  - exfalso. unfold Decimal.unorm in Hu. simpl in Hu.
    destruct (Decimal.nzhead d) as [|u|u|u|u|u|u|u|u|u|u] eqn:En;
      try discriminate Hu.
    + injection Hu as <-. now apply Hz.
    + injection Hu as ->. now apply DecimalFacts.nzhead_nonzero in En.
Qed.

Lemma int_str_head (z : Z) :
  exists c t, int_str z = c :: t /\ (is_digit c = true \/ c = 45%N).
Proof.
  unfold int_str. destruct z as [|p|p]; simpl.
  - exists 48%N, []. split; [reflexivity|now left].
  - destruct (pos_digits_head p) as (c & t & E & Hc & _).
    exists c, t. split; [assumption|now left].
  - exists 45%N, (uint_digits (Pos.to_uint p)). split; [reflexivity|now right].
Qed.

Lemma int_value_int_str (z : Z) : int_value (int_str z) = z.
Proof.
  rewrite <- (DecimalZ.of_to z) at 2.
  unfold int_str. destruct z as [|p|p]; simpl; [reflexivity| |].
  - destruct (pos_digits_head p) as (c & t & E & Hc & _).
    unfold int_value. rewrite E.
    replace (c =? 45)%N with false
      by (symmetry; unfold is_digit in Hc; nbool; lia).
    rewrite <- E. now rewrite digits_uint_digits.
  - now rewrite digits_uint_digits.
Qed.

Lemma follows_not_digit (r : str) :
  follows_value r -> match r with [] => True | c :: _ => is_digit c = false end.
Proof.
  destruct r as [|c r]; [trivial|]. simpl. intros [-> | ->]; reflexivity.
Qed.

Lemma match_frac_follows (r : str) : follows_value r -> match_frac r = ([], r).
Proof.
  destruct r as [|c r]; [reflexivity|]. simpl. intros [-> | ->]; reflexivity.
Qed.

Lemma match_exp_follows (r : str) : follows_value r -> match_exp r = ([], r).
Proof.
  destruct r as [|c r]; [reflexivity|]. simpl. intros [-> | ->]; reflexivity.
Qed.

Lemma match_integer_digits (p : positive) (r : str) :
  follows_value r ->
  match_integer (uint_digits (Pos.to_uint p) ++ r)
  = Some (uint_digits (Pos.to_uint p), r).
Proof.
  intros Hr. destruct (pos_digits_head p) as (c & t & E & Hc & Hz).
  pose proof (uint_digits_are_digits (Pos.to_uint p)) as Hd.
  rewrite E in *. simpl in Hd. apply andb_true_iff in Hd as [_ Hd].
  unfold match_integer. cbn [app].
  replace (c =? 45)%N with false
    by (symmetry; unfold is_digit in Hc; nbool; lia).
  replace (c =? 48)%N with false by (symmetry; now apply N.eqb_neq).
  rewrite Hc, (span_digits_all t r Hd (follows_not_digit r Hr)).
  reflexivity.
Qed.

Lemma match_number_int_str (z : Z) (r : str) :
  follows_value r ->
  match_number (int_str z ++ r) = Some (int_str z, [], [], r).
Proof.
  intros Hr. unfold match_number.
  assert (E : match_integer (int_str z ++ r) = Some (int_str z, r)).
  { unfold int_str. destruct z as [|p|p]; simpl Z.to_int.
    - reflexivity.
    - now apply match_integer_digits.
    - pose proof (match_integer_digits p r Hr) as H.
      destruct (pos_digits_head p) as (c & t & E & Hc & Hz).
      unfold match_integer in *. rewrite E in *. cbn [app] in *.
      replace (c =? 45)%N with false in H
        by (symmetry; unfold is_digit in Hc; nbool; lia).
      cbn [N.eqb Pos.eqb].
      destruct (c =? 48)%N; [now inversion H|].
      destruct (is_digit c); [|discriminate].
      destruct (span_digits (t ++ r)). now inversion H. }
  rewrite E, (match_frac_follows r Hr), (match_exp_follows r Hr).
  reflexivity.
Qed.

(** The scanner on a text that starts with a number. *)
Lemma scan_once_number (m n : nat) (c : N) (t i f e r : str) :
  is_digit c = true \/ c = 45%N ->
  match_number (c :: t) = Some (i, f, e, r) ->
  scan_once m (S n) (c :: t)
  = match f, e with
    | [], [] =>
        match int_of_str m i with
        | Some z => Ok (JInt z, r)
        | None => Throw IntDigitsLimit
        end
    | _, _ => Ok (JFloat (i ++ f ++ e), r)
    end.
Proof.
  intros Hc Hm.
  assert (Hr : (48 <= c <= 57 \/ c = 45)%N)
    by (unfold is_digit in Hc; nbool; lia).
  cbn [scan_once]. norm_lits. cbn [startswith].
  replace (c =? 34)%N with false by (symmetry; nbool; lia).
  replace (c =? 123)%N with false by (symmetry; nbool; lia).
  replace (c =? 91)%N with false by (symmetry; nbool; lia).
  replace (110 =? c)%N with false by (symmetry; nbool; lia).
  replace (116 =? c)%N with false by (symmetry; nbool; lia).
  replace (102 =? c)%N with false by (symmetry; nbool; lia).
  cbn [andb]. rewrite Hm. reflexivity.
Qed.

(** An integer within the limit of [int] is read back. *)
Lemma scan_once_int (m n : nat) (z : Z) (r : str) :
  too_many_digits m (int_str z) = false ->
  follows_value r ->
  scan_once m (S n) (int_str z ++ r) = Ok (JInt z, r).
Proof.
  intros Hl Hr. pose proof (match_number_int_str z r Hr) as Hm.
  destruct (int_str_head z) as (c & t & E & Hc).
  rewrite E in *. cbn [app] in *.
  rewrite (@scan_once_number m n c (t ++ r) (c :: t) [] [] r Hc Hm).
  unfold int_of_str. rewrite Hl. now rewrite <- E, int_value_int_str.
Qed.

(** ** Floats *)

Lemma span_digits_app (s ds rest r : str) :
  span_digits s = (ds, rest) ->
  match r with [] => True | c :: _ => is_digit c = false end ->
  span_digits (s ++ r) = (ds, rest ++ r).
Proof.
  revert ds rest. induction s as [|c s IH]; intros ds rest H Hr.
  - injection H as <- <-. cbn [app].
    destruct r as [|c r]; [reflexivity|]. simpl. now rewrite Hr.
  - cbn [app span_digits] in *. destruct (is_digit c).
    + destruct (span_digits s) as [ds' r'] eqn:E.
      injection H as <- <-. now rewrite (IH _ _ eq_refl Hr).
    + injection H as <- <-. reflexivity.
Qed.

Lemma match_integer_app (s i rest r : str) :
  match_integer s = Some (i, rest) -> follows_value r ->
  match_integer (s ++ r) = Some (i, rest ++ r).
Proof.
  intros H Hr. apply follows_not_digit in Hr.
  assert (G : forall sign s1,
             match s1 with
             | [] => None
             | c :: t =>
                 if (c =? 48)%N then Some (sign ++ [c], t)
                 else if is_digit c then
                        let (ds, r) := span_digits t in Some (sign ++ c :: ds, r)
                      else None
             end = Some (i, rest) ->
             match s1 ++ r with
             | [] => None
             | c :: t =>
                 if (c =? 48)%N then Some (sign ++ [c], t)
                 else if is_digit c then
                        let (ds, r) := span_digits t in Some (sign ++ c :: ds, r)
                      else None
             end = Some (i, rest ++ r)).
  { intros sign [|c t] G; [discriminate|]. cbn [app].
    destruct (c =? 48)%N; [now injection G as <- <-|].
    destruct (is_digit c); [|discriminate].
    destruct (span_digits t) as [ds r'] eqn:E.
    rewrite (@span_digits_app _ _ _ _ E Hr). now injection G as <- <-. }
  unfold match_integer in *.
  destruct s as [|c t]; [discriminate|]. cbn [app].
  destruct (c =? 45)%N.
  - apply (G [45%N] t H).
  - apply (G [] (c :: t) H).
Qed.

Lemma match_frac_app (s f rest r : str) :
  match_frac s = (f, rest) -> follows_value r ->
  match_frac (s ++ r) = (f, rest ++ r).
Proof.
  intros H Hr. destruct s as [|c t].
  - injection H as <- <-. now apply match_frac_follows.
  - apply follows_not_digit in Hr.
    unfold match_frac in *. cbn [app].
    destruct (c =? 46)%N; [|now injection H as <- <-].
    destruct (span_digits t) as [ds r'] eqn:E.
    rewrite (@span_digits_app _ _ _ _ E Hr).
    destruct ds; now injection H as <- <-.
Qed.

Lemma match_exp_app (s e rest r : str) :
  match_exp s = (e, rest) -> follows_value r ->
  match_exp (s ++ r) = (e, rest ++ r).
Proof.
  intros H Hr. destruct s as [|c t].
  - injection H as <- <-. now apply match_exp_follows.
  - unfold match_exp in *. cbn [app].
    destruct ((c =? 101) || (c =? 69))%N; [|now injection H as <- <-].
    destruct t as [|d t'].
    + cbn [app span_digits] in *. injection H as <- <-.
      destruct r as [|a r]; [reflexivity|].
      destruct Hr as [-> | ->]; reflexivity.
    + cbn [app]. apply follows_not_digit in Hr.
      destruct ((d =? 45) || (d =? 43))%N.
      * destruct (span_digits t') as [ds r'] eqn:E.
        rewrite (@span_digits_app _ _ _ _ E Hr).
        destruct ds; now injection H as <- <-.
      * destruct (span_digits (d :: t')) as [ds r'] eqn:E.
        change (d :: t' ++ r) with ((d :: t') ++ r).
        rewrite (@span_digits_app _ _ _ _ E Hr).
        destruct ds; now injection H as <- <-.
Qed.

Lemma match_number_app (s i f e rest r : str) :
  match_number s = Some (i, f, e, rest) -> follows_value r ->
  match_number (s ++ r) = Some (i, f, e, rest ++ r).
Proof.
  unfold match_number. intros H Hr.
  destruct (match_integer s) as [[i' r1]|] eqn:Ei; [|discriminate].
  destruct (match_frac r1) as [f' r2] eqn:Ef.
  destruct (match_exp r2) as [e' r3] eqn:Ee.
  injection H as <- <- <- <-.
  rewrite (@match_integer_app _ _ _ _ Ei Hr), (@match_frac_app _ _ _ _ Ef Hr),
    (@match_exp_app _ _ _ _ Ee Hr).
  reflexivity.
Qed.

Lemma match_integer_split (s i r : str) :
  match_integer s = Some (i, r) -> s = i ++ r.
Proof.
  unfold match_integer. intros H.
  assert (G : forall sign s1,
             match s1 with
             | [] => None
             | c :: t =>
                 if (c =? 48)%N then Some (sign ++ [c], t)
                 else if is_digit c then
                        let (ds, r) := span_digits t in Some (sign ++ c :: ds, r)
                      else None
             end = Some (i, r) -> sign ++ s1 = i ++ r).
  { intros sign [|c t] G; [discriminate|].
    destruct (c =? 48)%N;
      [injection G as <- <-; now rewrite <- app_assoc|].
    destruct (is_digit c); [|discriminate].
    destruct (span_digits t) as [ds r'] eqn:E.
    destruct (span_digits_spec _ E) as [-> _].
    injection G as <- <-. now rewrite <- app_assoc. }
  destruct s as [|c t]; [discriminate|].
  destruct (N.eqb_spec c 45).
  - subst c. apply (G [45%N] t H).
  - apply (G [] (c :: t) H).
Qed.

Lemma match_frac_split (s f r : str) : match_frac s = (f, r) -> s = f ++ r.
Proof.
  unfold match_frac. intros H.
  destruct s as [|c t]; [now injection H as <- <-|].
  destruct (c =? 46)%N; [|now injection H as <- <-].
  destruct (span_digits t) as [ds r'] eqn:E.
  destruct (span_digits_spec _ E) as [-> _].
  destruct ds; now injection H as <- <-.
Qed.

Lemma match_exp_split (s e r : str) : match_exp s = (e, r) -> s = e ++ r.
Proof.
  unfold match_exp. intros H.
  destruct s as [|c t]; [now injection H as <- <-|].
  destruct ((c =? 101) || (c =? 69))%N; [|now injection H as <- <-].
  destruct t as [|d t'].
  - cbn [span_digits] in H. now injection H as <- <-.
  - destruct ((d =? 45) || (d =? 43))%N.
    + destruct (span_digits t') as [ds r'] eqn:E.
      destruct (span_digits_spec _ E) as [-> _].
      destruct ds; now injection H as <- <-.
    + destruct (span_digits (d :: t')) as [ds r'] eqn:E.
      destruct (span_digits_spec _ E) as [E' _].
      destruct ds; injection H as <- <-; [reflexivity|].
      cbn [app]. now rewrite E'.
Qed.

Lemma match_number_split (s i f e r : str) :
  match_number s = Some (i, f, e, r) -> s = i ++ f ++ e ++ r.
Proof.
  unfold match_number. intros H.
  destruct (match_integer s) as [[i' r1]|] eqn:Ei; [|discriminate].
  destruct (match_frac r1) as [f' r2] eqn:Ef.
  destruct (match_exp r2) as [e' r3] eqn:Ee.
  injection H as <- <- <- <-.
  now rewrite (@match_integer_split _ _ _ Ei), (@match_frac_split _ _ _ Ef),
    (@match_exp_split _ _ _ Ee).
Qed.

(** The text of a float is read back as the float it denotes. *)
Lemma scan_once_float (m n : nat) (t r : str) :
  float_literal t = true -> follows_value r ->
  scan_once m (S n) (t ++ r) = Ok (JFloat t, r).
Proof.
  unfold float_literal. intros Hf Hr.
  destruct (match_number t) as [[[[i f] e] rest]|] eqn:Em.
  - destruct rest; [|discriminate].
    pose proof (@match_number_split _ _ _ _ _ Em) as Et.
    rewrite List.app_nil_r in Et.
    pose proof (@match_number_app _ _ _ _ _ _ Em Hr) as Ha. cbn [app] in Ha.
    destruct t as [|c t']; [discriminate Em|].
    assert (Hc : is_digit c = true \/ c = 45%N).
    { unfold match_number in Em.
      destruct (match_integer (c :: t')) as [[i' r1]|] eqn:Ei;
        [|discriminate].
      destruct (match_integer_head _ _ Ei); tauto. }
    cbn [app] in *.
    rewrite (@scan_once_number m n c (t' ++ r) i f e r Hc Ha).
    rewrite Et. destruct f, e; [discriminate Hf|reflexivity..].
  - rewrite !orb_true_iff, !str_eqb_eq in Hf.
    destruct Hf as [[-> | ->] | ->]; vm_compute lit; reflexivity.
Qed.

(** ** Arrays, objects and whole values *)

Lemma json_nested_ind (P : json -> Prop) :
  P JNull -> (forall b, P (JBool b)) -> (forall z, P (JInt z)) ->
  (forall f, P (JFloat f)) -> (forall s, P (JString s)) ->
  (forall items, Forall P items -> P (JArray items)) ->
  (forall members, Forall (fun kv => P (snd kv)) members ->
                   P (JObject members)) ->
  forall v, P v.
Proof.
  intros Hnull Hbool Hint Hfloat Hstr Harr Hobj.
  fix IH 1. intros [| b | z | f | s | items | members].
  - apply Hnull.
  - apply Hbool.
  - apply Hint.
  - apply Hfloat.
  - apply Hstr.
  - apply Harr.
    induction items as [|x xs IHxs]; constructor; [apply IH|exact IHxs].
  - apply Hobj.
    induction members as [|[k x] ms IHms]; constructor;
      [apply IH|exact IHms].
Qed.

Lemma skip_ws_head (c : N) (s : str) :
  is_ws c = false -> skip_ws (c :: s) = c :: s.
Proof. intros H. simpl. now rewrite H. Qed.

Lemma skip_ws_spaces (w s : str) :
  forallb is_ws w = true -> skip_ws (w ++ s) = skip_ws s.
Proof.
  induction w as [|c w IH]; simpl; intros H; [reflexivity|].
  apply andb_true_iff in H as [Hc Hw]. rewrite Hc. auto.
Qed.

Lemma join_one (sep x : str) : join sep [x] = x.
Proof. reflexivity. Qed.

Lemma join_cons (sep x y : str) (l : list str) :
  join sep (x :: y :: l) = x ++ sep ++ join sep (y :: l).
Proof. reflexivity. Qed.

Lemma join_length (sep : str) (l : list str) :
  Forall (fun x => x <> []) l -> length l <= length (join sep l).
Proof.
  induction 1 as [|x l Hx _ IH]; [apply Nat.le_refl|].
  destruct l as [|y l].
  - rewrite join_one. destruct x; [contradiction|simpl; lia].
  - rewrite join_cons, !length_app.
    destruct x; [contradiction|]. simpl in *. lia.
Qed.

Lemma dict_set_fresh (d : list (str * json)) (k : str) (v : json) :
  ~ In k (map fst d) -> dict_set d k v = d ++ [(k, v)].
Proof.
  induction d as [|[k' v'] d IH]; simpl; intros H; [reflexivity|].
  destruct (str_eqb k' k) eqn:E.
  - apply str_eqb_eq in E. tauto.
  - rewrite IH; tauto.
Qed.

Lemma distinct_cons (k : str) (ks : list str) :
  distinct (k :: ks) = true -> ~ In k ks /\ distinct ks = true.
Proof.
  simpl. intros H. apply andb_true_iff in H as [H1 H2].
  split; [|assumption]. intros Hin.
  apply negb_true_iff in H1.
  assert (existsb (str_eqb k) ks = true); [|congruence].
  apply existsb_exists. exists k. split; [assumption|now apply str_eqb_eq].
Qed.

Lemma dict_fold (ms d : list (str * json)) :
  distinct (map fst ms) = true ->
  (forall k, In k (map fst ms) -> ~ In k (map fst d)) ->
  fold_left (fun d kv => dict_set d (fst kv) (snd kv)) ms d = d ++ ms.
Proof.
  revert d. induction ms as [|[k v] ms IH]; intros d Hd Hfresh; simpl.
  - now rewrite List.app_nil_r.
  - simpl in Hd. apply distinct_cons in Hd as [Hk Hd].
    rewrite dict_set_fresh by (apply Hfresh; now left).
    rewrite IH.
    + now rewrite <- app_assoc.
    + assumption.
    + intros k' Hin. rewrite map_app, in_app_iff. simpl.
      intros [H|[H|[]]].
      * apply (Hfresh k'); [now right|assumption].
      * subst k'. contradiction.
Qed.

(** [dict] keeps a list of pairs with pairwise distinct keys as it
    is. *)
Lemma dict_distinct (ms : list (str * json)) :
  distinct (map fst ms) = true -> dict ms = ms.
Proof.
  intros H. unfold dict. rewrite dict_fold; [reflexivity|assumption|].
  intros k _ [].
Qed.

Lemma height_item (x : json) (items : list json) :
  In x items ->
  height x <= fold_right (fun x h => Nat.max (height x) h) 0 items.
Proof.
  induction items as [|y ys IH]; [intros []|].
  intros [->|H]; cbn [fold_right]; [lia|].
  specialize (IH H). lia.
Qed.

Lemma height_member (kv : str * json) (members : list (str * json)) :
  In kv members ->
  height (snd kv)
  <= fold_right (fun kv h => Nat.max (height (snd kv)) h) 0 members.
Proof.
  induction members as [|y ys IH]; [intros []|].
  intros [->|H]; cbn [fold_right]; [lia|].
  specialize (IH H). lia.
Qed.

(** The text of a float starts as a number does, or with [N] or
    [I]. *)
Lemma float_literal_head (t : str) :
  float_literal t = true ->
  exists c t',
    t = c :: t'
    /\ is_ws c = false /\ (c =? 93)%N = false /\ (c =? 65279)%N = false.
Proof.
  unfold float_literal. intros Hf.
  destruct (match_number t) as [[[[i f] e] rest]|] eqn:Em.
  - destruct t as [|c t']; [discriminate Em|].
    unfold match_number in Em.
    destruct (match_integer (c :: t')) as [[i' r1]|] eqn:Ei; [|discriminate].
    exists c, t'. split; [reflexivity|].
    assert (Hr : (48 <= c <= 57 \/ c = 45)%N).
    { destruct (match_integer_head _ _ Ei) as [->|Hd];
        [now right|unfold is_digit in Hd; nbool; lia]. }
    repeat split; [unfold is_ws| |]; nbool; lia.
  - rewrite !orb_true_iff, !str_eqb_eq in Hf.
    destruct Hf as [[-> | ->] | ->]; vm_compute lit;
      eexists; eexists; (split; [reflexivity|repeat split; reflexivity]).
Qed.

Section Encoded.
Variable float_repr : str -> str.
Variable indent : nat.
Variable max_digits : nat.

Lemma newline_indent_ws (level : nat) :
  forallb is_ws (newline_indent indent level) = true.
Proof.
  unfold newline_indent. cbn [forallb]. change (is_ws 10%N) with true.
  cbn [andb]. induction (indent * level) as [|m IH]; [reflexivity|].
  simpl. exact IH.
Qed.

Lemma skip_ws_newline_indent (level : nat) (c : N) (s : str) :
  is_ws c = false -> skip_ws (newline_indent indent level ++ c :: s) = c :: s.
Proof.
  intros H. rewrite skip_ws_spaces by apply newline_indent_ws.
  now apply skip_ws_head.
Qed.

(** An encoded value is not empty and starts with a character that is
    neither JSON whitespace nor a closing bracket. *)
Lemma iterencode_head (level : nat) (v : json) :
  exportable float_repr v = true ->
  exists c t,
    iterencode float_repr indent level v = c :: t
    /\ is_ws c = false /\ (c =? 93)%N = false /\ (c =? 65279)%N = false.
Proof.
  destruct v as [| [|] | z | f | s | [|x xs] | [|m ms]]; intros H;
    try (eexists; eexists; split; [reflexivity|repeat split; reflexivity]).
  - destruct (int_str_head z) as (c & t & E & Hc).
    exists c, t. split; [exact E|].
    assert (Hr : (48 <= c <= 57 \/ c = 45)%N)
      by (unfold is_digit in Hc; nbool; lia).
    repeat split; [unfold is_ws| |]; nbool; lia.
  - now apply float_literal_head.
Qed.

Lemma iterencode_nonempty (level : nat) (v : json) :
  exportable float_repr v = true ->
  iterencode float_repr indent level v <> [].
Proof.
  intros H. destruct (iterencode_head level v H) as (c & t & E & _).
  rewrite E. discriminate.
Qed.

Lemma follows_newline_indent (level : nat) (s : str) :
  follows_value (newline_indent indent level ++ s).
Proof. now right. Qed.

Section ArrayLoop.
Variable scan : str -> res (json * str).
Variable level : nat.
Variable r : str.

Let sep : str := 44%N :: newline_indent indent (S level).
Let enc : json -> str := iterencode float_repr indent (S level).

Lemma array_loop_encoded (items : list json) :
  items <> [] ->
  Forall (fun x => exportable float_repr x = true) items ->
  Forall (fun x => forall r', follows_value r' ->
                              scan (enc x ++ r')
                              = Ok (reread float_repr x, r')) items ->
  forall (acc : list json) (k : nat),
    length items <= k ->
    JSONArray_loop scan k
      (join sep (map enc items) ++ newline_indent indent level ++ 93%N :: r)
      acc
    = Ok (JArray (acc ++ map (reread float_repr) items), r).
Proof.
  induction items as [|x xs IH]; [congruence|].
  intros _ He Hs acc k Hk.
  inversion He as [|? ? Hex Hexs]; subst.
  inversion Hs as [|? ? Hsx Hsxs]; subst.
  destruct k as [|k]; [simpl in Hk; lia|].
  destruct xs as [|y ys].
  - cbn [map] in *. rewrite join_one in *.
    cbn [JSONArray_loop].
    rewrite Hsx; [|apply follows_newline_indent].
    cbn [bind].
    rewrite skip_ws_newline_indent by reflexivity.
    reflexivity.
  - cbn [map] in *. rewrite join_cons in *.
    rewrite <- !app_assoc in *.
    cbn [JSONArray_loop].
    rewrite Hsx; [|now left].
    cbn [bind]. unfold sep at 1. cbn [app].
    rewrite skip_ws_head by reflexivity.
    cbn [N.eqb Pos.eqb].
    inversion Hexs as [|? ? Hey _]; subst.
    destruct (iterencode_head (S level) y Hey) as (c & t & E & Hc & _).
    assert (Hj : exists t', join sep (enc y :: map enc ys) = c :: t').
    { fold enc in E. destruct ys as [|z zs]; cbn [map].
      - rewrite join_one. now exists t.
      - rewrite join_cons, E. cbn [app]. now eexists. }
    destruct Hj as [t' Hj].
    assert (Hskip : skip_ws (newline_indent indent (S level)
                             ++ join sep (enc y :: map enc ys)
                             ++ newline_indent indent level ++ 93%N :: r)
                    = join sep (enc y :: map enc ys)
                      ++ newline_indent indent level ++ 93%N :: r).
    { rewrite Hj. cbn [app]. now apply skip_ws_newline_indent. }
    rewrite Hskip.
    replace (acc ++ reread float_repr x
                 :: reread float_repr y :: map (reread float_repr) ys)
      with ((acc ++ [reread float_repr x])
              ++ map (reread float_repr) (y :: ys))
      by now rewrite <- app_assoc.
    apply IH; try assumption; try discriminate.
    simpl in Hk. simpl. lia.
Qed.
End ArrayLoop.

Section ObjectLoop.
Variable scan : str -> res (json * str).
Variable level : nat.
Variable r : str.

Let sep : str := 44%N :: newline_indent indent (S level).
Let enc : json -> str := iterencode float_repr indent (S level).
Let member (kv : str * json) : str :=
  encode_basestring_ascii (fst kv) ++ [58%N; 32%N] ++ enc (snd kv).
Let read (kv : str * json) : str * json :=
  (fst kv, reread float_repr (snd kv)).

Lemma member_text (key : str) (v : json) (rest : str) :
  member (key, v) ++ rest
  = 34%N :: flat_map escape_cp key ++ 34%N :: 58%N :: 32%N :: enc v ++ rest.
Proof.
  unfold member, encode_basestring_ascii. cbn [fst snd app].
  rewrite <- !app_assoc. reflexivity.
Qed.

(** One turn of the loop of [JSONObject] on an encoded member. *)
Lemma object_member_step (k : nat) (key : str) (v : json) (rest : str)
      (acc : list (str * json)) :
  valid_str key = true -> split_pair_free key = true ->
  exportable float_repr v = true ->
  scan (enc v ++ rest) = Ok (reread float_repr v, rest) ->
  JSONObject_loop scan (S k)
    (flat_map escape_cp key ++ 34%N :: 58%N :: 32%N :: enc v ++ rest) acc
  = match skip_ws rest with
    | [] => Raise ExpectingCommaDelimiter
    | d :: r3 =>
        if (d =? 125)%N
        then Ok (JObject (dict (acc ++ [read (key, v)])), r3)
        else if (d =? 44)%N then
          match skip_ws r3 with
          | [] => Raise ExpectingPropertyName
          | q :: r4 =>
              if (q =? 34)%N
              then JSONObject_loop scan k r4 (acc ++ [read (key, v)])
              else Raise ExpectingPropertyName
          end
        else Raise ExpectingCommaDelimiter
    end.
Proof.
  intros Hk Hp Hv Hs. cbn [JSONObject_loop].
  rewrite scanstring_encoded by assumption. cbn [bind app].
  rewrite skip_ws_head by reflexivity. cbn [N.eqb Pos.eqb].
  destruct (iterencode_head (S level) v Hv) as (c & t & E & Hc & _).
  fold enc in E.
  assert (Hskip : skip_ws (32%N :: enc v ++ rest) = enc v ++ rest).
  { cbn [skip_ws]. change (is_ws 32%N) with true. cbv iota.
    rewrite E. cbn [app]. now apply skip_ws_head. }
  rewrite Hskip, Hs. reflexivity.
Qed.

Lemma object_loop_encoded (members : list (str * json)) :
  members <> [] ->
  Forall (fun kv => valid_str (fst kv) = true
                    /\ split_pair_free (fst kv) = true
                    /\ exportable float_repr (snd kv) = true) members ->
  Forall (fun kv => forall r', follows_value r' ->
                               scan (enc (snd kv) ++ r')
                               = Ok (reread float_repr (snd kv), r'))
         members ->
  forall (acc : list (str * json)) (k : nat) (body : str),
    length members <= k ->
    34%N :: body = join sep (map member members)
                   ++ newline_indent indent level ++ 125%N :: r ->
    JSONObject_loop scan k body acc
    = Ok (JObject (dict (acc ++ map read members)), r).
Proof.
  induction members as [|[key v] ms IH]; [congruence|].
  intros _ He Hs acc k body Hk Hbody.
  inversion He as [|? ? [Hkey [Hpair Hv]] Hems]; subst.
  inversion Hs as [|? ? Hsv Hsms]; subst.
  cbn [fst snd] in *.
  destruct k as [|k]; [simpl in Hk; lia|].
  destruct ms as [|m2 ms].
  - cbn [map] in Hbody. rewrite join_one, member_text in Hbody.
    apply (f_equal (@tl N)) in Hbody. cbn [tl] in Hbody. subst body.
    rewrite object_member_step; try assumption.
    + rewrite skip_ws_newline_indent by reflexivity. reflexivity.
    + apply Hsv. apply follows_newline_indent.
  - cbn [map] in Hbody. rewrite join_cons in Hbody.
    rewrite <- !app_assoc in Hbody. rewrite member_text in Hbody.
    apply (f_equal (@tl N)) in Hbody. cbn [tl] in Hbody. subst body.
    rewrite object_member_step; try assumption.
    + unfold sep at 1. cbn [app].
      rewrite skip_ws_head by reflexivity. cbn [N.eqb Pos.eqb].
      destruct m2 as [key2 v2].
      assert (Hj : exists body2,
                 join sep (member (key2, v2) :: map member ms)
                 ++ newline_indent indent level ++ 125%N :: r
                 = 34%N :: body2).
      { destruct ms as [|m3 ms]; cbn [map].
        - rewrite join_one, member_text. now eexists.
        - rewrite join_cons, <- !app_assoc, member_text. now eexists. }
      destruct Hj as [body2 Hj]. rewrite Hj.
      rewrite skip_ws_newline_indent by reflexivity.
      cbn [N.eqb Pos.eqb].
      replace (acc ++ map read ((key, v) :: (key2, v2) :: ms))
        with ((acc ++ [read (key, v)]) ++ map read ((key2, v2) :: ms))
        by now rewrite <- app_assoc.
      apply IH; try assumption; try discriminate.
      * simpl in Hk. simpl. lia.
      * now rewrite <- Hj.
    + apply Hsv. now left.
Qed.
End ObjectLoop.

Lemma iterencode_array (level : nat) (x : json) (xs : list json) :
  iterencode float_repr indent level (JArray (x :: xs))
  = 91%N :: newline_indent indent (S level)
    ++ join (44%N :: newline_indent indent (S level))
            (map (iterencode float_repr indent (S level)) (x :: xs))
    ++ newline_indent indent level ++ [93%N].
Proof. reflexivity. Qed.

Lemma iterencode_object (level : nat) (m : str * json)
      (ms : list (str * json)) :
  iterencode float_repr indent level (JObject (m :: ms))
  = 123%N :: newline_indent indent (S level)
    ++ join (44%N :: newline_indent indent (S level))
            (map (fun kv =>
                    encode_basestring_ascii (fst kv) ++ [58%N; 32%N]
                    ++ iterencode float_repr indent (S level) (snd kv))
                 (m :: ms))
    ++ newline_indent indent level ++ [125%N].
Proof. reflexivity. Qed.

(** The scanner on an encoded value, followed by what may follow a
    value, gives the value back, its floats read again, and stops
    right after it, when the value needs no more calls of the scanner,
    one inside the other, than are left. *)
Lemma scan_once_encoded (v : json) :
  decoded max_digits v = true ->
  exportable float_repr v = true ->
  forall (level : nat) (r : str) (n : nat),
    follows_value r ->
    height v <= n ->
    scan_once max_digits n (iterencode float_repr indent level v ++ r)
    = Ok (reread float_repr v, r).
Proof.
  induction v as [| b | z | f | s | items IH | members IH]
    using json_nested_ind;
    intros Hd He level r n Hr Hn;
    (destruct n as [|n]; [cbn [height] in Hn; lia|]).
  - reflexivity.
  - destruct b; reflexivity.
  - cbn [decoded] in Hd. apply negb_true_iff in Hd.
    now apply scan_once_int.
  - cbn [iterencode reread]. now apply scan_once_float.
  - cbn [iterencode exportable decoded reread] in *.
    unfold encode_basestring_ascii.
    cbn [app scan_once N.eqb Pos.eqb]. rewrite <- app_assoc. cbn [app].
    rewrite scanstring_encoded by assumption. reflexivity.
  - destruct items as [|x xs]; [reflexivity|].
    rewrite iterencode_array. cbn [app].
    rewrite <- !app_assoc. cbn [app].
    cbn [scan_once N.eqb Pos.eqb].
    cbn [exportable] in He. rewrite forallb_forall in He.
    cbn [decoded] in Hd. rewrite forallb_forall in Hd.
    assert (Hex : Forall (fun x => exportable float_repr x = true) (x :: xs))
      by (apply Forall_forall; exact He).
    set (enc := iterencode float_repr indent (S level)) in *.
    set (sep := 44%N :: newline_indent indent (S level)) in *.
    set (J := join sep (map enc (x :: xs))
              ++ newline_indent indent level ++ 93%N :: r) in *.
    destruct (iterencode_head (S level) x (He x (or_introl eq_refl)))
      as (c & t & E & Hc & Hb & _).
    fold enc in E.
    assert (HJ : exists t', J = c :: t').
    { unfold J. destruct xs as [|y ys]; cbn [map].
      - rewrite join_one, E. now eexists.
      - rewrite join_cons, E. now eexists. }
    destruct HJ as [t' HJ].
    unfold JSONArray.
    assert (Hskip : skip_ws (newline_indent indent (S level) ++ J) = J)
      by (rewrite HJ; now apply skip_ws_newline_indent).
    rewrite Hskip. rewrite HJ at 1. cbv iota. rewrite Hb.
    cbn [reread].
    change (JArray (map (reread float_repr) (x :: xs)))
      with (JArray ([] ++ map (reread float_repr) (x :: xs))).
    apply (@array_loop_encoded (scan_once max_digits n) level r);
      try assumption; try discriminate.
    + apply Forall_forall. intros y Hy r' Hr'.
      rewrite Forall_forall in IH. apply IH; try assumption.
      * now apply Hd.
      * now apply He.
      * pose proof (height_item y (x :: xs) Hy). cbn [height] in Hn. lia.
    + assert (length (x :: xs) <= length (join sep (map enc (x :: xs)))).
      { rewrite <- (length_map enc). apply join_length.
        apply Forall_forall. intros e He'. apply in_map_iff in He'.
        destruct He' as (y & <- & Hy). apply iterencode_nonempty.
        now apply He. }
      rewrite length_app. unfold J at 1. rewrite length_app. lia.
  - destruct members as [|m ms]; [reflexivity|].
    rewrite iterencode_object. cbn [app].
    rewrite <- !app_assoc. cbn [app].
    cbn [scan_once N.eqb Pos.eqb].
    cbn [exportable] in He. rewrite forallb_forall in He.
    cbn [decoded] in Hd. apply andb_true_iff in Hd as [Hdist Hd].
    rewrite forallb_forall in Hd.
    set (enc := iterencode float_repr indent (S level)) in *.
    set (sep := 44%N :: newline_indent indent (S level)) in *.
    set (member := fun kv : str * json =>
                     encode_basestring_ascii (fst kv)
                     ++ 58%N :: 32%N :: enc (snd kv)) in *.
    set (J := join sep (map member (m :: ms))
              ++ newline_indent indent level ++ 125%N :: r) in *.
    assert (HJ : exists body, J = 34%N :: body).
    { unfold J. destruct m as [key v].
      destruct ms as [|m2 ms]; cbn [map].
      - rewrite join_one. unfold member at 1.
        unfold encode_basestring_ascii. cbn [app]. now eexists.
      - rewrite join_cons. unfold member at 1.
        unfold encode_basestring_ascii. cbn [app]. now eexists. }
    destruct HJ as [body HJ].
    unfold JSONObject.
    assert (Hskip : skip_ws (newline_indent indent (S level) ++ J)
                    = 34%N :: body)
      by (rewrite HJ; now apply skip_ws_newline_indent).
    rewrite Hskip. cbn [N.eqb Pos.eqb].
    cbn [reread].
    set (read := fun kv : str * json =>
                   (fst kv, reread float_repr (snd kv))).
    replace (JObject (map read (m :: ms)))
      with (JObject (dict ([] ++ map read (m :: ms)))).
    2:{ cbn [app]. rewrite dict_distinct; [reflexivity|].
        rewrite map_map. exact Hdist. }
    apply (@object_loop_encoded (scan_once max_digits n) level r);
      try assumption; try discriminate.
    + apply Forall_forall. intros kv Hkv.
      specialize (He kv Hkv). specialize (Hd kv Hkv).
      apply andb_true_iff in He. apply andb_true_iff in Hd. tauto.
    + apply Forall_forall. intros kv Hkv r' Hr'.
      rewrite Forall_forall in IH.
      specialize (He kv Hkv). specialize (Hd kv Hkv).
      apply andb_true_iff in He. apply andb_true_iff in Hd.
      apply IH; try tauto.
      pose proof (height_member kv (m :: ms) Hkv). cbn [height] in Hn. lia.
    + assert (length (m :: ms) <= length (join sep (map member (m :: ms)))).
      { rewrite <- (length_map member). apply join_length.
        apply Forall_forall. intros e He'. apply in_map_iff in He'.
        destruct He' as (y & <- & Hy). unfold member.
        unfold encode_basestring_ascii. discriminate. }
      rewrite length_app. unfold J at 1. rewrite length_app. lia.
    + symmetry. exact HJ.
Qed.

End Encoded.

(** A value whose floats are written as their [repr] is read again
    as it is. *)
Lemma reread_stable (float_repr : str -> str) (v : json) :
  repr_stable float_repr v = true -> reread float_repr v = v.
Proof.
  induction v as [| b | z | f | s | items IH | members IH]
    using json_nested_ind; intros H; try reflexivity.
  - cbn [repr_stable reread] in *. apply str_eqb_eq in H. now rewrite H.
  - cbn [repr_stable reread] in *. f_equal.
    induction IH as [|x xs Hx _ IHxs]; [reflexivity|].
    cbn [forallb map] in *. apply andb_true_iff in H as [H1 H2].
    now rewrite Hx, IHxs.
  - cbn [repr_stable reread] in *. f_equal.
    induction IH as [|[k x] xs Hx _ IHxs]; [reflexivity|].
    cbn [forallb map fst snd] in *. apply andb_true_iff in H as [H1 H2].
    now rewrite Hx, IHxs.
Qed.

(** ** What [json.loads] returns *)

Lemma valid_suffix (s r : str) :
  suffix s r -> valid_str s = true -> valid_str r = true.
Proof.
  intros [c ->]. unfold valid_str. rewrite forallb_app.
  intros H. apply andb_true_iff in H. tauto.
Qed.

Lemma valid_snoc (acc : str) (c : N) :
  valid_str acc = true -> (c < 1114112)%N -> valid_str (acc ++ [c]) = true.
Proof.
  unfold valid_str. intros Ha Hc. rewrite forallb_app, Ha. cbn [forallb].
  rewrite andb_true_r. now apply N.ltb_lt.
Qed.

Lemma hexval_bound (c x : N) : hexval c = Some x -> (x < 16)%N.
Proof.
  unfold hexval. intros H.
  destruct ((48 <=? c) && (c <=? 57))%N eqn:E1;
    [injection H as <-; nbool; lia|].
  destruct ((97 <=? c) && (c <=? 102))%N eqn:E2;
    [injection H as <-; nbool; lia|].
  destruct ((65 <=? c) && (c <=? 70))%N eqn:E3;
    [injection H as <-; nbool; lia|discriminate].
Qed.

Lemma hex4_bound (a b c d u : N) : hex4 a b c d = Some u -> (u < 65536)%N.
Proof.
  unfold hex4. intros H.
  destruct (hexval a) as [x|] eqn:Ea; [|discriminate].
  destruct (hexval b) as [y|] eqn:Eb; [|discriminate].
  destruct (hexval c) as [z|] eqn:Ec; [|discriminate].
  destruct (hexval d) as [w|] eqn:Ed; [|discriminate].
  apply hexval_bound in Ea, Eb, Ec, Ed. injection H as <-. lia.
Qed.

Lemma join_surrogates_bound (u u2 : N) :
  is_high_surrogate u = true -> is_low_surrogate u2 = true ->
  (join_surrogates u u2 < 1114112)%N.
Proof.
  unfold is_high_surrogate, is_low_surrogate, join_surrogates.
  intros H1 H2.
  assert (B1 : (u - 55296 < 1024)%N) by (nbool; lia).
  assert (B2 : (u2 - 56320 < 1024)%N) by (nbool; lia).
  rewrite N.shiftl_mul_pow2, lor_low by assumption.
  change (2 ^ 10)%N with 1024%N. lia.
Qed.

Lemma backslash_bound (esc ch : N) :
  backslash esc = Some ch -> (ch < 1114112)%N.
Proof.
  unfold backslash. intros H.
  repeat match type of H with
         | (if ?b then _ else _) = _ =>
             destruct b; [injection H as <-; reflexivity|]
         end.
  discriminate.
Qed.

(** The characters of a string that was scanned are code points. *)
Lemma scanstring_valid_aux (n : nat) :
  forall s acc x r,
    length s <= n -> scanstring s acc = Ok (x, r) ->
    valid_str s = true -> valid_str acc = true -> valid_str x = true.
Proof.
  induction n as [|n IH]; intros s acc x r Hlen H Hs Ha.
  - destruct s; [discriminate H|simpl in Hlen; lia].
  - destruct s as [|c t]; [discriminate H|].
    cbn [valid_str forallb] in Hs. apply andb_true_iff in Hs as [Hc Hs].
    apply N.ltb_lt in Hc. fold (valid_str t) in Hs.
    simpl in H. crunch H; subst; simpl in Hlen;
      try (injection H as <- <-; exact Ha);
      (eapply IH in H;
       [exact H
       |simpl; lia
       |eapply valid_suffix; [|exact Hs];
        repeat first [apply suffix_refl | apply suffix_cons]
       |apply valid_snoc; [exact Ha|]]);
      first [ exact Hc
            | eapply N.lt_trans; [eapply hex4_bound; eassumption|reflexivity]
            | eapply backslash_bound; eassumption
            | eapply join_surrogates_bound; eassumption ].
Qed.

Lemma scanstring_valid (s x r : str) :
  scanstring s [] = Ok (x, r) -> valid_str s = true -> valid_str x = true.
Proof.
  intros H Hs.
  now apply (@scanstring_valid_aux (length s) s [] x r (Nat.le_refl _) H Hs).
Qed.

Lemma uint_digits_length (d : Decimal.uint) :
  length (uint_digits d) = Decimal.nb_digits d.
Proof. induction d; simpl; congruence. Qed.

Lemma digits_uint_length (s : str) :
  Decimal.nb_digits (digits_uint s) = length s.
Proof.
  induction s as [|c s IH]; [reflexivity|]. cbn [digits_uint length].
  cbv zeta.
  repeat match goal with
         | |- context [if ?b then _ else _] => destruct b
         end; simpl; congruence.
Qed.

Lemma int_digits_uint (d : Decimal.uint) :
  int_digits (uint_digits d) = uint_digits d.
Proof. destruct d; reflexivity. Qed.

(** [str(int(text))] has no more digits than [text], or one. *)
Lemma int_str_digits (i : str) :
  length (int_digits (int_str (int_value i)))
  <= Nat.max 1 (length (int_digits i)).
Proof.
  unfold int_value, int_str. destruct i as [|c t]; [simpl; lia|].
  cbn [int_digits]. destruct (c =? 45)%N.
  - rewrite DecimalZ.to_of. cbn [Decimal.norm].
    pose proof (DecimalFacts.nb_digits_nzhead (digits_uint t)) as Hn.
    rewrite digits_uint_length in Hn.
    destruct (Decimal.nzhead (digits_uint t)) eqn:E;
      [apply Nat.le_max_l|..];
      cbn [int_digits N.eqb Pos.eqb]; rewrite uint_digits_length; lia.
  - rewrite DecimalZ.to_of. cbn [Decimal.norm].
    rewrite int_digits_uint, uint_digits_length.
    assert (Hnil : digits_uint (c :: t) <> Decimal.Nil).
    { cbn [digits_uint]. cbv zeta.
      repeat match goal with
             | |- context [if ?b then _ else _] => destruct b
             end; discriminate. }
    pose proof (DecimalFacts.nb_digits_unorm _ Hnil) as Hn.
    rewrite digits_uint_length in Hn. lia.
Qed.

Lemma int_of_str_decoded (m : nat) (i : str) (z : Z) :
  int_of_str m i = Some z -> too_many_digits m (int_str z) = false.
Proof.
  unfold int_of_str. destruct (too_many_digits m i) eqn:E; [discriminate|].
  intros H. injection H as <-.
  pose proof (int_str_digits i) as Hl.
  unfold too_many_digits in *.
  destruct (640 <? length (int_digits (int_str (int_value i)))) eqn:E1;
    [|reflexivity].
  apply Nat.ltb_lt in E1.
  assert (E2 : (640 <? length (int_digits i)) = true)
    by (apply Nat.ltb_lt; lia).
  rewrite E2 in E. cbn [andb] in *.
  destruct (0 <? m); [|reflexivity]. cbn [andb] in *.
  apply Nat.ltb_ge in E. apply Nat.ltb_ge. lia.
Qed.

Lemma array_good (m n : nat) (items : list json) :
  Forall (good m n) items -> good m (S n) (JArray items).
Proof.
  intros H. split.
  - cbn [decoded]. apply forallb_forall. intros x Hx.
    rewrite Forall_forall in H. now apply H.
  - cbn [height]. apply le_n_S.
    induction H as [|x xs [_ Hx] _ IH]; cbn [fold_right]; lia.
Qed.

Lemma object_good (m n : nat) (members : list (str * json)) :
  distinct (map fst members) = true ->
  Forall (good_member m n) members -> good m (S n) (JObject members).
Proof.
  intros Hd H. split.
  - cbn [decoded]. rewrite Hd. cbn [andb].
    apply forallb_forall. intros x Hx.
    rewrite Forall_forall in H. destruct (H x Hx) as [Hk [Hv _]].
    now rewrite Hk, Hv.
  - cbn [height]. apply le_n_S. clear Hd.
    induction H as [|x xs [_ [_ Hx]] _ IH]; cbn [fold_right]; lia.
Qed.

Lemma dict_set_keys (d : list (str * json)) (k : str) (v : json) :
  map fst (dict_set d k v)
  = if existsb (str_eqb k) (map fst d) then map fst d
    else map fst d ++ [k].
Proof.
  induction d as [|[k' v'] d IH]; [reflexivity|].
  cbn [dict_set map fst existsb].
  destruct (str_eqb k' k) eqn:E.
  - apply str_eqb_eq in E. subst k'.
    replace (str_eqb k k) with true by (symmetry; now apply str_eqb_eq).
    reflexivity.
  - replace (str_eqb k k') with false.
    2:{ symmetry. apply not_true_is_false. intros H.
        apply str_eqb_eq in H. subst k'.
        assert (str_eqb k k = true) by now apply str_eqb_eq. congruence. }
    cbn [orb map fst]. rewrite IH.
    destruct (existsb (str_eqb k) (map fst d)); reflexivity.
Qed.

Lemma distinct_snoc (ks : list str) (k : str) :
  distinct ks = true -> existsb (str_eqb k) ks = false ->
  distinct (ks ++ [k]) = true.
Proof.
  induction ks as [|a ks IH]; [reflexivity|].
  cbn [distinct existsb app]. intros Hd Hk.
  apply andb_true_iff in Hd as [Ha Hd].
  apply orb_false_iff in Hk as [Hka Hk].
  rewrite IH by assumption. rewrite andb_true_r.
  rewrite existsb_app. cbn [existsb]. rewrite orb_false_r.
  apply negb_true_iff in Ha. rewrite Ha. cbn [orb].
  apply negb_true_iff. apply not_true_is_false. intros H.
  apply str_eqb_eq in H. subst a.
  assert (str_eqb k k = true) by now apply str_eqb_eq. congruence.
Qed.

Lemma dict_set_distinct (d : list (str * json)) (k : str) (v : json) :
  distinct (map fst d) = true -> distinct (map fst (dict_set d k v)) = true.
Proof.
  intros H. rewrite dict_set_keys.
  destruct (existsb (str_eqb k) (map fst d)) eqn:E; [assumption|].
  now apply distinct_snoc.
Qed.

Lemma dict_set_Forall (Q : str * json -> Prop) (d : list (str * json))
      (k : str) (v : json) :
  Forall Q d -> Q (k, v) -> Forall Q (dict_set d k v).
Proof.
  intros H Hkv. induction H as [|[k' v'] d Hx Hd IH]; cbn [dict_set].
  - now constructor.
  - destruct (str_eqb k' k) eqn:E.
    + apply str_eqb_eq in E. subst k'. now constructor.
    + now constructor.
Qed.

Lemma dict_good (Q : str * json -> Prop) (pairs : list (str * json)) :
  Forall Q pairs ->
  distinct (map fst (dict pairs)) = true /\ Forall Q (dict pairs).
Proof.
  unfold dict. intros H.
  assert (G : forall d, distinct (map fst d) = true -> Forall Q d ->
                        distinct
                          (map fst
                             (fold_left
                                (fun d kv => dict_set d (fst kv) (snd kv))
                                pairs d)) = true
                        /\ Forall Q
                             (fold_left
                                (fun d kv => dict_set d (fst kv) (snd kv))
                                pairs d)).
  { induction H as [|[k v] ps Hx Hps IH]; intros d Hd HQ;
      [now split|].
    cbn [fold_left fst snd]. apply IH.
    - now apply dict_set_distinct.
    - now apply dict_set_Forall. }
  apply G; [reflexivity|constructor].
Qed.

Section Returned.
Variable scan : str -> res (json * str).
Variable m n : nat.
Hypothesis scan_progress :
  forall s v r, scan s = Ok (v, r) -> exists b, closes s r b.
Hypothesis scan_good :
  forall s v r, scan s = Ok (v, r) -> valid_str s = true -> good m n v.

Lemma JSONArray_loop_good (k : nat) :
  forall s vals v r,
    JSONArray_loop scan k s vals = Ok (v, r) ->
    valid_str s = true -> Forall (good m n) vals -> good m (S n) v.
Proof.
  induction k as [|k IH]; intros s vals v r H Hs Hv; [discriminate|].
  simpl in H.
  destruct (scan s) as [[value r0]| | |] eqn:Es; simpl in H; try discriminate.
  pose proof (scan_good Es Hs) as Hg.
  destruct (scan_progress Es) as [b Hb]. apply closes_suffix in Hb.
  assert (Hvals : Forall (good m n) (vals ++ [value])).
  { apply Forall_app. split; [assumption|now constructor]. }
  destruct (skip_ws r0) as [|c r1] eqn:Ew; [discriminate|].
  destruct (suffix_after_ws Hb Ew) as [S1 S2].
  destruct (c =? 93)%N.
  - injection H as <- <-. now apply array_good.
  - destruct (c =? 44)%N; [|discriminate].
    apply IH in H; try assumption.
    eapply valid_suffix; [|exact Hs].
    eapply suffix_trans; [exact S2|apply suffix_skip_ws].
Qed.

Lemma JSONArray_good (s : str) (v : json) (r : str) :
  JSONArray scan s = Ok (v, r) -> valid_str s = true -> good m (S n) v.
Proof.
  unfold JSONArray. intros H Hs.
  destruct (skip_ws s) as [|c r1] eqn:Ew; [discriminate|].
  destruct (c =? 93)%N.
  - injection H as <- <-. apply array_good. constructor.
  - apply JSONArray_loop_good in H; [assumption| |constructor].
    rewrite <- Ew.
    eapply valid_suffix; [apply suffix_skip_ws|exact Hs].
Qed.

Lemma JSONObject_loop_good (k : nat) :
  forall s pairs v r,
    JSONObject_loop scan k s pairs = Ok (v, r) ->
    valid_str s = true -> Forall (good_member m n) pairs ->
    good m (S n) v.
Proof.
  induction k as [|k IH]; intros s pairs v r H Hs Hp; [discriminate|].
  simpl in H.
  destruct (scanstring s []) as [[key r0]| | |] eqn:Ek; simpl in H;
    try discriminate.
  pose proof (scanstring_valid _ Ek Hs) as Hkey.
  apply scanstring_closes, closes_suffix in Ek.
  destruct (skip_ws r0) as [|c r1] eqn:Ew; [discriminate|].
  destruct (suffix_after_ws Ek Ew) as [_ S1].
  destruct (c =? 58)%N; [|discriminate].
  destruct (scan (skip_ws r1)) as [[value r2]| | |] eqn:Es; simpl in H;
    try discriminate.
  assert (Hs1 : valid_str (skip_ws r1) = true).
  { eapply valid_suffix; [|exact Hs].
    eapply suffix_trans; [exact S1|apply suffix_skip_ws]. }
  pose proof (scan_good Es Hs1) as Hg.
  destruct (scan_progress Es) as [b Hb]. apply closes_suffix in Hb.
  assert (S2 : suffix s r2).
  { eapply suffix_trans; [exact S1|].
    eapply suffix_trans; [apply suffix_skip_ws|exact Hb]. }
  assert (Hpairs : Forall (good_member m n) (pairs ++ [(key, value)])).
  { apply Forall_app. split; [assumption|].
    constructor; [|constructor]. now split. }
  destruct (skip_ws r2) as [|d r3] eqn:Ew2; [discriminate|].
  destruct (suffix_after_ws S2 Ew2) as [S3 S4].
  destruct (d =? 125)%N.
  - injection H as <- <-.
    destruct (dict_good Hpairs) as [Hd HQ]. now apply object_good.
  - destruct (d =? 44)%N; [|discriminate].
    destruct (skip_ws r3) as [|q r4] eqn:Ew3; [discriminate|].
    destruct (suffix_after_ws S4 Ew3) as [_ S5].
    destruct (q =? 34)%N; [|discriminate].
    apply IH in H; try assumption.
    eapply valid_suffix; [exact S5|exact Hs].
Qed.

Lemma JSONObject_good (s : str) (v : json) (r : str) :
  JSONObject scan s = Ok (v, r) -> valid_str s = true -> good m (S n) v.
Proof.
  unfold JSONObject. intros H Hs.
  destruct (skip_ws s) as [|c r1] eqn:Ew; [discriminate|].
  destruct (suffix_after_ws (suffix_refl s) Ew) as [S1 S2].
  destruct (c =? 125)%N.
  - injection H as <- <-. apply object_good; [reflexivity|constructor].
  - destruct (c =? 34)%N; [|discriminate].
    apply JSONObject_loop_good in H; [assumption| |constructor].
    eapply valid_suffix; [exact S2|exact Hs].
Qed.
End Returned.

(** What the scanner returns for a text that is a [str]. *)
Lemma scan_once_good (m n : nat) :
  forall s v r,
    scan_once m n s = Ok (v, r) -> valid_str s = true -> good m n v.
Proof.
  induction n as [|n IH]; intros s v r H Hs; [discriminate|].
  assert (P : forall s v r, scan_once m n s = Ok (v, r) ->
                            exists b, closes s r b).
  { intros s0 v0 r0 H0.
    apply scan_once_closes in H0. destruct H0 as [b [Hb _]]. now exists b. }
  assert (L : forall v, decoded m v = true -> height v = 1 -> good m (S n) v).
  { intros v0 Hd Hh. split; [assumption|lia]. }
  destruct s as [|c t]; [discriminate|].
  pose proof Hs as Hs'.
  cbn [valid_str forallb] in Hs. apply andb_true_iff in Hs as [_ Ht].
  fold (valid_str t) in Ht.
  cbn [scan_once] in H. norm_lits.
  destruct (c =? 34)%N.
  { destruct (scanstring t []) as [[x r0]| | |] eqn:Es; simpl in H;
      try discriminate.
    injection H as <- <-. apply L; [|reflexivity].
    cbn [decoded]. eapply scanstring_valid; eassumption. }
  cbv iota in H.
  destruct (c =? 123)%N.
  { apply (@JSONObject_good _ m n P IH) in H; assumption. }
  cbv iota in H.
  destruct (c =? 91)%N.
  { apply (@JSONArray_good _ m n P IH) in H; assumption. }
  cbv iota in H.
  top_if H E1; [injection H as <- <-; now apply L|].
  top_if H E2; [injection H as <- <-; now apply L|].
  top_if H E3; [injection H as <- <-; now apply L|].
  destruct (match_number (c :: t)) as [[[[i f] e] r']|] eqn:En.
  { destruct f, e;
      [destruct (int_of_str m i) as [z|] eqn:Ez; [|discriminate]|..];
      injection H as <- <-; apply L; try reflexivity.
    cbn [decoded]. apply negb_true_iff.
    eapply int_of_str_decoded; eassumption. }
  top_if H E4; [injection H as <- <-; now apply L|].
  top_if H E5; [injection H as <- <-; now apply L|].
  top_if H E6; [injection H as <- <-; now apply L|discriminate].
Qed.

(** What [json.loads] returns for a text that is a [str]: a value
    with integers within the limit of [int], strings of code points
    and mappings with distinct keys, no deeper than the recursion
    limit allows. *)
Lemma loads_good (py : Interpreter) (j : str) (v : json) :
  loads py j = Ok v -> valid_str j = true ->
  decoded (max_str_digits py) v = true
  /\ height v <= S (recursion_depth py).
Proof.
  unfold loads, decode. intros H Hj.
  destruct (startswith j [65279%N]); [discriminate|].
  destruct (scan_once (max_str_digits py) (S (recursion_depth py))
              (skip_ws j)) as [[obj r]| | |] eqn:E;
    simpl in H; try discriminate.
  destruct (skip_ws r); [|discriminate]. injection H as ->.
  apply scan_once_good in E; [exact E|].
  eapply valid_suffix; [apply suffix_skip_ws|exact Hj].
Qed.

End RoundTrip.




Import Notions.

(* ================================================================== *)
(** * More about trimming *)
(* ================================================================== *)

Module StripFacts.
Import PyStrFacts.

Lemma lstrip_split (s : str) :
  exists w, s = w ++ lstrip s /\ forallb isspace w = true.
Proof.
  induction s as [|c s [w [E Hw]]]; [now exists []|].
  simpl. destruct (isspace c) eqn:Hc.
  - exists (c :: w). simpl. rewrite Hc, Hw. split; [congruence|reflexivity].
  - now exists [].
Qed.

Lemma lstrip_head (s : str) (a : N) (t : str) :
  lstrip s = a :: t -> isspace a = false.
Proof.
  induction s as [|c s IH]; simpl; [discriminate|].
  destruct (isspace c) eqn:Hc; [exact IH|].
  intros H. injection H as <- _. exact Hc.
Qed.

Lemma lstrip_nil_iff (s : str) : lstrip s = [] <-> forallb isspace s = true.
Proof.
  induction s as [|c s IH]; simpl; [tauto|].
  destruct (isspace c); simpl; [exact IH|]. split; discriminate.
Qed.

Lemma lstrip_idem (s : str) : lstrip (lstrip s) = lstrip s.
Proof.
  destruct (lstrip s) as [|a t] eqn:E; [reflexivity|].
  apply lstrip_head in E. now apply lstrip_solid.
Qed.

Lemma rstrip_split (s : str) :
  exists w, s = rstrip s ++ w /\ forallb isspace w = true.
Proof.
  unfold rstrip. destruct (lstrip_split (rev s)) as [w [E Hw]].
  exists (rev w). split; [|now rewrite forallb_rev].
  rewrite <- rev_app_distr, <- E. now rewrite rev_involutive.
Qed.

Lemma rstrip_last (s t : str) (b : N) :
  rstrip s = t ++ [b] -> isspace b = false.
Proof.
  unfold rstrip. intros H. apply (f_equal (@rev N)) in H.
  rewrite rev_involutive, rev_app_distr in H. simpl in H.
  now apply lstrip_head in H.
Qed.

Lemma rstrip_nil_iff (s : str) : rstrip s = [] <-> forallb isspace s = true.
Proof.
  unfold rstrip. rewrite <- (forallb_rev isspace s), <- lstrip_nil_iff.
  split; intros H.
  - apply (f_equal (@rev N)) in H. now rewrite rev_involutive in H.
  - now rewrite H.
Qed.

(** Trimming on the right keeps the first character. *)
Lemma rstrip_cons (a : N) (t : str) :
  isspace a = false -> exists t', rstrip (a :: t) = a :: t'.
Proof.
  intros Ha.
  destruct (@NormalizerFacts.rstrip_keeps [] t a Ha) as [z E].
  simpl in E. now exists z.
Qed.

(** What [strip] returns is the text without a run of whitespace at
    each end. *)
Lemma strip_split (s : str) :
  exists w1 w2,
    s = w1 ++ strip s ++ w2
    /\ forallb isspace w1 = true /\ forallb isspace w2 = true.
Proof.
  destruct (lstrip_split s) as [w1 [E1 H1]].
  destruct (rstrip_split (lstrip s)) as [w2 [E2 H2]].
  exists w1, w2. unfold strip. now rewrite <- E2, <- E1.
Qed.

(** It is empty, or starts and ends with characters that are not
    whitespace. *)
Lemma strip_edges (s : str) :
  strip s = []
  \/ exists a t t' b,
       strip s = a :: t /\ a :: t = t' ++ [b]
       /\ isspace a = false /\ isspace b = false.
Proof.
  unfold strip. destruct (lstrip s) as [|a t] eqn:E; [now left|].
  right. pose proof E as Ha. apply lstrip_head in Ha.
  destruct (@rstrip_cons a t Ha) as [t' E'].
  destruct (@exists_last _ (a :: t')) as [l [b El]]; [discriminate|].
  exists a, t', l, b. repeat split; try assumption.
  rewrite El in E'. now apply rstrip_last in E'.
Qed.

Lemma strip_idem (s : str) : strip (strip s) = strip s.
Proof.
  destruct (strip_edges s) as [E|(a & t & t' & b & E & El & Ha & Hb)];
    rewrite E; [reflexivity|].
  apply (@NormalizerFacts.strip_solid t t' a b Ha Hb El).
Qed.

Lemma strip_nil_iff (s : str) : strip s = [] <-> forallb isspace s = true.
Proof.
  unfold strip. rewrite rstrip_nil_iff.
  destruct (lstrip_split s) as [w [E Hw]]. split; intros H.
  - rewrite E, forallb_app, Hw, H. reflexivity.
  - rewrite E, forallb_app in H. apply andb_true_iff in H. tauto.
Qed.

(** Whitespace around a text does not change what [strip] returns. *)
Lemma strip_spaces_around (w1 w2 s : str) :
  forallb isspace w1 = true -> forallb isspace w2 = true ->
  strip (w1 ++ s ++ w2) = strip s.
Proof.
  intros H1 H2.
  destruct (strip_split s) as (v1 & v2 & E & G1 & G2).
  destruct (strip_edges s) as [En|(a & t & t' & b & Es & El & Ha & Hb)].
  - rewrite En. apply strip_nil_iff.
    rewrite E, En, !forallb_app, H1, H2, G1, G2. reflexivity.
  - rewrite E at 1. rewrite Es.
    replace (w1 ++ (v1 ++ (a :: t) ++ v2) ++ w2)
      with ((w1 ++ v1) ++ (a :: t) ++ (v2 ++ w2))
      by (rewrite <- !app_assoc; reflexivity).
    apply (@strip_core (w1 ++ v1) (v2 ++ w2) t t' a b); try assumption.
    + now rewrite forallb_app, H1, G1.
    + now rewrite forallb_app, G2, H2.
Qed.

Lemma infix_refl (s : str) : infix s s.
Proof. exists [], []. now rewrite List.app_nil_r. Qed.

Lemma infix_trans (x y z : str) : infix x y -> infix y z -> infix x z.
Proof.
  intros (a & b & ->) (c & d & ->). exists (c ++ a), (b ++ d).
  now rewrite <- !app_assoc.
Qed.

Lemma infix_app_l (x s p : str) : infix x s -> infix x (p ++ s).
Proof.
  intros (a & b & ->). exists (p ++ a), b. now rewrite <- app_assoc.
Qed.

Lemma infix_app_r (x s q : str) : infix x s -> infix x (s ++ q).
Proof.
  intros (a & b & ->). exists a, (b ++ q). now rewrite <- !app_assoc.
Qed.

Lemma infix_strip (s : str) : infix (strip s) s.
Proof. destruct (strip_split s) as (w1 & w2 & E & _). now exists w1, w2. Qed.

Lemma infix_skipn (n : nat) (s : str) : infix (skipn n s) s.
Proof.
  exists (firstn n s), []. rewrite List.app_nil_r. now rewrite firstn_skipn.
Qed.

Lemma infix_firstn (n : nat) (s : str) : infix (firstn n s) s.
Proof. exists [], (skipn n s). simpl. now rewrite firstn_skipn. Qed.

(** A part of a text that starts and ends with characters that are not
    whitespace survives the trimming of the text. *)
Lemma infix_survives_strip (x s t t' : str) (a b : N) :
  x = a :: t -> x = t' ++ [b] -> isspace a = false -> isspace b = false ->
  infix x s -> infix x (strip s).
Proof.
  intros Ea Eb Ha Hb (p & q & ->). unfold strip.
  rewrite Ea. cbn [app].
  destruct (@NormalizerFacts.lstrip_keeps p (t ++ q) a Ha) as [p' E].
  rewrite E.
  change (p' ++ a :: t ++ q) with (p' ++ (a :: t) ++ q).
  rewrite <- Ea, Eb.
  replace (p' ++ (t' ++ [b]) ++ q) with (((p' ++ t') ++ [b]) ++ q)
    by (rewrite <- !app_assoc; reflexivity).
  destruct (@NormalizerFacts.rstrip_keeps (p' ++ t') q b Hb) as [z Ez].
  rewrite Ez. exists p', z. rewrite Ea, <- Eb in *.
  rewrite Eb. rewrite <- !app_assoc. reflexivity.
Qed.

End StripFacts.


(* ================================================================== *)
(** * More about text extraction *)
(* ================================================================== *)

Section MoreExtraction.
Variable Page : Type.
Variable PdfReader : bytes -> outcome (list Page).
Variable extract_text : Page -> outcome str.
Variable Document : bytes -> outcome (list str).

Lemma pdf_result (file_content : bytes) (pages : list Page)
      (texts : list str) :
  PdfReader file_content = Returns pages ->
  Forall2 (fun p t => extract_text p = Returns t) pages texts ->
  extract_text_from_pdf PdfReader extract_text file_content
  = ([EvTempFile (lit ".pdf") file_content; EvPdfReader; EvUnlink],
     Returns (strip (concat (map page_block (text_pages texts 1))))).
Proof.
  intros Hr Hp. unfold extract_text_from_pdf. simpl. rewrite Hr. simpl.
  rewrite (@pdf_pages_loop_spec Page extract_text pages texts Hp).
  reflexivity.
Qed.

Lemma docx_result (file_content : bytes) (paragraphs : list str) :
  Document file_content = Returns paragraphs ->
  extract_text_from_docx Document file_content
  = ([EvTempFile (lit ".docx") file_content; EvDocument; EvUnlink],
     Returns (strip (concat (map paragraph_line
                                 (filter (fun p => negb (blank p))
                                         paragraphs))))).
Proof.
  intros Hd. unfold extract_text_from_docx. simpl. rewrite Hd. simpl.
  rewrite docx_paragraphs_loop_spec. reflexivity.
Qed.

Lemma blank_iff_spaces (p : str) : blank p = forallb isspace p.
Proof.
  unfold blank. destruct (strip p) eqn:E.
  - symmetry. now apply StripFacts.strip_nil_iff.
  - destruct (forallb isspace p) eqn:F; [|reflexivity].
    apply StripFacts.strip_nil_iff in F. congruence.
Qed.

Lemma spaces_lines (ps : list str) :
  forallb isspace (concat (map paragraph_line
                               (filter (fun p => negb (blank p)) ps)))
  = forallb blank ps.
Proof.
  induction ps as [|p ps IH]; [reflexivity|].
  cbn [filter forallb]. destruct (blank p) eqn:B; cbn [negb andb].
  - exact IH.
  - cbn [map concat]. unfold paragraph_line at 1.
    rewrite !forallb_app, <- blank_iff_spaces, B. reflexivity.
Qed.

Lemma spaces_blocks (texts : list str) (n : nat) :
  forallb isspace (concat (map page_block (text_pages texts n)))
  = forallb textless texts.
Proof.
  revert n. induction texts as [|t texts IH]; intros n; [reflexivity|].
  cbn [text_pages forallb]. destruct t as [|c t]; cbn [textless andb].
  - apply IH.
  - cbn [map concat]. rewrite forallb_app. reflexivity.
Qed.

Lemma pdf_pages_loop_raises (before after : list Page) (bad : Page)
      (texts : list str) (msg : str) :
  Forall2 (fun p t => extract_text p = Returns t) before texts ->
  extract_text bad = Raises msg ->
  forall (page_num : nat) (text : str),
    pdf_pages_loop extract_text (before ++ bad :: after) page_num text
    = Raises msg.
Proof.
  induction 1 as [|p t pages texts Hp _ IH]; intros Hbad page_num text.
  - cbn [app pdf_pages_loop]. now rewrite Hbad.
  - cbn [app pdf_pages_loop]. rewrite Hp. destruct t; now apply IH.
Qed.

Lemma nth_text_page (texts : list str) :
  forall (i n : nat) (t : str),
    nth_error texts i = Some t -> t <> [] ->
    In (n + i, t) (text_pages texts n).
Proof.
  induction texts as [|u texts IH]; intros i n t Hn Ht.
  - destruct i; discriminate.
  - destruct i as [|i]; cbn [nth_error] in Hn.
    + injection Hn as ->. cbn [text_pages].
      destruct t; [contradiction|]. rewrite Nat.add_0_r. now left.
    + cbn [text_pages].
      replace (n + S i) with (S n + i) by lia.
      destruct u; [|right]; now apply IH.
Qed.

Lemma infix_block (numbered : nat * str) (l : list (nat * str)) :
  In numbered l -> infix (page_block numbered) (concat (map page_block l)).
Proof.
  induction l as [|x l IH]; [intros []|].
  intros [->|H]; cbn [map concat].
  - apply StripFacts.infix_app_r, StripFacts.infix_refl.
  - now apply StripFacts.infix_app_l, IH.
Qed.

Lemma infix_label (k : nat) (t : str) : infix (page_label k) (page_block (k, t)).
Proof.
  exists [10%N], ([10%N] ++ t ++ [10%N]).
  unfold page_block, page_marker, page_label. cbn [fst snd].
  rewrite <- !app_assoc. reflexivity.
Qed.

End MoreExtraction.

(** X1: for a valid DOCX the extracted text is empty exactly when every
    paragraph is blank after trimming. *)
Theorem docx_empty_iff_all_blank
  (Document : bytes -> outcome (list str))
  (file_content : bytes) (paragraphs : list str) :
  Document file_content = Returns paragraphs ->
  (snd (extract_text_from_docx Document file_content) = Returns []
   <-> forallb blank paragraphs = true).
Proof.
  intros Hd. rewrite (@docx_result Document file_content paragraphs Hd).
  cbn [snd]. rewrite <- spaces_lines.
  rewrite <- StripFacts.strip_nil_iff. split; [|now intros ->].
  intros H. now injection H.
Qed.

Lemma docx_empty_iff_all_blank_witness :
  snd (extract_text_from_docx
         (fun _ => Returns [lit "  "; []; [9%N; 160%N]]) [80%N; 75%N])
  = Returns [].
Proof.
  apply (proj2 (@docx_empty_iff_all_blank
                  (fun _ => Returns [lit "  "; []; [9%N; 160%N]])
                  [80%N; 75%N] [lit "  "; []; [9%N; 160%N]] eq_refl)).
  reflexivity.
Defined.

(** X2: for a valid PDF the extracted text is empty exactly when no
    page has a text layer; a page whose text is only whitespace still
    gives its marker. *)
Theorem pdf_empty_iff_no_text
  (Page : Type) (PdfReader : bytes -> outcome (list Page))
  (extract_text : Page -> outcome str)
  (file_content : bytes) (pages : list Page) (texts : list str) :
  PdfReader file_content = Returns pages ->
  Forall2 (fun p t => extract_text p = Returns t) pages texts ->
  (snd (extract_text_from_pdf PdfReader extract_text file_content)
   = Returns []
   <-> forallb textless texts = true).
Proof.
  intros Hr Hp.
  rewrite (@pdf_result Page PdfReader extract_text file_content pages texts
             Hr Hp).
  cbn [snd]. rewrite <- (spaces_blocks texts 1).
  rewrite <- StripFacts.strip_nil_iff. split; [|now intros ->].
  intros H. now injection H.
Qed.

Lemma pdf_empty_iff_no_text_witness :
  snd (extract_text_from_pdf
         (fun _ => Returns [[]; []]) (fun page : str => Returns page)
         [37%N; 80%N])
  = Returns [].
Proof.
  apply (proj2 (@pdf_empty_iff_no_text str
                  (fun _ => Returns [[]; []]) (fun page : str => Returns page)
                  [37%N; 80%N] [[]; []] [[]; []] eq_refl
                  (Forall2_cons _ _ eq_refl
                     (Forall2_cons _ _ eq_refl (Forall2_nil _))))).
  reflexivity.
Defined.


(** X3: for a valid PDF, every page that has a text layer is announced
    in the extracted text by the label [--- Page k ---] carrying its
    1-based position in the document, pages without text counted. *)
Theorem pdf_page_labels
  (Page : Type) (PdfReader : bytes -> outcome (list Page))
  (extract_text : Page -> outcome str)
  (file_content : bytes) (pages : list Page) (texts : list str)
  (i : nat) (t : str) :
  PdfReader file_content = Returns pages ->
  Forall2 (fun p t => extract_text p = Returns t) pages texts ->
  nth_error texts i = Some t -> t <> [] ->
  exists text,
    snd (extract_text_from_pdf PdfReader extract_text file_content)
    = Returns text
    /\ infix (page_label (S i)) text.
Proof.
  intros Hr Hp Hn Ht.
  rewrite (@pdf_result Page PdfReader extract_text file_content pages texts
             Hr Hp).
  eexists. split; [reflexivity|].
  apply (@StripFacts.infix_survives_strip (page_label (S i)) _
           (lit "-- Page " ++ int_str (Z.of_nat (S i)) ++ lit " ---")
           (lit "--- Page " ++ int_str (Z.of_nat (S i)) ++ lit " --")
           45%N 45%N); try reflexivity.
  - unfold page_label. rewrite <- !app_assoc. reflexivity.
  - apply StripFacts.infix_trans with (y := page_block (S i, t)).
    + apply infix_label.
    + apply infix_block. apply (@nth_text_page texts i 1 t Hn Ht).
Qed.

Lemma pdf_page_labels_witness :
  exists text,
    snd (extract_text_from_pdf
           (fun _ => Returns [[]; lit "Ada"]) (fun page : str => Returns page)
           [37%N; 80%N])
    = Returns text
    /\ infix (page_label 2) text.
Proof.
  apply (@pdf_page_labels str
           (fun _ => Returns [[]; lit "Ada"]) (fun page : str => Returns page)
           [37%N; 80%N] [[]; lit "Ada"] [[]; lit "Ada"] 1 (lit "Ada") eq_refl
           (Forall2_cons _ _ eq_refl
              (Forall2_cons _ _ eq_refl (Forall2_nil _)))
           eq_refl).
  discriminate.
Defined.

(** X4: whatever [extract_text_from_file] returns, from a PDF or from a
    DOCX, has no whitespace at either end: trimming it again changes
    nothing. *)
Theorem extracted_text_is_trimmed
  (Page : Type) (PdfReader : bytes -> outcome (list Page))
  (extract_text : Page -> outcome str)
  (Document : bytes -> outcome (list str))
  (uploaded_file : UploadedFile) (text : str) :
  snd (snd (extract_text_from_file PdfReader extract_text Document
              uploaded_file))
  = Returns text ->
  strip text = text.
Proof.
  unfold extract_text_from_file. cbn [read fst snd].
  destruct (endswith (lower (name uploaded_file)) (lit ".pdf")).
  - unfold extract_text_from_pdf. simpl.
    destruct (PdfReader _) as [pages|msg]; simpl; [|discriminate].
    destruct (pdf_pages_loop extract_text pages 1 []) as [x|msg]; simpl;
      [|discriminate].
    intros H. injection H as <-. apply StripFacts.strip_idem.
  - destruct (endswith (lower (name uploaded_file)) (lit ".docx")
              || endswith (lower (name uploaded_file)) (lit ".doc")).
    + unfold extract_text_from_docx. simpl.
      destruct (Document _) as [paragraphs|msg]; simpl; [|discriminate].
      intros H. injection H as <-. apply StripFacts.strip_idem.
    + simpl. discriminate.
Qed.

Lemma extracted_text_is_trimmed_witness :
  strip (lit "Ada" ++ [10%N] ++ lit "Lovelace")
  = lit "Ada" ++ [10%N] ++ lit "Lovelace".
Proof.
  apply (@extracted_text_is_trimmed str
           (fun _ => Returns [lit "page"]) (fun page : str => Returns page)
           (fun _ => Returns [lit " Ada"; lit "  "; lit "Lovelace "])
           (mkUpload (lit "cv.docx") [80%N; 75%N] 0)).
  reflexivity.
Defined.

(** X5: the temporary file that the extraction writes is deleted
    exactly when the extraction returns; when the reader, a page or the
    document raises, the file is left behind. *)
Theorem temp_file_unlinked_iff_returns
  (Page : Type) (PdfReader : bytes -> outcome (list Page))
  (extract_text : Page -> outcome str)
  (Document : bytes -> outcome (list str)) (file_content : bytes) :
  existsb is_unlink
    (fst (extract_text_from_pdf PdfReader extract_text file_content))
  = match snd (extract_text_from_pdf PdfReader extract_text file_content) with
    | Returns _ => true
    | Raises _ => false
    end
  /\ existsb is_unlink (fst (extract_text_from_docx Document file_content))
     = match snd (extract_text_from_docx Document file_content) with
       | Returns _ => true
       | Raises _ => false
       end.
Proof.
  split.
  - unfold extract_text_from_pdf. simpl.
    destruct (PdfReader file_content) as [pages|msg]; simpl; [|reflexivity].
    destruct (pdf_pages_loop extract_text pages 1 []); reflexivity.
  - unfold extract_text_from_docx. simpl.
    destruct (Document file_content); reflexivity.
Qed.

(** X6: when the pages before some page give their text and that page
    raises, the extraction raises that page's message behind the prefix
    [Error extracting PDF text: ], whatever the later pages are, and
    after the temporary file was written and the reader opened. *)
Theorem pdf_first_failing_page
  (Page : Type) (PdfReader : bytes -> outcome (list Page))
  (extract_text : Page -> outcome str)
  (file_content : bytes) (before after : list Page) (bad : Page)
  (texts : list str) (msg : str) :
  PdfReader file_content = Returns (before ++ bad :: after) ->
  Forall2 (fun p t => extract_text p = Returns t) before texts ->
  extract_text bad = Raises msg ->
  extract_text_from_pdf PdfReader extract_text file_content
  = ([EvTempFile (lit ".pdf") file_content; EvPdfReader],
     Raises (lit "Error extracting PDF text: " ++ msg)).
Proof.
  intros Hr Hb Hbad. unfold extract_text_from_pdf. simpl. rewrite Hr. simpl.
  rewrite (@pdf_pages_loop_raises Page extract_text before after bad texts
             msg Hb Hbad).
  reflexivity.
Qed.

Lemma pdf_first_failing_page_witness :
  extract_text_from_pdf
    (fun _ => Returns [Returns (lit "Ada"); Raises (lit "bad xref");
                       Raises (lit "later")])
    (fun page : outcome str => page) [37%N; 80%N]
  = ([EvTempFile (lit ".pdf") [37%N; 80%N]; EvPdfReader],
     Raises (lit "Error extracting PDF text: " ++ lit "bad xref")).
Proof.
  apply (@pdf_first_failing_page (outcome str)
           (fun _ => Returns [Returns (lit "Ada"); Raises (lit "bad xref");
                              Raises (lit "later")])
           (fun page : outcome str => page) [37%N; 80%N]
           [Returns (lit "Ada")] [Raises (lit "later")]
           (Raises (lit "bad xref")) [lit "Ada"] (lit "bad xref") eq_refl
           (Forall2_cons _ _ eq_refl (Forall2_nil _)) eq_refl).
Defined.


(* ================================================================== *)
(** * More about the answer of the model *)
(* ================================================================== *)

(** X7: the text that is parsed, and kept as the raw response of a
    failure, is a contiguous part of the model's answer (nothing is
    inserted or reordered) and has no whitespace at either end. *)
Theorem clean_response_part_of_answer (text : str) :
  infix (clean_response text) text
  /\ strip (clean_response text) = clean_response text.
Proof.
  unfold clean_response. split; [|apply StripFacts.strip_idem].
  eapply StripFacts.infix_trans; [apply StripFacts.infix_strip|].
  assert (H1 : infix (if startswith (strip text) (lit "```json")
                      then slice_from 7 (strip text) else strip text) text).
  { destruct (startswith (strip text) (lit "```json")).
    - eapply StripFacts.infix_trans;
        [apply StripFacts.infix_skipn|apply StripFacts.infix_strip].
    - apply StripFacts.infix_strip. }
  match goal with
  | |- infix (if ?b then _ else _) _ => destruct b
  end; [|exact H1].
  eapply StripFacts.infix_trans; [apply StripFacts.infix_firstn|exact H1].
Qed.

Lemma clean_opening_fence_only (w1 w2 t t' : str) (a b : N) :
  forallb isspace w1 = true -> forallb isspace w2 = true ->
  edge a -> edge b -> a :: t = t' ++ [b] ->
  clean_response (lit "```json" ++ [10%N] ++ w1 ++ (a :: t) ++ w2) = a :: t.
Proof.
  intros H1 H2 [Ha Ha'] [Hb Hb'] E. unfold clean_response. norm_lits.
  set (fence := [96; 96; 96; 106; 115; 111; 110]%N).
  assert (S1 : strip (fence ++ [10%N] ++ w1 ++ (a :: t) ++ w2)
               = fence ++ [10%N] ++ w1 ++ (a :: t)).
  { pose proof (@PyStrFacts.strip_core [] w2
                  ([96; 96; 106; 115; 111; 110]%N ++ [10%N] ++ w1 ++ (a :: t))
                  (fence ++ [10%N] ++ w1 ++ t') 96%N b
                  eq_refl H2 eq_refl Hb) as H.
    cbn [app] in H. unfold fence. cbn [app].
    rewrite <- !app_assoc in H. cbn [app] in H.
    apply H. unfold fence. cbn [app]. rewrite E.
    rewrite <- !app_assoc. reflexivity. }
  rewrite S1. unfold fence. rewrite PyStrFacts.startswith_app.
  unfold slice_from.
  change (skipn 7 ([96; 96; 96; 106; 115; 111; 110]%N ++ [10%N] ++ w1
                   ++ a :: t)) with ([10%N] ++ w1 ++ a :: t).
  assert (F : endswith ([10%N] ++ w1 ++ a :: t) [96; 96; 96]%N = false).
  { rewrite E.
    replace ([10%N] ++ w1 ++ t' ++ [b]) with (([10%N] ++ w1 ++ t') ++ [b])
      by (rewrite <- !app_assoc; reflexivity).
    apply (@NormalizerFacts.endswith_last_neq _ [96; 96]%N b 96%N Hb'). }
  rewrite F.
  pose proof (@PyStrFacts.strip_core (10%N :: w1) [] t t' a b) as H.
  rewrite List.app_nil_r in H. apply H; try assumption; try reflexivity.
Qed.

Lemma clean_closing_fence_only (w1 w2 t t' : str) (a b : N) :
  forallb isspace w1 = true -> forallb isspace w2 = true ->
  edge a -> edge b -> a :: t = t' ++ [b] ->
  clean_response ((w1 ++ (a :: t) ++ w2) ++ [10%N] ++ lit "```") = a :: t.
Proof.
  intros H1 H2 [Ha Ha'] [Hb Hb'] E. unfold clean_response. norm_lits.
  set (body := (a :: t) ++ w2 ++ [10%N]).
  assert (S1 : strip ((w1 ++ (a :: t) ++ w2) ++ [10%N] ++ [96; 96; 96]%N)
               = body ++ [96; 96; 96]%N).
  { unfold body.
    replace ((w1 ++ (a :: t) ++ w2) ++ [10%N] ++ [96; 96; 96]%N)
      with (w1 ++ (a :: t ++ w2 ++ [10%N] ++ [96; 96; 96]%N) ++ [])
      by (rewrite List.app_nil_r; cbn [app]; rewrite <- ?app_assoc;
          cbn [app]; rewrite <- ?app_assoc; reflexivity).
    replace (((a :: t) ++ w2 ++ [10%N]) ++ [96; 96; 96]%N)
      with (a :: t ++ w2 ++ [10%N] ++ [96; 96; 96]%N)
      by (cbn [app]; rewrite <- ?app_assoc; reflexivity).
    apply (@PyStrFacts.strip_core w1 []
             (t ++ w2 ++ [10%N] ++ [96; 96; 96]%N)
             ((a :: t) ++ w2 ++ [10%N] ++ [96; 96]%N) a 96%N
             H1 eq_refl Ha eq_refl).
    cbn [app]. rewrite <- ?app_assoc. reflexivity. }
  rewrite S1.
  replace (startswith (body ++ [96; 96; 96]%N)
             [96; 96; 96; 106; 115; 111; 110]%N) with false
    by (symmetry; apply NormalizerFacts.startswith_head_neq; exact Ha').
  rewrite PyStrFacts.endswith_app.
  change 3 with (length [96; 96; 96]%N).
  rewrite (PyStrFacts.slice_drop_last_app body [96; 96; 96]%N).
  unfold body.
  pose proof (@PyStrFacts.strip_core [] (w2 ++ [10%N]) t t' a b
                eq_refl) as H.
  cbn [app] in H. apply H; try assumption.
  rewrite forallb_app, H2. reflexivity.
Qed.

(** X8: the two fences are removed independently of each other: for
    every JSON text, an answer that only opens the fence tagged [json],
    and an answer that only closes a fence, are normalized to the same
    result as the text alone. *)
Theorem normalize_unbalanced_fence (py : Interpreter) (j : str) (v : json) :
  loads py j = Ok v ->
  normalize py (lit "```json" ++ [10%N] ++ j) = normalize py j
  /\ normalize py (j ++ [10%N] ++ lit "```") = normalize py j.
Proof.
  intros H.
  destruct (@DecoderFacts.loads_shape py j v H)
    as (w1 & w2 & a & t & t' & b & -> & E & H1 & H2 & Ha & Hb).
  apply DecoderFacts.ws_spaces in H1, H2.
  unfold normalize.
  rewrite (@clean_opening_fence_only w1 w2 t t' a b H1 H2 Ha Hb E).
  rewrite (@clean_closing_fence_only w1 w2 t t' a b H1 H2 Ha Hb E).
  rewrite (@NormalizerFacts.clean_core w1 w2 t t' a b H1 H2 Ha Hb E).
  split; reflexivity.
Qed.

Lemma normalize_unbalanced_fence_witness :
  normalize cpython (lit "```json" ++ [10%N] ++ qlit "{'summary': 'x'}")
  = normalize cpython (qlit "{'summary': 'x'}")
  /\ normalize cpython (qlit "{'summary': 'x'}" ++ [10%N] ++ lit "```")
     = normalize cpython (qlit "{'summary': 'x'}").
Proof.
  apply (@normalize_unbalanced_fence cpython (qlit "{'summary': 'x'}")
           (JObject [(lit "summary", JString (lit "x"))])).
  reflexivity.
Defined.

(** X9: whitespace around the answer, of any kind that [str.strip]
    removes, does not change the result, for valid and for invalid
    answers alike. *)
Theorem normalize_ignores_outer_whitespace (py : Interpreter)
        (w1 w2 text : str) :
  forallb isspace w1 = true -> forallb isspace w2 = true ->
  normalize py (w1 ++ text ++ w2) = normalize py text.
Proof.
  intros H1 H2. unfold normalize, clean_response.
  now rewrite StripFacts.strip_spaces_around.
Qed.

Lemma normalize_ignores_outer_whitespace_witness :
  normalize cpython ([10%N; 160%N] ++ lit "not json" ++ [32%N; 8232%N])
  = normalize cpython (lit "not json").
Proof.
  apply (@normalize_ignores_outer_whitespace cpython [10%N; 160%N]
           [32%N; 8232%N] (lit "not json")); reflexivity.
Defined.

(* ================================================================== *)
(** * More about the prompt and the call of the model *)
(* ================================================================== *)

Lemma prompt_equation (self : ResumeParser) (resume_text : str) :
  create_parsing_prompt self resume_text
  = Returns (unlines PROMPT_HEAD ++ resume_text ++ unlines PROMPT_TAIL).
Proof.
  unfold create_parsing_prompt, PROMPT. cbn [fstring].
  change (lookup [(lit "resume_text", resume_text)] (lit "resume_text"))
    with (Some resume_text).
  cbv iota. now rewrite List.app_nil_r.
Qed.

(** X10: the prompt determines the text it was built from: two texts
    with the same prompt are the same text, and the text occurs in the
    prompt as it is. *)
Theorem create_parsing_prompt_injective
  (self other : ResumeParser) (text1 text2 : str) :
  (create_parsing_prompt self text1 = create_parsing_prompt other text2 <->
   text1 = text2)
  /\ exists prompt,
       create_parsing_prompt self text1 = Returns prompt
       /\ infix text1 prompt.
Proof.
  rewrite !prompt_equation. split.
  - split; [|now intros ->].
    intros H. injection H as H.
    try apply app_inv_head in H. now apply app_inv_tail in H.
  - eexists. split; [reflexivity|].
    now exists (unlines PROMPT_HEAD), (unlines PROMPT_TAIL).
Qed.

(** X11: a result of [parse_resume_with_ai] without the key [error],
    which is what its callers test, is the value parsed from the answer
    that the model gave to the prompt built from the text: the call
    returned and the cleaned answer is JSON. *)
Theorem parse_resume_with_ai_success (py : Interpreter) (self : ResumeParser)
        (resume_text : str) :
  has_key (lit "error") (parse_resume_with_ai py self resume_text) = false ->
  exists prompt answer,
    create_parsing_prompt self resume_text = Returns prompt
    /\ generate self prompt = Returns answer
    /\ loads py (clean_response answer)
       = Ok (parse_resume_with_ai py self resume_text).
Proof.
  unfold parse_resume_with_ai. rewrite prompt_equation.
  destruct (generate self _) as [answer|msg] eqn:Eg; [|discriminate].
  intros H. eexists. exists answer. split; [reflexivity|]. split; [exact Eg|].
  revert H. unfold normalize.
  destruct (loads py (clean_response answer)); [reflexivity|discriminate..].
Qed.

Lemma parse_resume_with_ai_success_witness :
  exists prompt answer : str,
    create_parsing_prompt
      (mkParser (lit "key") (fun _ => Returns (qlit "{'summary': 'x'}")))
      (lit "Ada")
    = Returns prompt
    /\ generate
         (mkParser (lit "key") (fun _ => Returns (qlit "{'summary': 'x'}")))
         prompt
       = Returns answer
    /\ loads cpython (clean_response answer)
       = Ok (parse_resume_with_ai cpython
               (mkParser (lit "key")
                  (fun _ => Returns (qlit "{'summary': 'x'}")))
               (lit "Ada")).
Proof.
  apply (@parse_resume_with_ai_success cpython
           (mkParser (lit "key") (fun _ => Returns (qlit "{'summary': 'x'}")))
           (lit "Ada")).
  reflexivity.
Defined.

(* ================================================================== *)
(** * Facts about the page *)
(* ================================================================== *)

Import View.
Local Open Scope view_scope.

Module ViewFacts.

Lemma returns_bind (A B : Type) (m : ui A) (k : A -> ui B) :
  returns (uibind m k)
  = match snd m with
    | Done a => returns (k a)
    | Raised _ => false
    end.
Proof.
  destruct m as [tr [a|e]]; cbn; [|reflexivity].
  unfold returns. now destruct (k a).
Qed.

Lemma returns_within (A : Type) (b : block) (body : ui A) :
  returns (within b body) = returns body.
Proof. now destruct body. Qed.

Lemma returns_for_each (A : Type) (l : list A) (body : A -> ui unit) :
  returns (for_each l body) = forallb (fun x => returns (body x)) l.
Proof.
  induction l as [|x l IH]; [reflexivity|].
  cbn [for_each forallb]. rewrite returns_bind.
  unfold returns at 2. destruct (snd (body x)); [exact IH|reflexivity].
Qed.

Lemma returns_seq (A B : Type) (m : ui A) (k : ui B) :
  returns (uibind m (fun _ => k)) = returns m && returns k.
Proof.
  rewrite returns_bind. unfold returns at 2. now destruct (snd m).
Qed.

(** A computation all of whose calls only draw. *)
Lemma draws_bind (A B : Type) (m : ui A) (k : A -> ui B) :
  forallb draws (fst m) = true ->
  (forall a, forallb draws (fst (k a)) = true) ->
  forallb draws (fst (uibind m k)) = true.
Proof.
  intros Hm Hk. destruct m as [tr [a|e]]; cbn in *; [|exact Hm].
  specialize (Hk a). destruct (k a) as [tr' r]. cbn in *.
  now rewrite forallb_app, Hm, Hk.
Qed.

Lemma draws_within (A : Type) (b : block) (body : ui A) :
  draws (Enter b) = true ->
  forallb draws (fst body) = true ->
  forallb draws (fst (within b body)) = true.
Proof.
  intros Hb H. destruct body as [tr r]. cbn [within fst forallb] in *.
  now rewrite Hb, forallb_app, H.
Qed.

Lemma draws_for_each (A : Type) (l : list A) (body : A -> ui unit) :
  (forall x, forallb draws (fst (body x)) = true) ->
  forallb draws (fst (for_each l body)) = true.
Proof.
  intros H. induction l as [|x l IH]; [reflexivity|].
  cbn [for_each]. apply draws_bind; [apply H|intros _; exact IH].
Qed.

Ltac draws_tac :=
  repeat first
    [ reflexivity
    | apply draws_for_each; intros
    | apply draws_within; [reflexivity|]
    | apply draws_bind; [|intros]
    | match goal with
      | |- forallb draws (fst (if ?b then _ else _)) = true => destruct b
      | |- forallb draws (fst (match ?x with _ => _ end)) = true =>
          destruct x
      | |- forallb draws (fst (let (_, _) := ?x in _)) = true => destruct x
      end ].

Section Sections.
Variable float_is_zero : str -> bool.
Variable repr : json -> str.

Lemma assoc_truthy (members : list (str * json)) (key : str) :
  truthy float_is_zero
    match assoc members key with Some v => v | None => JNull end = true ->
  exists v, assoc members key = Some v.
Proof.
  destruct (assoc members key) as [v|]; [now exists v|discriminate].
Qed.

Lemma returns_field (members : list (str * json)) (key : string)
  (before after : str) :
  returns (field float_is_zero repr (JObject members) key before after)
  = true.
Proof.
  unfold field. cbn [get eval uibind app].
  destruct (truthy _ _) eqn:E; [|reflexivity].
  apply assoc_truthy in E as [v E]. cbn [subscript]. now rewrite E.
Qed.

Lemma returns_tag_field (members : list (str * json)) (key : string)
  (title : str) :
  returns (tag_field float_is_zero repr (JObject members) key title)
  = optional float_is_zero iterable (member (JObject members) key).
Proof.
  unfold tag_field, optional, member. cbn [get eval uibind app].
  destruct (truthy _ _) eqn:E; [|reflexivity].
  apply assoc_truthy in E as [v E]. cbn [subscript]. rewrite E.
  now destruct v.
Qed.

Lemma returns_bullet_field (members : list (str * json)) (key : string)
  (title : str) :
  returns (bullet_field float_is_zero repr (JObject members) key title)
  = optional float_is_zero iterable (member (JObject members) key).
Proof.
  unfold bullet_field, optional, member. cbn [get eval uibind app].
  destruct (truthy _ _) eqn:E; [|reflexivity].
  apply assoc_truthy in E as [v E]. cbn [subscript]. rewrite E.
  destruct v; try reflexivity; cbn [iter eval uibind markdown st negb orb iterable app];
    match goal with
    | |- context [for_each ?l ?b] =>
        generalize (returns_for_each l b); destruct (for_each l b) as [tr r]
    end; unfold returns; cbn [snd]; intros ->;
    apply forallb_forall; reflexivity.
Qed.

Lemma returns_field_any (obj : json) (key : string) (before after : str) :
  returns (field float_is_zero repr obj key before after) = is_dict obj.
Proof.
  destruct obj; try reflexivity. apply returns_field.
Qed.

Lemma returns_tag_field_any (obj : json) (key : string) (title : str) :
  returns (tag_field float_is_zero repr obj key title)
  = is_dict obj && optional float_is_zero iterable (member obj key).
Proof.
  destruct obj; try reflexivity. apply returns_tag_field.
Qed.

Lemma returns_bullet_field_any (obj : json) (key : string) (title : str) :
  returns (bullet_field float_is_zero repr obj key title)
  = is_dict obj && optional float_is_zero iterable (member obj key).
Proof.
  destruct obj; try reflexivity. apply returns_bullet_field.
Qed.

Lemma returns_get (A : Type) (obj : json) (key : str) (default : json)
  (k : json -> ui A) :
  returns (uibind (eval (get obj key default)) k)
  = is_dict obj
    && returns (k match obj with
                  | JObject members =>
                      match assoc members key with
                      | Some v => v
                      | None => default
                      end
                  | _ => JNull
                  end).
Proof.
  rewrite returns_bind. now destruct obj.
Qed.

Lemma returns_iter (obj : json) (body : json -> ui unit) :
  returns (uibind (eval (iter obj)) (fun items => for_each items body))
  = match iter obj with
    | Done items => forallb (fun x => returns (body x)) items
    | Raised _ => false
    end.
Proof.
  rewrite returns_bind. cbn [eval snd].
  destruct (iter obj); [apply returns_for_each|reflexivity].
Qed.

Ltac returns_norm :=
  repeat first
    [ rewrite returns_seq | rewrite returns_within
    | rewrite returns_field_any | rewrite returns_tag_field_any
    | rewrite returns_bullet_field_any ];
  change (returns (markdown_html ?x)) with true;
  change (returns (markdown ?x)) with true;
  change (returns (st ?f ?a)) with true.

Lemma returns_display_personal_info (v : json) :
  returns (display_personal_info float_is_zero repr v)
  = optional float_is_zero is_dict v.
Proof.
  unfold display_personal_info, optional.
  destruct (truthy float_is_zero v); [|reflexivity].
  cbn [negb orb]. returns_norm.
  change (returns (markdown_html ?x)) with true.
  change (returns (st ?f ?a)) with true.
  now destruct (is_dict v).
Qed.

Lemma returns_display_summary (v : json) :
  returns (display_summary float_is_zero repr v)
  = optional float_is_zero is_text v.
Proof.
  unfold display_summary, optional.
  destruct (truthy float_is_zero v) eqn:E.
  - destruct v; try reflexivity.
    cbn [strip_method eval uibind app is_text negb orb].
    destruct (truthy float_is_zero (JString (strip s))); reflexivity.
  - cbn [ret uibind]. now rewrite E.
Qed.

Lemma forallb_eq (A : Type) (f g : A -> bool) (l : list A) :
  (forall x, f x = g x) -> forallb f l = forallb g l.
Proof.
  intros H. induction l as [|x l IH]; [reflexivity|].
  cbn [forallb]. now rewrite H, IH.
Qed.

Lemma forallb_enumerate (A : Type) (f : A -> bool) (l : list A) (n : nat) :
  forallb (fun ix : nat * A => f (snd ix)) (combine (seq n (length l)) l)
  = forallb f l.
Proof.
  revert n. induction l as [|x l IH]; intros n; [reflexivity|].
  cbn [length seq combine forallb snd]. now rewrite IH.
Qed.

Lemma dict_with_one (key : string) (v : json) :
  dict_with float_is_zero [key] v
  = is_dict v && optional float_is_zero iterable (member v key).
Proof.
  unfold dict_with. cbn [forallb]. now rewrite andb_true_r.
Qed.

Lemma returns_list_of (body : json -> ui unit) (shape : json -> bool)
  (v : json) :
  (forall x, returns (body x) = shape x) ->
  (forall x, is_dict x = false -> shape x = false) ->
  truthy float_is_zero v = true ->
  match iter v with
  | Done items => forallb (fun x => returns (body x)) items
  | Raised _ => false
  end
  = list_of shape v.
Proof.
  intros Hb Hd Hv. destruct v; try reflexivity.
  - (* a string: its characters are no dicts *)
    destruct s as [|c s]; [discriminate|].
    cbn [iter map forallb list_of]. now rewrite Hb, Hd.
  - cbn [iter list_of]. apply forallb_eq. intros x. apply Hb.
  - (* a dict: its keys are no dicts *)
    destruct members as [|kv members]; [discriminate|].
    cbn [iter map forallb list_of]. now rewrite Hb, Hd.
Qed.

Lemma dict_with_dict (keys : list string) (x : json) :
  is_dict x = false -> dict_with float_is_zero keys x = false.
Proof. unfold dict_with. now intros ->. Qed.

Lemma returns_display_experience (v : json) :
  returns (display_experience float_is_zero repr v)
  = optional float_is_zero
      (list_of (dict_with float_is_zero ["technologies"%string])) v.
Proof.
  unfold display_experience, optional.
  destruct (truthy float_is_zero v) eqn:E; [|reflexivity].
  cbn [negb orb]. rewrite returns_seq.
  change (returns (markdown_html ?x)) with true. cbn [andb].
  rewrite returns_bind. cbn [eval snd].
  rewrite <- (@returns_list_of
                (fun exp =>
                   (company <- eval (get exp (lit "company")
                                       (JString (lit "Unknown Company"))) ;;
                    position <- eval (get exp (lit "position")
                                        (JString (lit "Unknown Position"))) ;;
                    within
                      (Call "expander"
                         [Pos (JString (ulit "🏢 " ++ py_str repr company
                                        ++ lit " - "
                                        ++ py_str repr position));
                          Kw "expanded" (JBool false)])
                      (st "columns" [Pos (JArray [JInt 2; JInt 1])] ;;;
                       within (Column 0)
                         (field float_is_zero repr exp "position"
                            (lit "**Position:** ") [] ;;;
                          field float_is_zero repr exp "description"
                            (lit "**Description:** ") []) ;;;
                       within (Column 1)
                         (field float_is_zero repr exp "duration"
                            (lit "**Duration:** ") [] ;;;
                          field float_is_zero repr exp "location"
                            (lit "**Location:** ") []) ;;;
                       tag_field float_is_zero repr exp "technologies"
                         (lit "**Technologies Used:**")))%view)
                _ v); try assumption.
  - destruct (iter v) as [items|e]; [|reflexivity].
    rewrite returns_for_each. unfold enumerate.
    rewrite <- (forallb_enumerate _ items 0).
    apply forallb_eq. intros [i exp]. cbn [snd].
    rewrite !returns_get. destruct (is_dict exp); [|reflexivity].
    cbn [andb]. now rewrite !returns_within.
  - intros exp. rewrite !returns_get, dict_with_one.
    destruct (is_dict exp) eqn:Ed; [|reflexivity]. cbn [andb].
    returns_norm. now rewrite Ed.
  - intros x. apply dict_with_dict.
Qed.

Lemma returns_each_dict (body : json -> ui unit) (shape : json -> bool)
  (v : json) :
  (forall x, returns (body x) = shape x) ->
  (forall x, is_dict x = false -> shape x = false) ->
  truthy float_is_zero v = true ->
  returns (uibind (eval (iter v)) (fun items => for_each items body))
  = list_of shape v.
Proof.
  intros Hb Hd Hv. rewrite returns_iter.
  now apply returns_list_of.
Qed.

Lemma returns_display_education (v : json) :
  returns (display_education float_is_zero repr v)
  = optional float_is_zero
      (list_of (dict_with float_is_zero ["coursework"%string])) v.
Proof.
  unfold display_education, optional.
  destruct (truthy float_is_zero v) eqn:E; [|reflexivity].
  cbn [negb orb]. rewrite returns_seq.
  change (returns (markdown_html ?x)) with true. cbn [andb].
  apply returns_each_dict; try assumption.
  - intros edu. rewrite !returns_get, dict_with_one.
    destruct (is_dict edu) eqn:Ed; [|reflexivity]. cbn [andb].
    returns_norm. now rewrite Ed.
  - intros x. apply dict_with_dict.
Qed.

Lemma returns_display_skills (v : json) :
  returns (display_skills float_is_zero repr v)
  = optional float_is_zero
      (dict_with float_is_zero
         ["technical"; "programming"; "tools"; "soft_skills"]%string) v.
Proof.
  unfold display_skills, optional, dict_with.
  destruct (truthy float_is_zero v); [|reflexivity].
  cbn [negb orb forallb]. returns_norm.
  change (returns (markdown_html ?x)) with true.
  change (returns (st ?f ?a)) with true.
  destruct (is_dict v); [|reflexivity]. cbn [andb].
  now rewrite andb_true_r, !andb_assoc.
Qed.

Lemma returns_display_projects (v : json) :
  returns (display_projects float_is_zero repr v)
  = optional float_is_zero
      (list_of (dict_with float_is_zero ["technologies"%string])) v.
Proof.
  unfold display_projects, optional.
  destruct (truthy float_is_zero v) eqn:E; [|reflexivity].
  cbn [negb orb]. rewrite returns_seq.
  change (returns (markdown_html ?x)) with true. cbn [andb].
  apply returns_each_dict; try assumption.
  - intros project. rewrite !returns_get, dict_with_one.
    destruct (is_dict project) eqn:Ed; [|reflexivity]. cbn [andb].
    returns_norm. now rewrite Ed.
  - intros x. apply dict_with_dict.
Qed.

Lemma returns_display_certifications (v : json) :
  returns (display_certifications float_is_zero repr v)
  = optional float_is_zero iterable v.
Proof.
  unfold display_certifications, optional.
  destruct (truthy float_is_zero v) eqn:E; [|reflexivity].
  cbn [negb orb]. rewrite returns_seq.
  change (returns (markdown_html ?x)) with true. cbn [andb].
  rewrite returns_iter.
  destruct v; try reflexivity; cbn [iter iterable];
    apply forallb_forall; intros cert _; now destruct cert.
Qed.

Lemma returns_display_additional_info (v : json) :
  returns (display_additional_info float_is_zero repr v)
  = optional float_is_zero
      (dict_with float_is_zero
         ["awards"; "publications"; "volunteer"; "interests"]%string) v.
Proof.
  unfold display_additional_info, optional, dict_with.
  destruct (truthy float_is_zero v); [|reflexivity].
  cbn [negb orb forallb]. returns_norm.
  change (returns (markdown_html ?x)) with true.
  change (returns (st ?f ?a)) with true.
  destruct (is_dict v); [|reflexivity]. cbn [andb].
  now rewrite andb_true_r, !andb_assoc.
Qed.

Lemma draws_field (obj : json) (key : string) (before after : str) :
  forallb draws (fst (field float_is_zero repr obj key before after)) = true.
Proof. unfold field. draws_tac. Qed.

Lemma draws_tag_field (obj : json) (key : string) (title : str) :
  forallb draws (fst (tag_field float_is_zero repr obj key title)) = true.
Proof. unfold tag_field, skill_tags. draws_tac. Qed.

Lemma draws_bullet_field (obj : json) (key : string) (title : str) :
  forallb draws (fst (bullet_field float_is_zero repr obj key title)) = true.
Proof. unfold bullet_field. draws_tac. Qed.

Ltac draws_sections :=
  repeat first
    [ apply draws_field | apply draws_tag_field | apply draws_bullet_field
    | reflexivity
    | apply draws_for_each; intros
    | apply draws_within; [reflexivity|]
    | apply draws_bind; [|intros]
    | match goal with
      | |- forallb draws (fst (if ?b then _ else _)) = true => destruct b
      | |- forallb draws (fst (match ?x with _ => _ end)) = true =>
          destruct x
      | |- forallb draws (fst (let (_, _) := ?x in _)) = true => destruct x
      end ].

Lemma draws_display_personal_info (v : json) :
  forallb draws (fst (display_personal_info float_is_zero repr v)) = true.
Proof. unfold display_personal_info. draws_sections. Qed.

Lemma draws_display_summary (v : json) :
  forallb draws (fst (display_summary float_is_zero repr v)) = true.
Proof. unfold display_summary. draws_sections. Qed.

Lemma draws_display_experience (v : json) :
  forallb draws (fst (display_experience float_is_zero repr v)) = true.
Proof. unfold display_experience. draws_sections. Qed.

Lemma draws_display_education (v : json) :
  forallb draws (fst (display_education float_is_zero repr v)) = true.
Proof. unfold display_education. draws_sections. Qed.

Lemma draws_display_skills (v : json) :
  forallb draws (fst (display_skills float_is_zero repr v)) = true.
Proof. unfold display_skills. draws_sections. Qed.

Lemma draws_display_projects (v : json) :
  forallb draws (fst (display_projects float_is_zero repr v)) = true.
Proof. unfold display_projects. draws_sections. Qed.

Lemma draws_display_certifications (v : json) :
  forallb draws (fst (display_certifications float_is_zero repr v)) = true.
Proof. unfold display_certifications. draws_sections. Qed.

Lemma draws_display_additional_info (v : json) :
  forallb draws (fst (display_additional_info float_is_zero repr v)) = true.
Proof. unfold display_additional_info. draws_sections. Qed.

Lemma draws_display_parsed_results (v : json) :
  forallb draws (fst (display_parsed_results float_is_zero repr v)) = true.
Proof.
  unfold display_parsed_results.
  apply draws_bind; [now destruct (negb _)|intros failed].
  destruct failed.
  - apply draws_bind; [reflexivity|intros _].
    apply draws_bind; [reflexivity|intros raw].
    destruct raw; [|reflexivity].
    apply draws_within; [reflexivity|].
    apply draws_bind; [reflexivity|intros x; reflexivity].
  - apply draws_bind; [reflexivity|intros personal_info].
    apply draws_bind; [apply draws_display_personal_info|intros _].
    apply draws_bind; [reflexivity|intros summary].
    apply draws_bind; [apply draws_display_summary|intros _].
    apply draws_bind; [reflexivity|intros experience].
    apply draws_bind; [apply draws_display_experience|intros _].
    apply draws_bind; [reflexivity|intros education].
    apply draws_bind; [apply draws_display_education|intros _].
    apply draws_bind; [reflexivity|intros skills].
    apply draws_bind; [apply draws_display_skills|intros _].
    apply draws_bind; [reflexivity|intros projects].
    apply draws_bind; [apply draws_display_projects|intros _].
    apply draws_bind; [reflexivity|intros certifications].
    apply draws_bind; [apply draws_display_certifications|intros _].
    apply draws_bind; [reflexivity|intros additional].
    apply draws_display_additional_info.
Qed.

End Sections.
End ViewFacts.

Lemma existsb_assoc (members : list (str * json)) (key : str) :
  existsb (fun kv => str_eqb (fst kv) key) members
  = match assoc members key with
    | Some _ => true
    | None => false
    end.
Proof.
  induction members as [|[k v] members IH]; [reflexivity|].
  cbn [existsb assoc fst]. now destruct (str_eqb k key).
Qed.

Lemma uibind_done (A B : Type) (a : A) (k : A -> ui B) :
  uibind ([], Done a) k = k a.
Proof. cbn. now destruct (k a). Qed.

(** X12: [display_parsed_results] raises exactly on the values that are
    not [displayable]: on a non-empty dict without the key [error]
    whose sections have another shape than the page expects (a section
    that is present and not empty must be a dict, a text, or a list of
    dicts, and the lists inside must be iterable), and on values that
    are no dict, list or string. *)
Theorem display_parsed_results_returns
  (float_is_zero : str -> bool) (repr : json -> str) (parsed_data : json) :
  returns (display_parsed_results float_is_zero repr parsed_data)
  = displayable float_is_zero parsed_data.
Proof.
  unfold display_parsed_results.
  destruct parsed_data as [|b|z|literal|s|items|members].
  - reflexivity.
  - now destruct b.
  - cbn [truthy]. now destruct (z =? 0)%Z.
  - cbn [truthy]. now destruct (float_is_zero literal).
  - destruct s as [|c s]; [reflexivity|].
    cbn [truthy nonempty negb contains eval ret uibind displayable orb app].
    destruct (substring (lit "error") (c :: s)); [|reflexivity].
    cbn [andb st]. now destruct (substring (lit "raw_response") (c :: s)).
  - destruct items as [|x items]; [reflexivity|].
    cbn [truthy nonempty negb contains eval ret uibind displayable orb app].
    destruct (existsb (is_str (lit "error")) (x :: items)); [|reflexivity].
    cbn [andb st].
    now destruct (existsb (is_str (lit "raw_response")) (x :: items)).
  - destruct members as [|kv members]; [reflexivity|].
    change (truthy float_is_zero (JObject (kv :: members))) with true.
    cbn [negb contains displayable nonempty orb].
    unfold eval at 1. rewrite uibind_done.
    destruct (existsb _ (kv :: members)) eqn:E.
    + rewrite ViewFacts.returns_seq.
      change (returns (st ?f ?a)) with true. cbn [andb].
      unfold eval at 1. rewrite uibind_done, existsb_assoc.
      destruct (assoc (kv :: members) (lit "raw_response")) eqn:Er;
        [|reflexivity].
      rewrite ViewFacts.returns_within. cbn [subscript]. now rewrite Er.
    + rewrite ViewFacts.returns_get. cbn [is_dict andb].
      rewrite ViewFacts.returns_seq,
        ViewFacts.returns_display_personal_info.
      rewrite ViewFacts.returns_get. cbn [is_dict andb].
      rewrite ViewFacts.returns_seq, ViewFacts.returns_display_summary.
      rewrite ViewFacts.returns_get. cbn [is_dict andb].
      rewrite ViewFacts.returns_seq, ViewFacts.returns_display_experience.
      rewrite ViewFacts.returns_get. cbn [is_dict andb].
      rewrite ViewFacts.returns_seq, ViewFacts.returns_display_education.
      rewrite ViewFacts.returns_get. cbn [is_dict andb].
      rewrite ViewFacts.returns_seq, ViewFacts.returns_display_skills.
      rewrite ViewFacts.returns_get. cbn [is_dict andb].
      rewrite ViewFacts.returns_seq, ViewFacts.returns_display_projects.
      rewrite ViewFacts.returns_get. cbn [is_dict andb].
      rewrite ViewFacts.returns_seq,
        ViewFacts.returns_display_certifications.
      rewrite ViewFacts.returns_get. cbn [is_dict andb].
      rewrite ViewFacts.returns_display_additional_info.
      unfold displayable_sections, member.
      now rewrite !andb_assoc.
Qed.

(** X13: a dict that has the key [error], as every record that
    [parse_resume_with_ai] makes of a failure, is displayed as the
    failure message, followed by the raw response if the dict has one,
    and nothing else: no section is shown, whatever else the dict
    holds, and nothing is raised. *)
Theorem display_failure
  (float_is_zero : str -> bool) (repr : json -> str)
  (members : list (str * json)) :
  has_key (lit "error") (JObject members) = true ->
  display_parsed_results float_is_zero repr (JObject members)
  = (failure_view (assoc members (lit "raw_response")), Done tt).
Proof.
  intros H. unfold display_parsed_results.
  assert (Hf : (if negb (truthy float_is_zero (JObject members))
                then ret true
                else eval (contains (lit "error") (JObject members)))
               = ([], Done true)).
  { destruct (negb _); [reflexivity|]. cbn [contains eval].
    cbn [has_key] in H. now rewrite H. }
  rewrite Hf, uibind_done. cbn [contains eval].
  rewrite existsb_assoc. unfold failure_view.
  destruct (assoc members (lit "raw_response")) as [x|] eqn:E;
    [|reflexivity].
  cbn [subscript]. rewrite E. reflexivity.
Qed.

Lemma display_failure_witness :
  display_parsed_results (fun _ => false) (fun _ => [])
    (normalize cpython (lit "not json"))
  = (failure_view (Some (JString (lit "not json"))), Done tt).
Proof.
  apply (@display_failure (fun _ => false) (fun _ => [])
           [(lit "error", JString (lit "JSON parsing failed"));
            (lit "raw_response", JString (lit "not json"))]).
  reflexivity.
Defined.

(** X14: the page reads the answer under ten keys only: two dicts that
    agree on [error], [raw_response] and the eight section keys, and
    are both empty or both not, are displayed alike, whatever other
    keys they hold and in whatever order. *)
Theorem display_reads_known_keys
  (float_is_zero : str -> bool) (repr : json -> str)
  (members1 members2 : list (str * json)) :
  nonempty members1 = nonempty members2 ->
  (forall key,
     In key ("error" :: "raw_response" :: section_keys)%string ->
     assoc members1 (lit key) = assoc members2 (lit key)) ->
  display_parsed_results float_is_zero repr (JObject members1)
  = display_parsed_results float_is_zero repr (JObject members2).
Proof.
  intros Hn Hk. unfold display_parsed_results.
  cbn [truthy contains get subscript]. rewrite !existsb_assoc, Hn.
  rewrite !(Hk "error"%string), !(Hk "raw_response"%string),
    !(Hk "personal_info"%string), !(Hk "summary"%string),
    !(Hk "experience"%string), !(Hk "education"%string),
    !(Hk "skills"%string), !(Hk "projects"%string),
    !(Hk "certifications"%string), !(Hk "additional"%string);
    first [reflexivity | cbn [In section_keys]; tauto].
Qed.

Lemma display_reads_known_keys_witness :
  display_parsed_results (fun _ => false) (fun _ => [])
    (JObject [(lit "summary", JString (lit "Engineer"));
              (lit "hobby", JString (lit "chess"))])
  = display_parsed_results (fun _ => false) (fun _ => [])
      (JObject [(lit "notes", JNull);
                (lit "summary", JString (lit "Engineer"))]).
Proof.
  apply (@display_reads_known_keys (fun _ => false) (fun _ => [])
           [(lit "summary", JString (lit "Engineer"));
            (lit "hobby", JString (lit "chess"))]
           [(lit "notes", JNull);
            (lit "summary", JString (lit "Engineer"))] eq_refl).
  intros key H. cbn [In section_keys] in H.
  repeat (destruct H as [<-|H]; [reflexivity|]). destruct H.
Defined.

(** X15: a dict that is not empty, has no key [error] and has none of
    the eight sections (each is absent, [None] or empty) is displayed
    as nothing at all: no section, and no message either. *)
Theorem display_nothing
  (float_is_zero : str -> bool) (repr : json -> str)
  (members : list (str * json)) :
  nonempty members = true ->
  has_key (lit "error") (JObject members) = false ->
  forallb (fun key => negb (truthy float_is_zero (member (JObject members) key)))
    section_keys = true ->
  display_parsed_results float_is_zero repr (JObject members)
  = ([], Done tt).
Proof.
  intros Hn He Hs. unfold display_parsed_results.
  cbn [truthy contains has_key] in *. rewrite Hn, He.
  cbn [negb]. unfold eval. rewrite uibind_done.
  cbn [section_keys forallb member] in Hs.
  repeat match type of Hs with
         | (_ && _)%bool = true => apply andb_true_iff in Hs as [?H Hs]
         end.
  repeat match goal with
         | H : negb _ = true |- _ => apply negb_true_iff in H
         end.
  unfold get, display_personal_info, display_summary, display_experience,
    display_education, display_skills, display_projects,
    display_certifications, display_additional_info, ret.
  rewrite uibind_done, H. cbn [negb]. rewrite uibind_done.
  rewrite uibind_done, H0, uibind_done, H0, uibind_done.
  rewrite uibind_done, H1. cbn [negb]. rewrite uibind_done.
  rewrite uibind_done, H2. cbn [negb]. rewrite uibind_done.
  rewrite uibind_done, H3. cbn [negb]. rewrite uibind_done.
  rewrite uibind_done, H4. cbn [negb]. rewrite uibind_done.
  rewrite uibind_done, H5. cbn [negb]. rewrite uibind_done.
  rewrite uibind_done, H6. reflexivity.
Qed.

Lemma display_nothing_witness :
  display_parsed_results (fun _ => false) (fun _ => [])
    (JObject [(lit "name", JString (lit "Ada"));
              (lit "skills", JObject []); (lit "summary", JNull)])
  = ([], Done tt).
Proof.
  apply (@display_nothing (fun _ => false) (fun _ => [])
           [(lit "name", JString (lit "Ada"));
            (lit "skills", JObject []); (lit "summary", JNull)]);
    reflexivity.
Defined.
Import View App.

(* ================================================================== *)
(** * Facts about the application *)
(* ================================================================== *)

Module AppFacts.

Lemma app_bind_done (A B : Type) (tr : list act) (state : SessionState)
  (a : A) (m : app A) (k : A -> app B) (state0 : SessionState) :
  m state0 = (tr, (state, Done a)) ->
  appbind m k state0 = (tr ++ fst (k a state), snd (k a state)).
Proof.
  intros H. unfold appbind. rewrite H. now destruct (k a state).
Qed.

Lemma app_bind_raised (A B : Type) (tr : list act) (state : SessionState)
  (e : exn) (m : app A) (k : A -> app B) (state0 : SessionState) :
  m state0 = (tr, (state, Raised e)) ->
  appbind m k state0 = (tr, (state, Raised e)).
Proof.
  intros H. unfold appbind. now rewrite H.
Qed.

Lemma world_no_generate (events : list event) :
  filter is_generate (map World events) = [].
Proof.
  induction events as [|ev l IH]; [reflexivity|exact IH].
Qed.

Lemma fst_uibind (A B : Type) (m : ui A) (k : A -> ui B) :
  fst (uibind m k)
  = fst m ++ match snd m with
             | Done a => fst (k a)
             | Raised _ => []
             end.
Proof.
  destruct m as [tr [a|e]]; cbn; [|now rewrite List.app_nil_r].
  now destruct (k a).
Qed.

Lemma draws_no_button (tr : list act) :
  forallb draws tr = true -> existsb is_button tr = false.
Proof.
  induction tr as [|a tr IH]; [reflexivity|]. cbn [forallb existsb].
  intros H. apply andb_true_iff in H as [Ha H]. rewrite (IH H).
  destruct a as [fn args| | | | | |]; try reflexivity.
  cbn [draws existsb] in Ha. cbn [is_button].
  destruct (String.eqb_spec fn "button") as [->|]; [discriminate|reflexivity].
Qed.

Lemma button_within (A : Type) (b : block) (body : ui A) :
  existsb is_button (fst (within b body)) = existsb is_button (fst body).
Proof.
  destruct body as [tr r]. cbn [within fst existsb is_button orb].
  rewrite existsb_app. cbn [existsb is_button]. now rewrite !orb_false_r.
Qed.

Section Results.
Variable float_is_zero : str -> bool.
Variable repr : json -> str.
Variable float_repr : str -> str.

Lemma download_section_run (pressed : str -> bool) (parsed_data : json)
  (extracted_text : str) :
  snd (create_download_section float_repr pressed parsed_data extracted_text)
  = Done tt
  /\ existsb is_button
       (fst (create_download_section float_repr pressed parsed_data
               extracted_text))
     = true.
Proof.
  unfold create_download_section.
  destruct (pressed (ulit "💾 Download JSON")),
    (pressed (ulit "📋 Download Text")),
    (pressed (ulit "🔍 Show Raw JSON")); split; reflexivity.
Qed.

End Results.

Lemma pair_eta (A B : Type) (p : A * B) : p = (fst p, snd p).
Proof. now destruct p. Qed.

Section Parse.
Variable builtin_message : exn -> str.
Variable decode_error : str -> str.
Variable py : Interpreter.

Lemma parse_st_result (self : ResumeParser) (resume_text : str) :
  snd (parse_resume_with_ai_st builtin_message decode_error py self resume_text)
  = Done (parse_resume_with_ai py self resume_text).
Proof.
  unfold parse_resume_with_ai_st, parse_resume_with_ai.
  rewrite prompt_equation. cbn [call ret uibind app].
  destruct (generate self _) as [answer|msg]; [|reflexivity].
  cbn [call ret within uibind try_except app]. unfold normalize.
  destruct (loads py (clean_response answer)); reflexivity.
Qed.

Lemma parse_st_generate (self : ResumeParser) (resume_text : str) :
  filter is_generate
    (fst (parse_resume_with_ai_st builtin_message decode_error py self
            resume_text))
  = [Generate (unlines PROMPT_HEAD ++ resume_text ++ unlines PROMPT_TAIL)].
Proof.
  unfold parse_resume_with_ai_st.
  rewrite prompt_equation. cbn [call ret uibind app].
  destruct (generate self _) as [answer|msg]; [|reflexivity].
  cbn [call ret within uibind try_except app].
  destruct (loads py (clean_response answer)); reflexivity.
Qed.

End Parse.
Section Handlers.
Variable Page : Type.
Variable PdfReader : bytes -> outcome (list Page).
Variable extract_text : Page -> outcome str.
Variable Document : bytes -> outcome (list str).
Variable builtin_message : exn -> str.
Variable decode_error : str -> str.
Variable py : Interpreter.

Lemma report_run (parsed : json) (state : SessionState) :
  report parsed state
  = (match contains (lit "error") parsed with
     | Done false =>
         [St "success"
            [Pos (JString (ulit "🎉 Resume parsed successfully!"))];
          St "balloons" []]
     | Done true =>
         [St "error" [Pos (JString (ulit "❌ Failed to parse resume"))]]
     | Raised _ => []
     end,
     (state,
      match contains (lit "error") parsed with
      | Done _ => Done tt
      | Raised e => Raised e
      end)).
Proof.
  unfold report, appbind, run, eval. cbn [fst snd].
  destruct (contains (lit "error") parsed) as [[|]|e]; reflexivity.
Qed.

(** The spinner around the call of the parser, and what follows. *)
Lemma parse_and_report (self : ResumeParser) (text : str)
  (state : SessionState) :
  parser state = Some self ->
  appbind
    (app_within
       (Call "spinner"
          [Pos (JString (ulit "🤖 Parsing resume with AI..."))])
       (appbind (the_parser "parse_resume_with_ai")
          (fun self =>
             appbind
               (run (parse_resume_with_ai_st builtin_message
                       decode_error py self text))
               (fun parsed_data =>
                  appbind (set_parsed_data parsed_data)
                    (fun _ => appret parsed_data)))))
    (fun parsed_data => report parsed_data) state
  = ((Enter (Call "spinner"
               [Pos (JString (ulit "🤖 Parsing resume with AI..."))])
      :: fst (parse_resume_with_ai_st builtin_message decode_error py self
                text) ++ [Exit])
     ++ fst (report (parse_resume_with_ai py self text) state),
     (mkSession (parse_resume_with_ai py self text) (extracted_text state)
        (Some self),
      snd (snd (report (parse_resume_with_ai py self text) state)))).
Proof.
  intros Hp.
  unfold appbind at 1, app_within, appbind, the_parser, run,
    set_parsed_data, appret.
  rewrite Hp. cbn [fst snd]. rewrite AppFacts.parse_st_result.
  cbn [fst snd app]. rewrite !report_run, Hp.
  cbn [fst snd]. now rewrite !List.app_nil_r.
Qed.

Lemma contains_raises (key : str) (v : json) (e : exn) :
  contains key v = Raised e -> exn_str builtin_message e = builtin_message e.
Proof.
  destruct v; try discriminate; intros H; injection H as <-; reflexivity.
Qed.

(** A handler around it. *)
Lemma try_report (prefix : str) (tr : list act) (parsed : json)
  (state0 state : SessionState) (body : app unit) :
  body state0
  = (tr ++ fst (report parsed state),
     (state, snd (snd (report parsed state)))) ->
  app_try body
    (fun e =>
       run (st "error"
              [Pos (JString (prefix ++ exn_str builtin_message e))]))
    state0
  = (tr ++ verdict builtin_message prefix parsed, (state, Done tt)).
Proof.
  intros H. unfold app_try. rewrite H, report_run. unfold verdict.
  cbn [fst snd].
  destruct (contains (lit "error") parsed) as [[|]|e] eqn:Ec;
    try reflexivity.
  unfold run. cbn [fst snd st]. rewrite (contains_raises _ _ Ec).
  now rewrite <- app_assoc.
Qed.

Lemma upload_extracted (uploaded_file : UploadedFile) (self : ResumeParser)
  (state : SessionState) :
  parser state = Some self ->
  app_within
    (Call "spinner"
       [Pos (JString (ulit "📄 Extracting text from file..."))])
    (appbind (the_parser "extract_text_from_file")
       (fun _ =>
          appbind (run (extraction PdfReader extract_text Document
                          uploaded_file))
            (fun extracted_text =>
               appbind (set_extracted_text extracted_text)
                 (fun _ => appret extracted_text))))
    state
  = (Enter (Call "spinner"
              [Pos (JString (ulit "📄 Extracting text from file..."))])
     :: map World
          (fst (snd (extract_text_from_file PdfReader extract_text Document
                       uploaded_file)))
     ++ [Exit],
     match snd (snd (extract_text_from_file PdfReader extract_text Document
                       uploaded_file)) with
     | Returns text =>
         (mkSession (parsed_data state) (Some text) (Some self), Done text)
     | Raises msg => (state, Raised (Exception msg))
     end).
Proof.
  intros Hp.
  unfold app_within, appbind, the_parser, run, extraction,
    set_extracted_text, appret.
  rewrite Hp.
  destruct (extract_text_from_file _ _ _ _) as [f' [tr [text|msg]]];
    cbn [fst snd app]; rewrite ?List.app_nil_r, ?Hp; reflexivity.
Qed.

(** What the handler of [Parse Resume] does once the text is
    extracted and stored. *)
Lemma after_extraction (self : ResumeParser) (text : str)
  (state : SessionState) :
  parser state = Some self ->
  appbind
    (run (st "success"
            [Pos (JString (ulit "✅ Text extracted successfully!"))]))
    (fun _ =>
       appbind
         (run (within
                 (Call "expander"
                    [Pos (JString (ulit "📄 Preview Extracted Text"))])
                 (st "text_area"
                    [Pos (JString (lit "Extracted Content"));
                     Pos (JString (preview text));
                     Kw "height" (JInt 200); Kw "disabled" (JBool true)])))
         (fun _ =>
            appbind
              (app_within
                 (Call "spinner"
                    [Pos (JString (ulit "🤖 Parsing resume with AI..."))])
                 (appbind (the_parser "parse_resume_with_ai")
                    (fun self =>
                       appbind
                         (run (parse_resume_with_ai_st builtin_message
                                 decode_error py self text))
                         (fun parsed_data =>
                            appbind (set_parsed_data parsed_data)
                              (fun _ => appret parsed_data)))))
              (fun parsed_data => report parsed_data)))
    state
  = (([St "success"
         [Pos (JString (ulit "✅ Text extracted successfully!"))];
       Enter (Call "expander"
                [Pos (JString (ulit "📄 Preview Extracted Text"))]);
       St "text_area"
         [Pos (JString (lit "Extracted Content"));
          Pos (JString (preview text));
          Kw "height" (JInt 200); Kw "disabled" (JBool true)];
       Exit]
      ++ Enter (Call "spinner"
                  [Pos (JString (ulit "🤖 Parsing resume with AI..."))])
         :: fst (parse_resume_with_ai_st builtin_message decode_error py self
                   text) ++ [Exit])
     ++ fst (report (parse_resume_with_ai py self text)
               (mkSession (parse_resume_with_ai py self text)
                  (extracted_text state) (Some self))),
     (mkSession (parse_resume_with_ai py self text) (extracted_text state)
        (Some self),
      snd (snd (report (parse_resume_with_ai py self text)
                  (mkSession (parse_resume_with_ai py self text)
                     (extracted_text state) (Some self)))))).
Proof.
  intros Hp.
  unfold appbind at 1. unfold run at 1. cbn [fst snd st].
  unfold appbind at 1. unfold run at 1. cbn [fst snd st within].
  rewrite (@parse_and_report self text state Hp).
  rewrite !report_run. cbn [fst snd app].
  now rewrite <- !app_assoc.
Qed.

Lemma upload_raises_run (state : SessionState) (self : ResumeParser)
  (uploaded_file : UploadedFile) (msg : str) :
  parser state = Some self ->
  snd (snd (extract_text_from_file PdfReader extract_text Document
              uploaded_file)) = Raises msg ->
  parse_resume_pressed PdfReader extract_text Document builtin_message
    decode_error py uploaded_file state
  = (Enter (Call "spinner"
             [Pos (JString (ulit "📄 Extracting text from file..."))])
     :: map World
          (fst (snd (extract_text_from_file PdfReader extract_text Document
                       uploaded_file)))
     ++ [Exit;
         St "error"
           [Pos (JString (ulit "💥 Error processing file: " ++ msg))]],
     (state, Done tt)).
Proof.
  intros Hp He. unfold parse_resume_pressed, app_try.
  rewrite (@app_bind_raised _ _ _ _ _ _ _ _
             (eq_trans (@upload_extracted uploaded_file self state Hp)
                       ltac:(rewrite He; reflexivity))).
  unfold run. cbn [fst snd st exn_str].
  now rewrite <- app_comm_cons, <- app_assoc.
Qed.

Lemma upload_returns_run (state : SessionState) (self : ResumeParser)
  (uploaded_file : UploadedFile) (text : str) :
  parser state = Some self ->
  snd (snd (extract_text_from_file PdfReader extract_text Document
              uploaded_file)) = Returns text ->
  parse_resume_pressed PdfReader extract_text Document builtin_message
    decode_error py uploaded_file state
  = (upload_shown PdfReader extract_text Document builtin_message
       decode_error py uploaded_file self text
     ++ verdict builtin_message (ulit "💥 Error processing file: ")
          (parse_resume_with_ai py self text),
     (mkSession (parse_resume_with_ai py self text) (Some text) (Some self),
      Done tt)).
Proof.
  intros Hp He. unfold parse_resume_pressed, upload_shown.
  apply try_report.
  rewrite (@app_bind_done _ _ _ _ _ _ _ _
             (eq_trans (@upload_extracted uploaded_file self state Hp)
                       ltac:(rewrite He; reflexivity))).
  rewrite (@after_extraction self text
             (mkSession (parsed_data state) (Some text) (Some self))
             eq_refl).
  cbn [fst snd extracted_text].
  now rewrite <- !app_assoc.
Qed.

Lemma upload_shown_generate (uploaded_file : UploadedFile)
  (self : ResumeParser) (text : str) :
  filter is_generate
    (upload_shown PdfReader extract_text Document builtin_message
       decode_error py uploaded_file self text)
  = [Generate (unlines PROMPT_HEAD ++ text ++ unlines PROMPT_TAIL)].
Proof.
  unfold upload_shown.
  rewrite !filter_app. cbn [filter is_generate]. rewrite !filter_app.
  rewrite parse_st_generate. cbn [filter is_generate app].
  now rewrite world_no_generate.
Qed.

Lemma upload_no_parser (state : SessionState)
  (uploaded_file : UploadedFile) :
  parser state = None ->
  parse_resume_pressed PdfReader extract_text Document builtin_message
    decode_error py uploaded_file state
  = ([Enter (Call "spinner"
               [Pos (JString (ulit "📄 Extracting text from file..."))]);
      Exit;
      St "error"
        [Pos (JString (ulit "💥 Error processing file: "
                       ++ builtin_message
                            (AttributeError JNull
                               "extract_text_from_file")))]],
     (state, Done tt)).
Proof.
  intros Hp.
  unfold parse_resume_pressed, app_try, appbind at 1, app_within,
    appbind at 1, the_parser.
  rewrite Hp. reflexivity.
Qed.

Lemma text_run (state : SessionState) (self : ResumeParser) (text : str) :
  parser state = Some self ->
  parse_text_pressed builtin_message decode_error py text state
  = (text_shown builtin_message decode_error py self text
     ++ verdict builtin_message (ulit "💥 Error parsing text: ")
          (parse_resume_with_ai py self text),
     (mkSession (parse_resume_with_ai py self text) (Some text) (Some self),
      Done tt)).
Proof.
  intros Hp. unfold parse_text_pressed, text_shown.
  apply try_report.
  unfold appbind at 1, set_extracted_text.
  rewrite (@parse_and_report self text
             (mkSession (parsed_data state) (Some text) (parser state)) Hp).
  cbn [fst snd extracted_text app]. rewrite !report_run. reflexivity.
Qed.

Lemma text_shown_generate (self : ResumeParser) (text : str) :
  filter is_generate (text_shown builtin_message decode_error py self text)
  = [Generate (unlines PROMPT_HEAD ++ text ++ unlines PROMPT_TAIL)].
Proof.
  unfold text_shown. cbn [filter is_generate]. rewrite filter_app.
  now rewrite parse_st_generate.
Qed.

Lemma text_no_parser (state : SessionState) (text : str) :
  parser state = None ->
  parse_text_pressed builtin_message decode_error py text state
  = ([Enter (Call "spinner"
               [Pos (JString (ulit "🤖 Parsing resume with AI..."))]);
      Exit;
      St "error"
        [Pos (JString (ulit "💥 Error parsing text: "
                       ++ builtin_message
                            (AttributeError JNull "parse_resume_with_ai")))]],
     (mkSession (parsed_data state) (Some text) None, Done tt)).
Proof.
  intros Hp.
  unfold parse_text_pressed, app_try, appbind at 1, set_extracted_text,
    appbind at 1, app_within, appbind at 1, the_parser.
  cbn [parser]. rewrite Hp. reflexivity.
Qed.

Lemma text_input_run (resume_text : str) (pressed_again : result bool)
  (state : SessionState) :
  nonempty (strip resume_text) = true ->
  exists widgets,
    text_input builtin_message decode_error py resume_text true pressed_again
      state
    = (widgets
       ++ fst (parse_text_pressed builtin_message decode_error py resume_text
                 state),
       snd (parse_text_pressed builtin_message decode_error py resume_text
              state))
    /\ filter is_generate widgets = [].
Proof.
  intros Ht. unfold text_input. rewrite Ht. cbn [andb].
  unfold appbind, run. cbn [fst snd markdown st].
  destruct (parse_text_pressed _ _ _ _) as [tr r]. cbn [fst snd].
  exists [St "markdown" [Pos (JString (ulit "### ✏️ Enter Resume Text"))];
          St "text_area"
            [Pos (JString (lit "Paste your resume text here:"));
             Kw "height" (JInt 300);
             Kw "placeholder"
               (JString
                  (lit "Copy and paste your complete resume text here..."));
             Kw "help"
               (JString
                  (lit "Paste the full content of your resume for best results"))];
          St "button"
            [Pos (JString (ulit "🚀 Parse Text"));
             Kw "type" (JString (lit "primary"));
             Kw "use_container_width" (JBool true)]].
  split; reflexivity.
Qed.

End Handlers.

End AppFacts.

(** X16: [parse_resume_with_ai] never raises and calls the model
    exactly once, inside its spinner, with the prompt built from the
    text.  When the call raises, it shows [Error during AI parsing: ]
    with the message and returns the message under [error].  When the
    cleaned answer is JSON it shows nothing more and returns the value.
    When [json.loads] raises [JSONDecodeError] it shows
    [Failed to parse AI response as JSON: ] with the message of the
    error and the cleaned answer in a text area, and returns the
    record that carries the cleaned answer.  When [json.loads] raises
    for a limit of the interpreter, on a text nested too deeply or an
    integer of too many digits, it shows [Error during AI parsing: ]
    with the message of that exception and returns only the message
    under [error].  In every case the value is the one of
    [Parser.parse_resume_with_ai]. *)
Theorem parse_resume_with_ai_page
  (builtin_message : exn -> str) (decode_error : str -> str)
  (py : Interpreter) (self : ResumeParser) (resume_text : str) :
  let prompt := unlines PROMPT_HEAD ++ resume_text ++ unlines PROMPT_TAIL in
  let page :=
    parse_resume_with_ai_st builtin_message decode_error py self
      resume_text in
  let called :=
    [Enter (Call "spinner"
              [Pos (JString (ulit "🤖 AI is analyzing your resume..."))]);
     Generate prompt; Exit] in
  match generate self prompt with
  | Raises msg =>
      page
      = (called
         ++ [St "error"
               [Pos (JString (lit "Error during AI parsing: " ++ msg))]],
         Done (JObject [(lit "error", JString msg)]))
  | Returns answer =>
      match loads py (clean_response answer) with
      | Ok parsed_data => page = (called, Done parsed_data)
      | Raise _ =>
          page
          = (called
             ++ [St "error"
                   [Pos (JString
                           (lit "Failed to parse AI response as JSON: "
                            ++ decode_error (clean_response answer)))];
                 St "text_area"
                   [Pos (JString (lit "Raw AI Response:"));
                    Pos (JString (clean_response answer));
                    Kw "height" (JInt 200)]],
             Done (JObject
                     [(lit "error", JString (lit "JSON parsing failed"));
                      (lit "raw_response",
                       JString (clean_response answer))]))
      | Throw e =>
          page
          = (called
             ++ [St "error"
                   [Pos (JString (lit "Error during AI parsing: "
                                  ++ error_text py e))]],
             Done (JObject [(lit "error", JString (error_text py e))]))
      | Fuel => False
      end
  end
  /\ snd page = Done (parse_resume_with_ai py self resume_text).
Proof.
  cbv zeta. split; [|apply AppFacts.parse_st_result].
  unfold parse_resume_with_ai_st.
  rewrite prompt_equation. cbn [call ret uibind app].
  destruct (generate self _) as [answer|msg]; [|reflexivity].
  cbn [call ret within uibind try_except app].
  pose proof (@DecoderFacts.loads_total py (clean_response answer)) as Ht.
  destruct (loads py (clean_response answer));
    [reflexivity|reflexivity|now destruct Ht|reflexivity].
Qed.

(** X17: when the extraction raises, the handler of [Parse Resume]
    shows the message of the exception behind [Error processing file],
    and that is all: the session state is as before, the model is not
    called, and nothing is raised. *)
Theorem upload_extraction_fails
  (Page : Type) (PdfReader : bytes -> outcome (list Page))
  (extract_text : Page -> outcome str)
  (Document : bytes -> outcome (list str))
  (builtin_message : exn -> str) (decode_error : str -> str)
  (py : Interpreter)
  (state : SessionState) (self : ResumeParser)
  (uploaded_file : UploadedFile) (msg : str) :
  parser state = Some self ->
  snd (snd (extract_text_from_file PdfReader extract_text Document
              uploaded_file)) = Raises msg ->
  parse_resume_pressed PdfReader extract_text Document builtin_message
    decode_error py uploaded_file state
  = (Enter (Call "spinner"
             [Pos (JString (ulit "📄 Extracting text from file..."))])
     :: map World
          (fst (snd (extract_text_from_file PdfReader extract_text Document
                       uploaded_file)))
     ++ [Exit;
         St "error"
           [Pos (JString (ulit "💥 Error processing file: " ++ msg))]],
     (state, Done tt))
  /\ filter is_generate
       (fst (parse_resume_pressed PdfReader extract_text Document
               builtin_message decode_error py uploaded_file state))
     = [].
Proof.
  intros Hp He.
  rewrite (@AppFacts.upload_raises_run Page PdfReader extract_text Document
             builtin_message decode_error py state self uploaded_file msg Hp
             He).
  split; [reflexivity|].
  cbn [fst filter is_generate]. rewrite filter_app.
  now rewrite AppFacts.world_no_generate.
Qed.

Lemma upload_extraction_fails_witness :
  parse_resume_pressed (fun _ => Returns [lit "page"])
    (fun page : str => Returns page) (fun _ => Returns [lit "Ada"])
    (fun _ => []) (fun _ => []) cpython
    (mkUpload (lit "resume.txt") [104%N; 105%N] 0)
    (mkSession JNull None
       (Some (mkParser (lit "key") (fun _ => Returns (lit "{}")))))
  = ([Enter (Call "spinner"
               [Pos (JString (ulit "📄 Extracting text from file..."))]);
      World EvRead; Exit;
      St "error"
        [Pos (JString (ulit "💥 Error processing file: " ++ UNSUPPORTED))]],
     (mkSession JNull None
        (Some (mkParser (lit "key") (fun _ => Returns (lit "{}")))),
      Done tt)).
Proof.
  apply (@upload_extraction_fails str (fun _ => Returns [lit "page"])
           (fun page : str => Returns page) (fun _ => Returns [lit "Ada"])
           (fun _ => []) (fun _ => []) cpython
           (mkSession JNull None
              (Some (mkParser (lit "key") (fun _ => Returns (lit "{}")))))
           (mkParser (lit "key") (fun _ => Returns (lit "{}")))
           (mkUpload (lit "resume.txt") [104%N; 105%N] 0) UNSUPPORTED);
    reflexivity.
Defined.

(** X18: when the extraction returns a text, the handler of
    [Parse Resume] stores the text, calls the model exactly once, with
    the prompt built from that text (also when the text is empty),
    stores what [parse_resume_with_ai] returns, and ends with the
    verdict on that value: success, failure when the value holds
    [error], or the message of the [TypeError] when the value is a
    number, a boolean or [None].  Nothing is raised. *)
Theorem upload_parsed
  (Page : Type) (PdfReader : bytes -> outcome (list Page))
  (extract_text : Page -> outcome str)
  (Document : bytes -> outcome (list str))
  (builtin_message : exn -> str) (decode_error : str -> str)
  (py : Interpreter)
  (state : SessionState) (self : ResumeParser)
  (uploaded_file : UploadedFile) (text : str) :
  parser state = Some self ->
  snd (snd (extract_text_from_file PdfReader extract_text Document
              uploaded_file)) = Returns text ->
  exists shown,
    parse_resume_pressed PdfReader extract_text Document builtin_message
      decode_error py uploaded_file state
    = (shown
       ++ verdict builtin_message (ulit "💥 Error processing file: ")
            (parse_resume_with_ai py self text),
       (mkSession (parse_resume_with_ai py self text) (Some text) (Some self),
        Done tt))
    /\ filter is_generate shown
       = [Generate (unlines PROMPT_HEAD ++ text ++ unlines PROMPT_TAIL)].
Proof.
  intros Hp He.
  exists (upload_shown PdfReader extract_text Document builtin_message
            decode_error py uploaded_file self text).
  split.
  - now apply AppFacts.upload_returns_run.
  - apply AppFacts.upload_shown_generate.
Qed.

Lemma upload_parsed_witness :
  exists shown,
    parse_resume_pressed (fun _ => Returns [lit "page"])
      (fun page : str => Returns page) (fun _ => Returns [lit "Ada"])
      (fun _ => []) (fun _ => []) cpython
      (mkUpload (lit "cv.docx") [80%N; 75%N] 0)
      (mkSession JNull None
         (Some (mkParser (lit "key") (fun _ => Returns (lit "7")))))
    = (shown
       ++ verdict (fun _ => []) (ulit "💥 Error processing file: ")
            (parse_resume_with_ai cpython
               (mkParser (lit "key") (fun _ => Returns (lit "7")))
               (lit "Ada")),
       (mkSession
          (parse_resume_with_ai cpython
             (mkParser (lit "key") (fun _ => Returns (lit "7")))
             (lit "Ada"))
          (Some (lit "Ada"))
          (Some (mkParser (lit "key") (fun _ => Returns (lit "7")))),
        Done tt))
    /\ filter is_generate shown
       = [Generate (unlines PROMPT_HEAD ++ lit "Ada" ++ unlines PROMPT_TAIL)].
Proof.
  apply (@upload_parsed str (fun _ => Returns [lit "page"])
           (fun page : str => Returns page) (fun _ => Returns [lit "Ada"])
           (fun _ => []) (fun _ => []) cpython
           (mkSession JNull None
              (Some (mkParser (lit "key") (fun _ => Returns (lit "7")))))
           (mkParser (lit "key") (fun _ => Returns (lit "7")))
           (mkUpload (lit "cv.docx") [80%N; 75%N] 0) (lit "Ada"));
    reflexivity.
Defined.

(** X19: neither handler ever raises, whatever the file, the text, the
    libraries and the session state are, and neither changes the
    parser of the session: every exception ends as a message on the
    page. *)
Theorem handlers_never_raise
  (Page : Type) (PdfReader : bytes -> outcome (list Page))
  (extract_text : Page -> outcome str)
  (Document : bytes -> outcome (list str))
  (builtin_message : exn -> str) (decode_error : str -> str)
  (py : Interpreter)
  (state : SessionState) (uploaded_file : UploadedFile) (resume_text : str) :
  (snd (snd (parse_resume_pressed PdfReader extract_text Document
               builtin_message decode_error py uploaded_file state))
   = Done tt
   /\ parser (fst (snd (parse_resume_pressed PdfReader extract_text Document
                          builtin_message decode_error py uploaded_file state)))
      = parser state)
  /\ (snd (snd (parse_text_pressed builtin_message decode_error py resume_text
                  state))
      = Done tt
      /\ parser (fst (snd (parse_text_pressed builtin_message decode_error py
                             resume_text state)))
         = parser state).
Proof.
  destruct (parser state) as [self|] eqn:Hp; split.
  - destruct (snd (snd (extract_text_from_file PdfReader extract_text
                          Document uploaded_file))) as [text|msg] eqn:He.
    + rewrite (@AppFacts.upload_returns_run Page PdfReader extract_text
                 Document builtin_message decode_error py state self
                 uploaded_file text Hp He).
      now split.
    + rewrite (@AppFacts.upload_raises_run Page PdfReader extract_text
                 Document builtin_message decode_error py state self
                 uploaded_file msg Hp He).
      now split.
  - rewrite (@AppFacts.text_run builtin_message decode_error py state self
               resume_text Hp).
    now split.
  - rewrite (@AppFacts.upload_no_parser Page PdfReader extract_text Document
               builtin_message decode_error py state uploaded_file Hp).
    now split.
  - rewrite (@AppFacts.text_no_parser builtin_message decode_error py state
               resume_text Hp).
    now split.
Qed.

(** X20: a text that is empty or all whitespace never reaches the
    model: whatever the first button returns, the text input leaves the
    session state as it is and calls no model.  It then calls
    [st.button] a second time, with the arguments of the first call
    and no key, and raises what that call raises, as the library does
    for a second element with the identity of another one; only when
    that call returns does the text input return. *)
Theorem blank_text_is_not_parsed
  (builtin_message : exn -> str) (decode_error : str -> str)
  (py : Interpreter) (resume_text : str) (pressed : bool)
  (pressed_again : result bool) (state : SessionState) :
  forallb isspace resume_text = true ->
  snd (text_input builtin_message decode_error py resume_text pressed
         pressed_again state)
  = (state,
     match pressed_again with
     | Done _ => Done tt
     | Raised e => Raised e
     end)
  /\ filter is_generate
       (fst (text_input builtin_message decode_error py resume_text pressed
               pressed_again state))
     = []
  /\ filter is_button
       (fst (text_input builtin_message decode_error py resume_text pressed
               pressed_again state))
     = [St "button" [Pos (JString (ulit "🚀 Parse Text"));
                     Kw "type" (JString (lit "primary"));
                     Kw "use_container_width" (JBool true)];
        St "button" [Pos (JString (ulit "🚀 Parse Text"));
                     Kw "type" (JString (lit "primary"));
                     Kw "use_container_width" (JBool true)]].
Proof.
  intros H. apply StripFacts.strip_nil_iff in H.
  unfold text_input. rewrite H. cbn [nonempty]. rewrite andb_false_r.
  destruct pressed_again as [[|]|e]; repeat split; reflexivity.
Qed.

Lemma blank_text_is_not_parsed_witness :
  snd (text_input (fun _ => []) (fun _ => []) cpython [32%N; 10%N; 160%N]
         true (Raised (Exception (lit "DuplicateWidgetID")))
         (mkSession JNull None
            (Some (mkParser (lit "key") (fun _ => Returns (lit "{}"))))))
  = (mkSession JNull None
       (Some (mkParser (lit "key") (fun _ => Returns (lit "{}")))),
     Raised (Exception (lit "DuplicateWidgetID")))
  /\ filter is_generate
       (fst (text_input (fun _ => []) (fun _ => []) cpython
               [32%N; 10%N; 160%N] true
               (Raised (Exception (lit "DuplicateWidgetID")))
               (mkSession JNull None
                  (Some (mkParser (lit "key")
                           (fun _ => Returns (lit "{}")))))))
     = []
  /\ filter is_button
       (fst (text_input (fun _ => []) (fun _ => []) cpython
               [32%N; 10%N; 160%N] true
               (Raised (Exception (lit "DuplicateWidgetID")))
               (mkSession JNull None
                  (Some (mkParser (lit "key")
                           (fun _ => Returns (lit "{}")))))))
     = [St "button" [Pos (JString (ulit "🚀 Parse Text"));
                     Kw "type" (JString (lit "primary"));
                     Kw "use_container_width" (JBool true)];
        St "button" [Pos (JString (ulit "🚀 Parse Text"));
                     Kw "type" (JString (lit "primary"));
                     Kw "use_container_width" (JBool true)]].
Proof.
  apply (@blank_text_is_not_parsed (fun _ => []) (fun _ => []) cpython
           [32%N; 10%N; 160%N] true
           (Raised (Exception (lit "DuplicateWidgetID")))
           (mkSession JNull None
              (Some (mkParser (lit "key") (fun _ => Returns (lit "{}")))))).
  reflexivity.
Defined.

(** X21: when [Parse Text] is pressed on a text that is not blank, the
    text is stored and sent to the model as it was typed, with its
    outer whitespace; the model is called exactly once and what
    [parse_resume_with_ai] returns is stored. *)
Theorem typed_text_is_parsed
  (builtin_message : exn -> str) (decode_error : str -> str)
  (py : Interpreter)
  (resume_text : str) (pressed_again : result bool) (state : SessionState)
  (self : ResumeParser) :
  parser state = Some self ->
  nonempty (strip resume_text) = true ->
  snd (text_input builtin_message decode_error py resume_text true
         pressed_again state)
  = (mkSession (parse_resume_with_ai py self resume_text) (Some resume_text)
       (Some self),
     Done tt)
  /\ filter is_generate
       (fst (text_input builtin_message decode_error py resume_text true
               pressed_again state))
     = [Generate (unlines PROMPT_HEAD ++ resume_text
                  ++ unlines PROMPT_TAIL)].
Proof.
  intros Hp Ht.
  destruct (@AppFacts.text_input_run builtin_message decode_error py
              resume_text pressed_again state Ht) as (widgets & -> & Hw).
  rewrite (@AppFacts.text_run builtin_message decode_error py state self
             resume_text Hp).
  cbn [fst snd]. split; [reflexivity|].
  rewrite !filter_app, Hw, AppFacts.text_shown_generate. unfold verdict.
  now destruct (contains (lit "error")
                  (parse_resume_with_ai py self resume_text)) as [[|]|e].
Qed.

Lemma typed_text_is_parsed_witness :
  snd (text_input (fun _ => []) (fun _ => []) cpython (lit " Ada ") true
         (Done false)
         (mkSession JNull None
            (Some (mkParser (lit "key") (fun _ => Returns (lit "{}"))))))
  = (mkSession
       (parse_resume_with_ai cpython
          (mkParser (lit "key") (fun _ => Returns (lit "{}")))
          (lit " Ada "))
       (Some (lit " Ada "))
       (Some (mkParser (lit "key") (fun _ => Returns (lit "{}")))),
     Done tt)
  /\ filter is_generate
       (fst (text_input (fun _ => []) (fun _ => []) cpython (lit " Ada ")
               true (Done false)
               (mkSession JNull None
                  (Some (mkParser (lit "key")
                           (fun _ => Returns (lit "{}")))))))
     = [Generate (unlines PROMPT_HEAD ++ lit " Ada "
                  ++ unlines PROMPT_TAIL)].
Proof.
  apply (@typed_text_is_parsed (fun _ => []) (fun _ => []) cpython
           (lit " Ada ") (Done false)
           (mkSession JNull None
              (Some (mkParser (lit "key") (fun _ => Returns (lit "{}")))))
           (mkParser (lit "key") (fun _ => Returns (lit "{}"))));
    reflexivity.
Defined.

(** X22: [display_parsed_results] and the eight functions it calls only
    draw: whatever the value is, and also when they end by raising,
    each of their calls is [st.markdown], [st.columns], [st.error],
    [st.text], or the entering or leaving of an expander or a column.
    They create no widget, call no model and touch no file. *)
Theorem display_only_draws
  (float_is_zero : str -> bool) (repr : json -> str) (parsed_data : json)
  (a : act) :
  In a (fst (display_parsed_results float_is_zero repr parsed_data)) ->
  draws a = true.
Proof.
  intros H.
  pose proof (ViewFacts.draws_display_parsed_results float_is_zero repr
                parsed_data) as Hd.
  rewrite forallb_forall in Hd. now apply Hd.
Qed.

Lemma display_only_draws_witness :
  draws (St "markdown"
           [Pos (JString (uqlit "<div class='section-header'>📝 Professional Summary</div>"));
            Kw "unsafe_allow_html" (JBool true)])
  = true.
Proof.
  apply (@display_only_draws (fun _ => false) (fun _ => [])
           (JObject [(lit "summary", JString (lit "Engineer"))])).
  cbn. left. reflexivity.
Defined.


(** X24: [ResumeParser(api_key)] returns a parser only for a key that is
    not empty, after [genai.configure] and [genai.GenerativeModel]
    returned, and the parser holds that key.  With an empty key it
    raises [ValueError("API key is required")] before any call of the
    library; a failure of the library is raised again as a
    [ValueError] whose message is [Failed to initialize Gemini AI: ]
    followed by the message of the failure. *)
Theorem init_outcomes
  (configure : str -> outcome unit)
  (GenerativeModel : str -> outcome (str -> outcome str))
  (builtin_message : exn -> str) (key : str) :
  match snd (init configure GenerativeModel builtin_message key) with
  | Done self =>
      api_key self = key
      /\ nonempty key = true
      /\ configure key = Returns tt
      /\ GenerativeModel (lit "gemini-1.5-flash") = Returns (generate self)
  | Raised e =>
      if nonempty key then
        exists msg,
          e = ValueError (lit "Failed to initialize Gemini AI: " ++ msg)
          /\ (configure key = Raises msg
              \/ GenerativeModel (lit "gemini-1.5-flash") = Raises msg)
      else
        e = ValueError (lit "API key is required")
        /\ fst (init configure GenerativeModel builtin_message key) = []
  end.
Proof.
  unfold init. destruct key as [|c key]; [now split|].
  cbn [nonempty negb].
  destruct (configure (c :: key)) as [[]|msg] eqn:Ec.
  - destruct (GenerativeModel (lit "gemini-1.5-flash")) as [model|msg] eqn:Eg.
    + cbn [call ret uibind try_except snd app]. repeat split; assumption.
    + cbn [call ret throw uibind try_except snd app exn_str].
      exists msg. split; [reflexivity|now right].
  - cbn [call ret throw uibind try_except snd app exn_str].
    exists msg. split; [reflexivity|now left].
Qed.
